(** * CloudFusion: a shallow embedding of the block filesystem core

    The Go sources embedded here, by their place under src/:
    - cache.go: the write-back LRU cache ([type Cache]), the integer
      stream allocator ([type IntStream]), [makeNewSuperblock],
      [makeNewRootInode] and the start of [mount], [FileHandle.Release];
    - unnamed/part_002: blocks, keys and the block store interface;
    - unnamed/part_001: the inode with its direct and indirect extents;
    - unnamed/part_003: the directory table ([type InodeTable]);
    - dir.go: the directory node ([type Dir]);
    - unnamed/part_000: the filesystem root ([type FS]) and its
      superblocks.

    Conventions of the embedding.
    - A [uint64] is a [Z] in [0, 2^64); every arithmetic operation of the
      source is followed by its wrap-around ([wrap64]).
    - A byte is a [Z] in [0, 256); a [[]byte] or a fixed array is a
      [list Z].  A slice has capacity equal to its length.
    - A run-time panic (slice bounds out of range, nil dereference) and
      [os.Exit] are outcomes of their own ([Panic], [Exit]); a Go [error]
      value that is returned is ordinary data ([option error]).
    - The remote stores are finite maps from keys to values; a remote call
      itself never fails in transit (a missing key is reported the way the
      service reports it).
    - [encoding/gob] and [crypto/md5] are external libraries.  The gob
      codec is an interface ([Gob]) with its round-trip law, and an
      instance following gob's documented wire format is given.  A key
      ["hh-dataN"] is determined by its identifier ["dataN"], so keys are
      the identifiers. *)

From stdpp Require Import gmap strings list fin_maps.
From Stdlib Require Import ZArith Lia.

Local Open Scope Z_scope.

(** ** Machine integers *)

Definition wrap64 (x : Z) : Z := x mod 2 ^ 64.
Definition add64 (a b : Z) : Z := wrap64 (a + b).
Definition sub64 (a b : Z) : Z := wrap64 (a - b).
Definition mul64 (a b : Z) : Z := wrap64 (a * b).
Definition wrap16 (x : Z) : Z := x mod 2 ^ 16.

Definition is_u64 (x : Z) : Prop := 0 <= x < 2 ^ 64.
Definition is_byte (x : Z) : Prop := 0 <= x < 256.

Definition len {A} (l : list A) : Z := Z.of_nat (length l).

(** [binary.LittleEndian.PutUint64] and friends, for any width. *)
Fixpoint le_bytes (n : nat) (x : Z) : list Z :=
  match n with
  | O => []
  | S n' => x mod 256 :: le_bytes n' (x / 256)
  end.

Fixpoint le_value (bs : list Z) : Z :=
  match bs with
  | [] => 0
  | b :: bs' => b + 256 * le_value bs'
  end.

Definition PutUint64 (x : Z) : list Z := le_bytes 8 x.
Definition Uint64 (bs : list Z) : Z := le_value (take 8 bs).

(** Two's complement views used by [encoding/binary] for [int64], [int8]. *)
Definition to_signed (bits : Z) (x : Z) : Z :=
  if x <? 2 ^ (bits - 1) then x else x - 2 ^ bits.

(** ** Outcomes of a Go computation *)

Inductive Outcome (A : Type) : Type :=
| Ok (a : A)
| Panic
| Exit (code : Z).
Arguments Ok {A} a.
Arguments Panic {A}.
Arguments Exit {A} code.

Definition obind {A B} (o : Outcome A) (f : A -> Outcome B) : Outcome B :=
  match o with
  | Ok a => f a
  | Panic => Panic
  | Exit c => Exit c
  end.

(** ** Go slices

    [s[lo:hi]] panics unless [0 <= lo <= hi <= cap(s)]; [copy] moves
    [min(len dst, len src)] elements. *)

Definition slice_ok (lo hi cap : Z) : bool :=
  (0 <=? lo) && (lo <=? hi) && (hi <=? cap).

(** [copy(dst[dlo:dhi], src[slo:shi])], returning the updated [dst]. *)
Definition goCopy (dst : list Z) (dlo dhi : Z) (src : list Z) (slo shi : Z)
  : Outcome (list Z) :=
  if slice_ok dlo dhi (len dst) && slice_ok slo shi (len src) then
    let n := Z.to_nat (Z.min (dhi - dlo) (shi - slo)) in
    Ok (take (Z.to_nat dlo) dst
          ++ take n (drop (Z.to_nat slo) src)
          ++ drop (Z.to_nat dlo + n) dst)
  else Panic.

(** [s[lo:]] *)
Definition goSliceFrom (s : list Z) (lo : Z) : Outcome (list Z) :=
  if slice_ok lo (len s) (len s) then Ok (drop (Z.to_nat lo) s) else Panic.

(** [s[lo:hi]] as a value *)
Definition goSlice (s : list Z) (lo hi : Z) : Outcome (list Z) :=
  if slice_ok lo hi (len s) then
    Ok (take (Z.to_nat (hi - lo)) (drop (Z.to_nat lo) s))
  else Panic.

(** [make([]byte, n)] *)
Definition makeBytes (n : Z) : list Z := replicate (Z.to_nat n) 0.

(** ** Errors returned as values *)

Inductive error : Type :=
| ErrCacheMiss          (* "Error doing GetItem to DynamoDB (cache miss)." *)
| ErrCacheHitFailed     (* "... on supposed cache hit." *)
| ErrCacheRemove        (* "Failed to removeBlock from cache." *)
| ErrNoSuchKey          (* S3 GetObject on a key that is absent *)
| ErrShortRead          (* binary.Read on a short body *)
| ErrDeleteBoth         (* "Failed to delete from both DynamoDB and S3." *)
| ErrOffsetPastEnd      (* "Offset specified to read is past the end of the file." *)
| ErrDeleteTooLarge     (* "SIZE OF DELETE TOO LARGE" *)
| ErrNotEmpty           (* "Cannot remove non-empty directory ..." *)
| ENOENT                (* fuse.ENOENT *)
| ErrGob.               (* a gob decoding error *)

Global Instance error_eq_dec : EqDecision error.
Proof. solve_decision. Defined.

(** ** encoding/gob (external)

    The two types the program serialises with gob: the [[]uint64] of the
    stream's stack and the [map[string]uint64] of a directory table.
    [Decode] either fails or yields a value; the law is the library's
    contract that decoding the encoding of a stack gives the stack back. *)

(** The size above which gob refuses a message (8 GiB on a 64-bit host). *)
Definition gobTooBig : Z := 2 ^ 33.

Class Gob : Type := {
  gobEncodeUints : list Z -> list Z;
  gobDecodeUints : list Z -> option (list Z);
  gobEncodeTable : gmap string Z -> list Z;
  gobDecodeTable : list Z -> option (gmap string Z);
  gob_uints_roundtrip :
    forall l, Forall is_u64 l -> len (gobEncodeUints l) < gobTooBig ->
              gobDecodeUints (gobEncodeUints l) = Some l;
}.

(** *** The wire format, as the gob documentation gives it

    An unsigned integer below 128 is one byte; otherwise the negated byte
    count followed by the minimal big-endian bytes.  A message is its
    byte length followed by its content.  The first message describes the
    type (id 65), the second carries the value. *)
Module GobWire.

Definition byteLen (x : Z) : nat :=
  if x <? 2 ^ 8 then 1 else if x <? 2 ^ 16 then 2 else
  if x <? 2 ^ 24 then 3 else if x <? 2 ^ 32 then 4 else
  if x <? 2 ^ 40 then 5 else if x <? 2 ^ 48 then 6 else
  if x <? 2 ^ 56 then 7 else 8.

Definition encodeUint (x : Z) : list Z :=
  if x <? 128 then [x]
  else let n := byteLen x in (256 - Z.of_nat n) :: rev (le_bytes n x).

Definition decodeUint (bs : list Z) : option (Z * list Z) :=
  match bs with
  | [] => None
  | b :: rest =>
      if b <? 128 then Some (b, rest)
      else
        let n := Z.to_nat (256 - b) in
        if (8 <? Z.of_nat n) || (len rest <? Z.of_nat n) then None
        else Some (le_value (rev (take n rest)), drop n rest)
  end.

(** wireType{SliceT: {CommonType{Id: 65}, Elem: uint}} *)
Definition typeDefUints : list Z :=
  [12; 255; 129; 2; 1; 2; 255; 130; 0; 1; 6; 0; 0].
(** wireType{MapT: {CommonType{Id: 65}, Key: string, Elem: uint}} *)
Definition typeDefTable : list Z :=
  [14; 255; 129; 4; 1; 2; 255; 130; 0; 1; 12; 1; 6; 0; 0].
(** type id 65, then the zero that precedes a value that is not a struct *)
Definition valueHeader : list Z := [255; 130; 0].

Definition message (payload : list Z) : list Z :=
  encodeUint (len payload) ++ payload.

Definition encodeUints (l : list Z) : list Z :=
  typeDefUints
    ++ message (valueHeader ++ encodeUint (len l) ++ concat (map encodeUint l)).

Fixpoint decodeElems (fuel : nat) (count : Z) (bs : list Z)
  : option (list Z * list Z) :=
  if count <=? 0 then Some ([], bs)
  else match fuel with
       | O => None
       | S fuel' =>
           match decodeUint bs with
           | None => None
           | Some (x, rest) =>
               match decodeElems fuel' (count - 1) rest with
               | None => None
               | Some (xs, rest') => Some (x :: xs, rest')
               end
           end
       end.

(** The value message that follows a type description [td]. *)
Definition openValue (td bs : list Z) : option (list Z) :=
  if bool_decide (take (length td) bs = td) then
    match decodeUint (drop (length td) bs) with
    | None => None
    | Some (n, rest) =>
        if len rest <? n then None
        else
          let payload := take (Z.to_nat n) rest in
          if bool_decide (take 3 payload = valueHeader)
          then Some (drop 3 payload) else None
    end
  else None.

Definition decodeUints (bs : list Z) : option (list Z) :=
  match openValue typeDefUints bs with
  | None => None
  | Some body =>
      match decodeUint body with
      | None => None
      | Some (count, rest) =>
          match decodeElems (length rest) count rest with
          | Some (xs, []) => Some xs
          | _ => None
          end
      end
  end.

Definition bytesOfString (s : string) : list Z :=
  map (fun a => Z.of_N (Ascii.N_of_ascii a)) (String.list_ascii_of_string s).
Definition stringOfBytes (bs : list Z) : string :=
  String.string_of_list_ascii (map (fun b => Ascii.ascii_of_N (Z.to_N b)) bs).

Definition encodeEntry (e : string * Z) : list Z :=
  let k := bytesOfString e.1 in encodeUint (len k) ++ k ++ encodeUint e.2.

Definition encodeTable (m : gmap string Z) : list Z :=
  let es := map_to_list m in
  typeDefTable
    ++ message (valueHeader ++ encodeUint (len es) ++ concat (map encodeEntry es)).

Definition decodeEntry (bs : list Z) : option ((string * Z) * list Z) :=
  match decodeUint bs with
  | None => None
  | Some (n, rest) =>
      if len rest <? n then None
      else
        match decodeUint (drop (Z.to_nat n) rest) with
        | None => None
        | Some (v, rest') => Some ((stringOfBytes (take (Z.to_nat n) rest), v), rest')
        end
  end.

Fixpoint decodeEntries (fuel : nat) (count : Z) (bs : list Z)
  : option (list (string * Z) * list Z) :=
  if count <=? 0 then Some ([], bs)
  else match fuel with
       | O => None
       | S fuel' =>
           match decodeEntry bs with
           | None => None
           | Some (e, rest) =>
               match decodeEntries fuel' (count - 1) rest with
               | None => None
               | Some (es, rest') => Some (e :: es, rest')
               end
           end
       end.

Definition decodeTable (bs : list Z) : option (gmap string Z) :=
  match openValue typeDefTable bs with
  | None => None
  | Some body =>
      match decodeUint body with
      | None => None
      | Some (count, rest) =>
          match decodeEntries (length rest) count rest with
          | Some (es, []) => Some (list_to_map es)
          | _ => None
          end
      end
  end.

End GobWire.

(** ** The integer stream (cache.go, [type IntStream])

    [stack] is the [container/list] of returned identifiers, its front
    first; [PushFront] is [cons] and [Remove (Front ())] takes the head. *)

Record IntStream : Type := mkIntStream {
  stack : list Z;
  lastInt : Z;
}.

(** [func (s *IntStream) next() uint64] *)
Definition next (s : IntStream) : Z * IntStream :=
  if len (stack s) =? 0 then
    let s' := {| stack := stack s; lastInt := add64 (lastInt s) 1 |} in
    (lastInt s', s')
  else
    match stack s with
    | oldFront :: rest => (oldFront, {| stack := rest; lastInt := lastInt s |})
    | [] => (0, s)   (* not reached: the list is not empty *)
    end.

(** [func (s *IntStream) put(newInt uint64)] *)
Definition put (s : IntStream) (newInt : Z) : IntStream :=
  {| stack := newInt :: stack s; lastInt := lastInt s |}.

(** [compressStream] and [decompressStream] carry [lastInt] alone. *)
Definition compressStream (s : IntStream) : list Z := PutUint64 (lastInt s).

Definition decompressStream (s : IntStream) (buf : list Z) : IntStream :=
  {| stack := stack s; lastInt := Uint64 (take 8 buf) |}.

(** The loop of [MarshalBinary]: while the stack is not empty, store its
    front at index [Len () - 1] of [listArray] and remove it.  Returns the
    array and what is left of the stack. *)
Fixpoint marshalLoop (st : list Z) (listArray : list Z) : list Z * list Z :=
  match st with
  | [] => (listArray, st)
  | elt :: rest => marshalLoop rest (<[(length st - 1)%nat := elt]> listArray)
  end.

(** [func (s *IntStream) MarshalBinary() ([]byte, error)]: the encoder
    cannot fail on a [[]uint64], so the error is always nil. *)
Definition MarshalBinary `{Gob} (s : IntStream) : list Z * IntStream :=
  let '(listArray, st') :=
    marshalLoop (stack s) (replicate (length (stack s)) 0) in
  (gobEncodeUints listArray, {| stack := st'; lastInt := lastInt s |}).

(** [func (s *IntStream) UnmarshalBinary(data []byte) error]: a decoding
    error ends the process with [os.Exit(2)]. *)
Definition UnmarshalBinary `{Gob} (s : IntStream) (data : list Z)
  : Outcome IntStream :=
  match gobDecodeUints data with
  | Some listArray =>
      Ok {| stack := fold_left (fun st entry => entry :: st) listArray [];
            lastInt := lastInt s |}
  | None => Exit 2
  end.

(** [n] successive calls of [next], with the values they return. *)
Fixpoint nextN (n : nat) (s : IntStream) : list Z * IntStream :=
  match n with
  | O => ([], s)
  | S n' =>
      let '(x, s1) := next s in
      let '(xs, s2) := nextN n' s1 in
      (x :: xs, s2)
  end.

(** ** Blocks and their keys (unnamed/part_002) *)

Definition BLOCK_SIZE : Z := 32768.

(** [type DataBlock struct { Data [BLOCK_SIZE]byte }] *)
Definition DataBlock : Type := list Z.
Definition newDataBlock : DataBlock := makeBytes BLOCK_SIZE.

(** The identifier a key is made of: ["dataN"], ["inodeBlockM"], and the
    superblock names ["superI"]. *)
Inductive Key : Type :=
| DataKey (dataNum : Z)
| InodeBlockKey (blockNum : Z)
| SuperKey (index : Z).

Global Instance Key_eq_dec : EqDecision Key.
Proof. solve_decision. Defined.

Definition Key_code (k : Key) : Z * Z :=
  match k with
  | DataKey n => (0, n)
  | InodeBlockKey m => (1, m)
  | SuperKey i => (2, i)
  end.

Definition Key_decode (p : Z * Z) : option Key :=
  match p with
  | (0, n) => Some (DataKey n)
  | (1, n) => Some (InodeBlockKey n)
  | (2, n) => Some (SuperKey n)
  | _ => None
  end.

Global Instance Key_countable : Countable Key.
Proof. apply (inj_countable Key_code Key_decode). intros []; reflexivity. Defined.

Definition INODE_SIZE : Z := 512.

Definition genDataKey (dataNum : Z) : Key := DataKey dataNum.
Definition genInodeBlockKey (inodeNum : Z) : Key :=
  InodeBlockKey (inodeNum / (BLOCK_SIZE / INODE_SIZE)).

(** ** The write-back LRU cache (cache.go, [type Cache])

    [recentlyUsedQueue] is a [container/list] whose elements are heap
    objects: an element is its address ([nat]) and its [Value].  [keyHash]
    maps a key to an element pointer, [None] being a stored nil. *)

Record Cache : Type := mkCache {
  cacheCapacity : Z;
  recentlyUsedQueue : list (nat * Key);
  keyHash : gmap Key (option nat);
  nextElement : nat;    (* the next fresh element address *)
}.

(** [c.keyHash[key]]: nil when absent or when nil was stored. *)
Definition keyHashAt (c : Cache) (key : Key) : option nat :=
  match keyHash c !! key with
  | Some (Some e) => Some e
  | _ => None
  end.

(** [l.Remove(e)]: removes [e] if it is an element of [l]. *)
Definition listRemove (e : nat) (q : list (nat * Key)) : list (nat * Key) :=
  filter (fun x => x.1 <> e) q.

(** [l.MoveToBack(e)]: nothing happens unless [e] is an element of [l]. *)
Definition listMoveToBack (e : nat) (q : list (nat * Key)) : list (nat * Key) :=
  match filter (fun x => x.1 = e) q with
  | x :: _ => listRemove e q ++ [x]
  | [] => q
  end.

(** The state outside the process and the globals of the process. *)
Record World : Type := mkWorld {
  dynamo : gmap Key (list Z);     (* the DynamoDB table: Name -> Value *)
  bucket : gmap Key (list Z);     (* the S3 bucket *)
  cache : Cache;                  (* var cache *Cache *)
  dataStream : IntStream;         (* var dataStream *IntStream *)
  clock : Z;                      (* what time.Now().Unix() reads *)
  s3Deletes : list Key;           (* the DeleteObject requests sent, latest first *)
}.

Definition setDynamo (w : World) (d : gmap Key (list Z)) : World :=
  mkWorld d (bucket w) (cache w) (dataStream w) (clock w) (s3Deletes w).
Definition setBucket (w : World) (b : gmap Key (list Z)) : World :=
  mkWorld (dynamo w) b (cache w) (dataStream w) (clock w) (s3Deletes w).
Definition setCache (w : World) (c : Cache) : World :=
  mkWorld (dynamo w) (bucket w) c (dataStream w) (clock w) (s3Deletes w).
Definition setDataStream (w : World) (s : IntStream) : World :=
  mkWorld (dynamo w) (bucket w) (cache w) s (clock w) (s3Deletes w).
Definition logS3Delete (w : World) (k : Key) : World :=
  mkWorld (dynamo w) (bucket w) (cache w) (dataStream w) (clock w) (k :: s3Deletes w).

(** *** The monad of the process: state and outcomes *)

Definition M (A : Type) : Type := World -> Outcome (A * World).

Definition ret {A} (a : A) : M A := fun w => Ok (a, w).
Definition bind {A B} (m : M A) (f : A -> M B) : M B :=
  fun w => match m w with
           | Ok (a, w') => f a w'
           | Panic => Panic
           | Exit c => Exit c
           end.
Definition lift {A} (o : Outcome A) : M A :=
  fun w => match o with
           | Ok a => Ok (a, w)
           | Panic => Panic
           | Exit c => Exit c
           end.
Definition panic {A} : M A := fun _ => Panic.
Definition get : M World := fun w => Ok (w, w).
Definition modify (f : World -> World) : M unit := fun w => Ok (tt, f w).

Notation "x <- m ;; k" := (bind m (fun x => k))
  (at level 100, m at next level, right associativity).
Notation "m ;;; k" := (bind m (fun _ => k))
  (at level 100, right associativity).

(** A [for j = 0; cond; j = j + step] loop run for at most [count]
    rounds.  [cond] is the part of the loop condition that depends on the
    loop's variables: once it is false the loop is left. *)
Definition loopStep {S} (step : Z) (cond : S -> bool) (body : Z -> S -> M S)
    (st : Z * Outcome (S * World)) : Z * Outcome (S * World) :=
  match st with
  | (j, Ok (s, w)) => if cond s then (j + step, body j s w) else st
  | _ => st
  end.

Definition forLoop {S} (count : N) (step : Z) (cond : S -> bool)
    (body : Z -> S -> M S) (s : S) : M S :=
  fun w => (N.iter count (loopStep step cond body) (0, Ok (s, w))).2.

Definition always {S} : S -> bool := fun _ => true.

(** *** The methods of [*Cache] *)
Module CacheM.

Definition remove (e : nat) (c : Cache) : Cache :=
  mkCache (cacheCapacity c) (listRemove e (recentlyUsedQueue c)) (keyHash c)
          (nextElement c).
Definition moveToBack (e : nat) (c : Cache) : Cache :=
  mkCache (cacheCapacity c) (listMoveToBack e (recentlyUsedQueue c)) (keyHash c)
          (nextElement c).
Definition setKeyHash (key : Key) (e : option nat) (c : Cache) : Cache :=
  mkCache (cacheCapacity c) (recentlyUsedQueue c) (<[key := e]> (keyHash c))
          (nextElement c).
(** [newElt := PushBack(key); keyHash[key] = newElt] *)
Definition pushBack (key : Key) (c : Cache) : Cache :=
  mkCache (cacheCapacity c) (recentlyUsedQueue c ++ [(nextElement c, key)])
          (<[key := Some (nextElement c)]> (keyHash c)) (S (nextElement c)).

(** [func (c *Cache) evictBlock(key string) error]: DeleteItem returning
    the old item, then PutObject.  When the item is absent the error
    branch calls [err.Error()] on a nil error. *)
Definition evictBlock (key : Key) : M (option error) :=
  w <- get ;;
  modify (fun w => setDynamo w (delete key (dynamo w))) ;;;
  match dynamo w !! key with
  | None => panic
  | Some data =>
      modify (fun w => setBucket w (<[key := data]> (bucket w))) ;;;
      ret None
  end.

(** [func (c *Cache) addBlock(data *DataBlock, key string) error] *)
Definition addBlock (data : DataBlock) (key : Key) : M (option error) :=
  modify (fun w => setDynamo w (<[key := data]> (dynamo w))) ;;;
  w <- get ;;
  match keyHashAt (cache w) key with
  | None =>
      (if len (recentlyUsedQueue (cache w)) =? cacheCapacity (cache w) then
         match recentlyUsedQueue (cache w) with
         | [] => panic                       (* Remove(nil) *)
         | (evictElt, evictKey) :: _ =>
             modify (fun w => setCache w
                       (setKeyHash evictKey None (remove evictElt (cache w)))) ;;;
             _ <- evictBlock evictKey ;;
             ret tt
         end
       else ret tt) ;;;
      modify (fun w => setCache w (pushBack key (cache w))) ;;;
      ret None
  | Some elt =>
      modify (fun w => setCache w (moveToBack elt (cache w))) ;;;
      ret None
  end.

(** [func (c *Cache) deleteBlock(key string) error] *)
Definition deleteBlock (key : Key) : M (option error) :=
  w <- get ;;
  match keyHashAt (cache w) key with
  | None => ret (Some ErrCacheRemove)
  | Some elt =>
      modify (fun w => setCache w (setKeyHash key None (remove elt (cache w)))) ;;;
      modify (fun w => setDynamo w (delete key (dynamo w))) ;;;
      ret None
  end.

(** [func (c *Cache) getBlock(key string) ([]byte, error)] *)
Definition getBlock (key : Key) : M (list Z * option error) :=
  w <- get ;;
  match keyHashAt (cache w) key with
  | None => ret ([], Some ErrCacheMiss)
  | Some elt =>
      match dynamo w !! key with
      | None => ret ([], Some ErrCacheHitFailed)
      | Some value =>
          modify (fun w => setCache w (moveToBack elt (cache w))) ;;;
          ret (value, None)
      end
  end.

(** [func (c *Cache) empty() error] *)
Fixpoint emptyFrom (q : list (nat * Key)) : M (option error) :=
  match q with
  | [] => ret None
  | e :: q' =>
      err <- evictBlock e.2 ;;
      match err with
      | Some _ => ret err
      | None => emptyFrom q'
      end
  end.
Definition empty : M (option error) :=
  w <- get ;; emptyFrom (recentlyUsedQueue (cache w)).

(** [initializeCache(cacheSize)], the table being ready. *)
Definition initializeCache (cacheSize : Z) : Cache := mkCache cacheSize [] ∅ 0.

End CacheM.

(** *** The block store interface (unnamed/part_002) *)

(** [func putDataByKey(client, key, data) error] *)
Definition putDataByKey (key : Key) (data : DataBlock) : M (option error) :=
  err <- CacheM.addBlock data key ;;
  match err with
  | Some _ => ret err
  | None => ret None
  end.

(** [func getDataByKey(client, key) ( *DataBlock, error)]: the cache first,
    then the bucket; a bucket hit is put into the cache. *)
Definition getDataByKey (key : Key) : M (DataBlock * option error) :=
  r <- CacheM.getBlock key ;;
  match r.2 with
  | Some _ =>
      w <- get ;;
      match bucket w !! key with
      | Some body =>
          if len body <? BLOCK_SIZE then ret (newDataBlock, Some ErrShortRead)
          else
            let data := take (Z.to_nat BLOCK_SIZE) body in
            _ <- CacheM.addBlock data key ;;
            ret (data, None)
      | None => ret (newDataBlock, Some ErrNoSuchKey)
      end
  | None =>
      data <- lift (goCopy newDataBlock 0 BLOCK_SIZE r.1 0 (len r.1)) ;;
      ret (data, None)
  end.

Definition getData (dataNum : Z) : M (DataBlock * option error) :=
  getDataByKey (genDataKey dataNum).
Definition getInodeBlock (inodeNum : Z) : M (DataBlock * option error) :=
  getDataByKey (genInodeBlockKey inodeNum).
Definition putData (dataNum : Z) (data : DataBlock) : M (option error) :=
  putDataByKey (genDataKey dataNum) data.
Definition putInodeBlock (inodeNum : Z) (inodeBlock : DataBlock) : M (option error) :=
  putDataByKey (genInodeBlockKey inodeNum) inodeBlock.

(** [func deleteBlock(dataNum uint64) error]: from the cache and from the
    bucket; an error only when both fail.  DeleteObject succeeds whether
    or not the key exists. *)
Definition deleteBlock (dataNum : Z) : M (option error) :=
  let key := genDataKey dataNum in
  cacheErr <- CacheM.deleteBlock key ;;
  modify (fun w => logS3Delete (setBucket w (delete key (bucket w))) key) ;;;
  let err : option error := None in
  match err, cacheErr with
  | Some _, Some _ => ret (Some ErrDeleteBoth)
  | _, _ => ret None
  end.

(** [dataStream.next()] on the global stream. *)
Definition dataStreamNext : M Z :=
  w <- get ;;
  let r := next (dataStream w) in
  modify (fun w => setDataStream w r.2) ;;;
  ret r.1.

(** ** The inode (unnamed/part_001) *)

Definition NUM_DATA_BLOCKS : Z := 12.
Definition INODE_WITHOUT_BUFFER_SIZE : Z := 139.
Definition INODE_BUFFER_SIZE : Z := INODE_SIZE - INODE_WITHOUT_BUFFER_SIZE.
Definition FIRST_DATA_BLOCK_BYTE : Z := INODE_BUFFER_SIZE.
Definition FIRST_SINGLY_INDIRECT_BYTE : Z :=
  FIRST_DATA_BLOCK_BYTE + NUM_DATA_BLOCKS * BLOCK_SIZE.
Definition FIRST_DOUBLY_INDIRECT_BYTE : Z :=
  FIRST_SINGLY_INDIRECT_BYTE + BLOCK_SIZE * BLOCK_SIZE.
Definition FIRST_TRIPLY_INDIRECT_BYTE : Z :=
  FIRST_DOUBLY_INDIRECT_BYTE + BLOCK_SIZE * BLOCK_SIZE * BLOCK_SIZE.
Definition IND_BLOCK : Z := NUM_DATA_BLOCKS.
Definition IND_BLOCK_SIZE : Z := BLOCK_SIZE * BLOCK_SIZE.
Definition DOUB_IND_BLOCK : Z := NUM_DATA_BLOCKS + 1.
Definition DOUB_IND_BLOCK_SIZE : Z := BLOCK_SIZE * BLOCK_SIZE * BLOCK_SIZE.
Definition TRIP_IND_BLOCK : Z := NUM_DATA_BLOCKS + 2.

(** [type Inode struct]: [Size uint64], [LinkCount uint16],
    [UnixTime int64], [IsDir int8], [DataBuf [INODE_BUFFER_SIZE]byte],
    [Data [NUM_DATA_BLOCKS + 3]uint64]. *)
Record Inode : Type := mkInode {
  Size : Z;
  LinkCount : Z;
  UnixTime : Z;
  IsDir : Z;
  DataBuf : list Z;
  Data : list Z;
}.

Definition setSize (i : Inode) (v : Z) : Inode :=
  mkInode v (LinkCount i) (UnixTime i) (IsDir i) (DataBuf i) (Data i).
Definition setLinkCount (i : Inode) (v : Z) : Inode :=
  mkInode (Size i) v (UnixTime i) (IsDir i) (DataBuf i) (Data i).
Definition setUnixTime (i : Inode) (v : Z) : Inode :=
  mkInode (Size i) (LinkCount i) v (IsDir i) (DataBuf i) (Data i).
Definition setDataBuf (i : Inode) (v : list Z) : Inode :=
  mkInode (Size i) (LinkCount i) (UnixTime i) (IsDir i) v (Data i).
(** [i.Data[j]] and [i.Data[j] = v], [j] being below 15 at every use. *)
Definition dataAt (i : Inode) (j : Z) : Z := nth (Z.to_nat j) (Data i) 0.
Definition setDataAt (i : Inode) (j : Z) (v : Z) : Inode :=
  mkInode (Size i) (LinkCount i) (UnixTime i) (IsDir i) (DataBuf i)
          (<[Z.to_nat j := v]> (Data i)).

(** [new(Inode)] *)
Definition zeroInode : Inode :=
  mkInode 0 0 0 0 (makeBytes INODE_BUFFER_SIZE) (replicate 15 0).

(** [binary.Write(buf, binary.LittleEndian, *inode)] *)
Definition encodeInode (i : Inode) : list Z :=
  le_bytes 8 (Size i) ++ le_bytes 2 (LinkCount i)
    ++ le_bytes 8 (wrap64 (UnixTime i)) ++ le_bytes 1 (IsDir i mod 256)
    ++ DataBuf i ++ concat (map (le_bytes 8) (Data i)).

(** [binary.Read(reader, binary.LittleEndian, inode)] on [INODE_SIZE] bytes *)
Definition decodeInode (bs : list Z) : Inode :=
  mkInode (le_value (take 8 bs))
          (le_value (take 2 (drop 8 bs)))
          (to_signed 64 (le_value (take 8 (drop 10 bs))))
          (to_signed 8 (le_value (take 1 (drop 18 bs))))
          (take (Z.to_nat INODE_BUFFER_SIZE) (drop 19 bs))
          (map (fun k => le_value (take 8 (drop (392 + 8 * k) bs))) (seq 0 15)).

(** [func (i *Inode) updateSize(size uint64)] *)
Definition updateSize (i : Inode) (size : Z) : M Inode :=
  w <- get ;;
  ret (setUnixTime (setSize i size) (clock w)).

(** [func createInode(isDir int8) *Inode] *)
Definition createInode (isDir : Z) : M Inode :=
  w <- get ;;
  ret (mkInode 0 0 (clock w) isDir (makeBytes INODE_BUFFER_SIZE) (replicate 15 0)).

(** [func getInode(inodeNum uint64) ( *Inode, error)] *)
Definition getInode (inodeNum : Z) : M (Inode * option error) :=
  r <- getInodeBlock inodeNum ;;
  let start := mul64 (inodeNum mod (BLOCK_SIZE / INODE_SIZE)) INODE_SIZE in
  let end_ := add64 start INODE_SIZE in
  inodeData <- lift (goSlice r.1 start end_) ;;
  match r.2 with
  | None => ret (decodeInode inodeData, None)
  | Some err => ret (zeroInode, Some err)
  end.

(** [func putInode(inode *Inode, inodeNum uint64) error].  The two
    [append]s write into the array of [inodeBlock] itself: the encoded
    inode lands at [start], the rest keeps its place. *)
Definition putInode (inode : Inode) (inodeNum : Z) : M (option error) :=
  r <- getInodeBlock inodeNum ;;
  let start := mul64 (inodeNum mod (BLOCK_SIZE / INODE_SIZE)) INODE_SIZE in
  let end_ := add64 start INODE_SIZE in
  let splice (inodeBlock : DataBlock) : M (option error) :=
    newData <- lift (goCopy inodeBlock start end_ (encodeInode inode) 0 INODE_SIZE) ;;
    putInodeBlock inodeNum newData in
  match r.2 with
  | Some err =>
      if negb (inodeNum mod (BLOCK_SIZE / INODE_SIZE) =? 0) && negb (inodeNum =? 1)
      then ret (Some err)
      else splice newDataBlock
  | None => splice r.1
  end.

(** *** Reading *)

(** [func (i *Inode) readBlock(data, offset, leftToRead, blockNum)] *)
Definition readBlock (data : list Z) (offset leftToRead blockNum : Z)
  : M (list Z * Z) :=
  r <- getData blockNum ;;
  let readEnd :=
    if add64 leftToRead offset >? BLOCK_SIZE then BLOCK_SIZE
    else add64 offset leftToRead in
  let readLen := sub64 readEnd offset in
  let dataStart := sub64 (len data) leftToRead in
  data' <- lift (goCopy data dataStart (add64 dataStart readLen) r.1 offset readEnd) ;;
  ret (data', sub64 leftToRead readLen).

(** The variables of a read loop: [data], [offset], [leftToRead]. *)
Definition ReadVars : Type := list Z * Z * Z.

(** The body shared by the read loops over the slots of an indirect block:
    [child] reads through the block a slot names, [span] is what one slot
    covers.  The slot is written back with the number just read, which
    leaves the block as it was. *)
Definition readSlot (child : list Z -> Z -> Z -> Z -> M (list Z * Z))
    (span : Z) (indBlock : DataBlock) (j : Z) (s : ReadVars) : M ReadVars :=
  let '(data, offset, leftToRead) := s in
  if (0 <? leftToRead) && (offset <? span) then
    blockAddress <- lift (goSlice indBlock j (j + 8)) ;;
    let blockNum := Uint64 blockAddress in
    r <- child data offset leftToRead blockNum ;;
    ret (r.1, 0, r.2)
  else ret (data, sub64 offset span, leftToRead).

(** [func (i *Inode) readIndirect(data, offset, leftToRead, indBlockNum)] *)
Definition readIndirect (data : list Z) (offset leftToRead indBlockNum : Z)
  : M (list Z * Z) :=
  r <- getData indBlockNum ;;
  s <- forLoop (Z.to_N (BLOCK_SIZE / 8)) 8 always
         (readSlot readBlock BLOCK_SIZE r.1) (data, offset, leftToRead) ;;
  ret (s.1.1, s.2).

(** [func (i *Inode) readDoubIndirect(...)] *)
Definition readDoubIndirect (data : list Z) (offset leftToRead indBlockNum : Z)
  : M (list Z * Z) :=
  r <- getData indBlockNum ;;
  s <- forLoop (Z.to_N (BLOCK_SIZE / 8)) 8 always
         (readSlot readIndirect IND_BLOCK_SIZE r.1) (data, offset, leftToRead) ;;
  ret (s.1.1, s.2).

(** [func (i *Inode) readTripIndirect(...)] *)
Definition readTripIndirect (data : list Z) (offset leftToRead indBlockNum : Z)
  : M (list Z * Z) :=
  r <- getData indBlockNum ;;
  s <- forLoop (Z.to_N (BLOCK_SIZE / 8)) 8 always
         (readSlot readDoubIndirect DOUB_IND_BLOCK_SIZE r.1) (data, offset, leftToRead) ;;
  ret (s.1.1, s.2).

(** [func (i *Inode) readDataBlocks(data, offset, leftToRead) []byte] *)
Definition readDataBlocks (i : Inode) (data : list Z) (offset leftToRead : Z)
  : M (list Z) :=
  s <- forLoop (Z.to_N NUM_DATA_BLOCKS) 1 always
         (fun j (s : ReadVars) =>
            let '(data, offset, leftToRead) := s in
            if (0 <? leftToRead) && (offset <? BLOCK_SIZE) then
              r <- readBlock data offset leftToRead (dataAt i j) ;;
              ret (r.1, 0, r.2)
            else ret (data, sub64 offset BLOCK_SIZE, leftToRead))
         (data, offset, leftToRead) ;;
  let '(data, offset, leftToRead) := s in
  s <- (if (0 <? leftToRead) && (offset <? FIRST_DOUBLY_INDIRECT_BYTE) then
          r <- readIndirect data offset leftToRead (dataAt i IND_BLOCK) ;;
          ret (r.1, 0, r.2)
        else ret (data, sub64 offset (BLOCK_SIZE * BLOCK_SIZE), leftToRead)) ;;
  let '(data, offset, leftToRead) := s in
  s <- (if (0 <? leftToRead) && (offset <? FIRST_TRIPLY_INDIRECT_BYTE) then
          r <- readDoubIndirect data offset leftToRead (dataAt i DOUB_IND_BLOCK) ;;
          ret (r.1, 0, r.2)
        else ret (data, sub64 offset (BLOCK_SIZE * BLOCK_SIZE * BLOCK_SIZE),
                  leftToRead)) ;;
  let '(data, offset, leftToRead) := s in
  r <- (if 0 <? leftToRead then
          readTripIndirect data offset leftToRead (dataAt i TRIP_IND_BLOCK)
        else ret (data, leftToRead)) ;;
  ret r.1.

(** [func (i *Inode) readFromData(offset, size uint64) ([]byte, error)] *)
Definition readFromData (i : Inode) (offset size : Z)
  : M (list Z * option error) :=
  if offset >=? Size i then ret ([], Some ErrOffsetPastEnd)
  else
    let data := makeBytes size in
    let leftToRead := size in
    s <- (if offset <? INODE_BUFFER_SIZE then
            let readEnd :=
              if add64 leftToRead offset <? INODE_BUFFER_SIZE
              then add64 leftToRead offset else INODE_BUFFER_SIZE in
            let readLen := sub64 readEnd offset in
            data' <- lift (goCopy data 0 readLen (DataBuf i) offset readEnd) ;;
            ret (data', 0, sub64 leftToRead readLen)
          else ret (data, offset, leftToRead)) ;;
    let '(data, offset, leftToRead) := s in
    data <- (if 0 <? leftToRead then readDataBlocks i data offset leftToRead
             else ret data) ;;
    ret (data, None).

(** *** Writing *)

(** [func (i *Inode) writeBlock(data, offset, blockNum) (uint64, []byte)] *)
Definition writeBlock (data : list Z) (offset blockNum : Z) : M (Z * list Z) :=
  r <- getData blockNum ;;
  ob <- match r.2 with
        | Some _ => n <- dataStreamNext ;; ret (newDataBlock, n)
        | None => ret (r.1, blockNum)
        end ;;
  let '(oldData, blockNum) := ob in
  let size := len data in
  let writeEnd :=
    if add64 offset size >? BLOCK_SIZE then BLOCK_SIZE else add64 offset size in
  let writeLen := sub64 writeEnd offset in
  oldData' <- lift (goCopy oldData offset writeEnd data 0 writeLen) ;;
  _ <- putData blockNum oldData' ;;
  rest <- lift (goSliceFrom data writeLen) ;;
  ret (blockNum, rest).

(** The variables of a write loop over an indirect block: [data],
    [offset] and the indirect block being filled. *)
Definition WriteVars : Type := list Z * Z * DataBlock.

(** The body shared by the write loops over the slots of an indirect read
    from slot [j]: the child is written, its number is stored back. *)
Definition writeSlot (child : list Z -> Z -> Z -> M (Z * list Z))
    (span : Z) (j : Z) (s : WriteVars) : M WriteVars :=
  let '(data, offset, indBlock) := s in
  if (offset <? span) && (0 <? len data) then
    blockAddress <- lift (goSlice indBlock j (j + 8)) ;;
    let blockNum := Uint64 blockAddress in
    r <- child data offset blockNum ;;
    indBlock' <- lift (goCopy indBlock j (j + 8) (PutUint64 r.1) 0 8) ;;
    ret (r.2, 0, indBlock')
  else ret (data, sub64 offset span, indBlock).

(** What the three indirect writers share: fetch the block or take a new
    one with a fresh number, run the loop over [rounds] slots, put the
    block back. *)
Definition writeThrough (child : list Z -> Z -> Z -> M (Z * list Z))
    (span : Z) (rounds : N) (data : list Z) (offset indBlockNum : Z)
  : M (Z * list Z) :=
  r <- getData indBlockNum ;;
  ob <- match r.2 with
        | Some _ => n <- dataStreamNext ;; ret (newDataBlock, n)
        | None => ret (r.1, indBlockNum)
        end ;;
  let '(indBlock, indBlockNum) := ob in
  s <- forLoop rounds 8 always (writeSlot child span) (data, offset, indBlock) ;;
  let '(data, _, indBlock) := s in
  _ <- putData indBlockNum indBlock ;;
  ret (indBlockNum, data).

(** [func (i *Inode) writeIndirect(data, offset, indBlockNum)] *)
Definition writeIndirect : list Z -> Z -> Z -> M (Z * list Z) :=
  writeThrough writeBlock BLOCK_SIZE (Z.to_N (BLOCK_SIZE / 8)).

(** [func (i *Inode) writeDoubIndirect(data, offset, doubBlockNum)] *)
Definition writeDoubIndirect : list Z -> Z -> Z -> M (Z * list Z) :=
  writeThrough writeIndirect IND_BLOCK_SIZE (Z.to_N (BLOCK_SIZE / 8)).

(** [func (i *Inode) writeTripIndirect(data, offset, tripBlockNum)]: the
    loop of the source runs while [j < DOUB_IND_BLOCK_SIZE]. *)
Definition writeTripIndirect : list Z -> Z -> Z -> M (Z * list Z) :=
  writeThrough writeDoubIndirect DOUB_IND_BLOCK_SIZE
               (Z.to_N (DOUB_IND_BLOCK_SIZE / 8)).

(** [func (i *Inode) writeDataBlocks(data []byte, offset uint64)] *)
Definition writeDataBlocks (i : Inode) (data : list Z) (offset : Z) : M Inode :=
  s <- forLoop (Z.to_N NUM_DATA_BLOCKS) 1 always
         (fun j (s : Inode * list Z * Z) =>
            let '(i, data, offset) := s in
            if (offset <? BLOCK_SIZE) && (0 <? len data) then
              r <- writeBlock data offset (dataAt i j) ;;
              ret (setDataAt i j r.1, r.2, 0)
            else ret (i, data, sub64 offset BLOCK_SIZE))
         (i, data, offset) ;;
  let '(i, data, offset) := s in
  s <- (if (0 <? len data) && (offset <? FIRST_DOUBLY_INDIRECT_BYTE) then
          r <- writeIndirect data offset (dataAt i IND_BLOCK) ;;
          ret (setDataAt i IND_BLOCK r.1, r.2, 0)
        else ret (i, data, sub64 offset (BLOCK_SIZE * BLOCK_SIZE))) ;;
  let '(i, data, offset) := s in
  s <- (if (0 <? len data) && (offset <? FIRST_TRIPLY_INDIRECT_BYTE) then
          r <- writeDoubIndirect data offset (dataAt i DOUB_IND_BLOCK) ;;
          ret (setDataAt i DOUB_IND_BLOCK r.1, r.2, 0)
        else ret (i, data, sub64 offset (BLOCK_SIZE * BLOCK_SIZE * BLOCK_SIZE))) ;;
  let '(i, data, offset) := s in
  if 0 <? len data then
    r <- writeTripIndirect data offset (dataAt i TRIP_IND_BLOCK) ;;
    ret (setDataAt i TRIP_IND_BLOCK r.1)
  else ret i.

(** [func (i *Inode) writeToData(data []byte, offset uint64)] *)
Definition writeToData (i : Inode) (data : list Z) (offset : Z) : M Inode :=
  let size := len data in
  i <- updateSize i (add64 size offset) ;;
  s <- (if offset <? INODE_BUFFER_SIZE then
          let writeEnd :=
            if sub64 size offset <? INODE_BUFFER_SIZE
            then sub64 size offset else INODE_BUFFER_SIZE in
          let writeLen := sub64 writeEnd offset in
          buf <- lift (goCopy (DataBuf i) offset writeEnd data 0 writeLen) ;;
          data' <- lift (goSliceFrom data writeLen) ;;
          ret (setDataBuf i buf, data')
        else ret (i, data)) ;;
  let '(i, data) := s in
  if 0 <? len data then
    let newOffset :=
      if offset <? INODE_BUFFER_SIZE then 0 else sub64 offset INODE_BUFFER_SIZE in
    writeDataBlocks i data newOffset
  else ret i.

(** *** Deleting *)

(** The variables of a delete loop: the blocks still to delete and the
    error that ended the loop, if any. *)
Definition DeleteVars : Type := Z * option error.

Definition deleting (s : DeleteVars) : bool :=
  (0 <? s.1) && bool_decide (s.2 = None).

(** [func (i *Inode) deleteIndirect(numBlocks, indBlockNum) (uint64, error)] *)
Definition deleteIndirect (numBlocks indBlockNum : Z) : M (Z * option error) :=
  r <- getData indBlockNum ;;
  s <- forLoop (Z.to_N (BLOCK_SIZE / 8)) 8 deleting
         (fun j (s : DeleteVars) =>
            blockAddress <- lift (goSlice r.1 j (j + 8)) ;;
            err <- deleteBlock (Uint64 blockAddress) ;;
            match err with
            | Some _ => ret (s.1, err)
            | None => ret (sub64 s.1 1, None)
            end)
         (numBlocks, None) ;;
  match s.2 with
  | Some err => ret (0, Some err)
  | None =>
      err <- deleteBlock indBlockNum ;;
      match err with
      | Some _ => ret (0, err)
      | None => ret (s.1, None)
      end
  end.

(** What [deleteDoubIndirect] and [deleteTripIndirect] share. *)
Definition deleteThrough (child : Z -> Z -> M (Z * option error))
    (numBlocks indBlockNum : Z) : M (Z * option error) :=
  r <- getData indBlockNum ;;
  s <- forLoop (Z.to_N (BLOCK_SIZE / 8)) 8 deleting
         (fun j (s : DeleteVars) =>
            blockAddress <- lift (goSlice r.1 j (j + 8)) ;;
            child s.1 (Uint64 blockAddress))
         (numBlocks, None) ;;
  match s.2 with
  | Some err => ret (0, Some err)
  | None =>
      err <- deleteBlock indBlockNum ;;
      match err with
      | Some _ => ret (0, err)
      | None => ret (s.1, None)
      end
  end.

(** [func (i *Inode) deleteDoubIndirect(numBlocks, indBlockNum)] *)
Definition deleteDoubIndirect : Z -> Z -> M (Z * option error) :=
  deleteThrough deleteIndirect.

(** [func (i *Inode) deleteTripIndirect(numBlocks, indBlockNum)] *)
Definition deleteTripIndirect : Z -> Z -> M (Z * option error) :=
  deleteThrough deleteDoubIndirect.

(** The count [deleteAllData] starts from. *)
Definition numBlocksToDelete (i : Inode) : Z :=
  if Size i <=? INODE_BUFFER_SIZE then 0
  else add64 (sub64 (Size i) INODE_BUFFER_SIZE / BLOCK_SIZE) 1.

(** One level of [deleteAllData]: entered when blocks remain and no error
    was returned. *)
Definition deleteLevel (level : Z -> Z -> M (Z * option error)) (blockNum : Z)
    (s : DeleteVars) : M DeleteVars :=
  if deleting s then level s.1 blockNum else ret s.

(** [func (i *Inode) deleteAllData() error] *)
Definition deleteAllData (i : Inode) : M (option error) :=
  s <- forLoop (Z.to_N NUM_DATA_BLOCKS) 1 deleting
         (fun j (s : DeleteVars) =>
            err <- deleteBlock (dataAt i j) ;;
            match err with
            | Some _ => ret (s.1, err)
            | None => ret (sub64 s.1 1, None)
            end)
         (numBlocksToDelete i, None) ;;
  s <- deleteLevel deleteIndirect (dataAt i IND_BLOCK) s ;;
  s <- deleteLevel deleteDoubIndirect (dataAt i DOUB_IND_BLOCK) s ;;
  s <- deleteLevel deleteTripIndirect (dataAt i TRIP_IND_BLOCK) s ;;
  match s.2 with
  | Some err => ret (Some err)
  | None => if 0 <? s.1 then ret (Some ErrDeleteTooLarge) else ret None
  end.

(** ** The directory table (unnamed/part_003):
    [type InodeTable struct { Table map[string]uint64 }] *)
Module InodeTable.

Definition init (parentInode selfInode : Z) : gmap string Z :=
  <["." := selfInode]> (<[".." := parentInode]> ∅).
Definition add (t : gmap string Z) (fileName : string) (inode : Z) : gmap string Z :=
  <[fileName := inode]> t.
Definition delete (t : gmap string Z) (fileName : string) : gmap string Z :=
  base.delete fileName t.
(** [i.Table[fileName]]: zero when the name is absent. *)
Definition at_ (t : gmap string Z) (fileName : string) : Z :=
  default 0 (t !! fileName).
(** [MarshalBinary]; the encoder's error is always nil here. *)
Definition MarshalBinary `{Gob} (t : gmap string Z) : list Z := gobEncodeTable t.
(** [UnmarshalBinary]: on an error the table stays the nil map. *)
Definition UnmarshalBinary `{Gob} (data : list Z) : gmap string Z * option error :=
  match gobDecodeTable data with
  | Some t => (t, None)
  | None => (∅, Some ErrGob)
  end.

End InodeTable.

(** [func (i *Inode) init(parentNum, thisNum uint64)] *)
Definition Inode_init `{Gob} (i : Inode) (parentNum thisNum : Z) : M Inode :=
  i <- (if IsDir i =? 1 then
          let tableData := InodeTable.MarshalBinary (InodeTable.init parentNum thisNum) in
          i <- writeToData i tableData 0 ;;
          updateSize i (len tableData)
        else ret i) ;;
  ret (setLinkCount i 1).

(** ** The directory node (dir.go) *)

Module fuse.
(** [fuse.RemoveRequest]: the name, and whether a directory is removed
    ([rmdir]) or a file ([unlink]). *)
Record RemoveRequest : Type := mkRemoveRequest {
  Name : string;
  Dir : bool;
}.
End fuse.

(** [type Dir struct]: [inode] and [inodeStream] are pointers; the record
    holds the values they point to, and an operation returns the record
    with the values it leaves there. *)
Record Dir : Type := mkDir {
  inode : Inode;
  inodeNum : Z;
  inodeStream : IntStream;
}.

(** [func getTable(inode *Inode) ( *InodeTable, error)] *)
Definition getTable `{Gob} (inode : Inode) : M (gmap string Z * option error) :=
  r <- readFromData inode 0 (Size inode) ;;
  ret ((InodeTable.UnmarshalBinary r.1).1, r.2).

(** [func (d *Dir) addFile(name string, inodeNum uint64)] *)
Definition addFile `{Gob} (d : Dir) (name : string) (newNum : Z) : M Dir :=
  r <- readFromData (inode d) 0 (Size (inode d)) ;;
  let table := (InodeTable.UnmarshalBinary r.1).1 in
  let data := InodeTable.MarshalBinary (InodeTable.add table name newNum) in
  i <- writeToData (inode d) data 0 ;;
  _ <- putInode i (inodeNum d) ;;
  ret (mkDir i (inodeNum d) (inodeStream d)).

(** [func (d *Dir) removeFile(name string) (uint64, error)] *)
Definition removeFile `{Gob} (d : Dir) (name : string) : M (Z * option error * Dir) :=
  r <- readFromData (inode d) 0 (Size (inode d)) ;;
  let table := (InodeTable.UnmarshalBinary r.1).1 in
  let num := InodeTable.at_ table name in
  if num =? 0 then ret (0, Some ENOENT, d)
  else
    let data := InodeTable.MarshalBinary (InodeTable.delete table name) in
    i <- writeToData (inode d) data 0 ;;
    _ <- putInode i (inodeNum d) ;;
    ret (num, None, mkDir i (inodeNum d) (inodeStream d)).

(** [func (d *Dir) Mkdir(ctx, req) (fs.Node, error)]: the directory with
    its new entry, the new node and the error of [putInode]. *)
Definition Mkdir `{Gob} (d : Dir) (name : string) : M (Dir * Dir * option error) :=
  i <- createInode 1 ;;
  let r := next (inodeStream d) in
  let d := mkDir (inode d) (inodeNum d) r.2 in
  i <- Inode_init i (inodeNum d) r.1 ;;
  err <- putInode i r.1 ;;
  d <- addFile d name r.1 ;;
  ret (d, mkDir i r.1 (inodeStream d), err).


(** [func (fh *FileHandle) Release(ctx, req) error] *)
Definition Release (fhInode : Inode) (fhInodeNum : Z) : M (option error) :=
  putInode fhInode fhInodeNum.

(** [func (d *Dir) Remove(ctx, req *fuse.RemoveRequest) error] *)
Definition Remove `{Gob} (d : Dir) (req : fuse.RemoveRequest)
  : M (option error * Dir) :=
  t <- getTable (inode d) ;;
  let num := InodeTable.at_ t.1 (fuse.Name req) in
  if num =? 0 then ret (Some ENOENT, d)
  else
    r <- getInode num ;;
    match r.2 with
    | Some err => ret (Some err, d)
    | None =>
        check <- (if fuse.Dir req && (IsDir r.1 =? 1) then
                    rt <- getTable r.1 ;;
                    match rt.2 with
                    | Some err => ret (Some err)
                    | None =>
                        if negb (Z.of_nat (size rt.1) =? 2)
                        then ret (Some ErrNotEmpty)
                        else ret None
                    end
                  else ret None) ;;
        match check with
        | Some err => ret (Some err, d)
        | None =>
            let i := setLinkCount r.1 (wrap16 (LinkCount r.1 - 1)) in
            freed <- (if LinkCount i =? 0 then
                        err <- deleteAllData i ;;
                        match err with
                        | Some _ => ret (err, d)
                        | None =>
                            ret (None, mkDir (inode d) (inodeNum d)
                                             (put (inodeStream d) num))
                        end
                      else ret (None, d)) ;;
            match freed.1 with
            | Some err => ret (Some err, d)
            | None =>
                _ <- putInode i num ;;
                rf <- removeFile freed.2 (fuse.Name req) ;;
                ret (rf.1.2, rf.2)
            end
        end
    end.

(** ** The filesystem root (unnamed/part_000) *)

Definition ROOT_INODE : Z := 1.

(** [type FS struct { inodeStream *IntStream; rootInode uint64 }] *)
Record FS : Type := mkFS {
  fsInodeStream : IntStream;
  rootInode : Z;
}.

(** [a[lo:hi]] of an array, both bounds constant and in range. *)
Definition arraySlice (a : list Z) (lo hi : nat) : list Z :=
  take (hi - lo) (drop lo a).

(** [func makeFs(super *DataBlock) *FS] *)
Definition makeFs `{Gob} (super : DataBlock) : M FS :=
  let root := Uint64 (arraySlice super 16 24) in
  let listSize := Uint64 (arraySlice super 24 32) in
  let stream := decompressStream (mkIntStream [] 0) (arraySlice super 0 8) in
  modify (fun w => setDataStream w
            (mkIntStream [] (lastInt (decompressStream (mkIntStream [] 0)
                                                       (arraySlice super 8 16))))) ;;;
  let readEnd :=
    if listSize <? BLOCK_SIZE - 32 then add64 listSize 32 else BLOCK_SIZE in
  listData <- lift (goCopy (makeBytes listSize) 0 (sub64 readEnd 32)
                           super 32 readEnd) ;;
  let listSize := sub64 listSize (sub64 readEnd 32) in
  let amountRead := readEnd in
  let numBlocksNeeded := add64 1 (listSize / BLOCK_SIZE) in
  s <- forLoop (Z.to_N (numBlocksNeeded - 1)) 1 always
         (fun j (s : list Z * Z * Z) =>
            let '(listData, listSize, amountRead) := s in
            r <- getDataByKey (SuperKey (j + 1)) ;;
            let readEnd := if listSize <? BLOCK_SIZE then listSize else BLOCK_SIZE in
            listData' <- lift (goCopy listData amountRead (add64 amountRead readEnd)
                                      r.1 0 readEnd) ;;
            ret (listData', sub64 listSize readEnd, add64 amountRead readEnd))
         (listData, listSize, amountRead) ;;
  let '(listData, listSize, _) := s in
  if 0 <? listSize then
    stream' <- lift (UnmarshalBinary stream listData) ;;
    ret (mkFS stream' root)
  else ret (mkFS (mkIntStream [] (lastInt stream)) root).

(** The loop of [makeSuperblocks] over the blocks after the first. *)
Fixpoint superblocksAfter (rounds : nat) (inodeListData : list Z)
  : Outcome (list DataBlock) :=
  match rounds with
  | O => Ok []
  | S rounds' =>
      let writeEnd :=
        if len inodeListData >? BLOCK_SIZE then BLOCK_SIZE else len inodeListData in
      obind (goCopy newDataBlock 0 writeEnd inodeListData 0 writeEnd) (fun block =>
      obind (goSliceFrom inodeListData writeEnd) (fun rest =>
      obind (superblocksAfter rounds' rest) (fun blocks =>
      Ok (block :: blocks))))
  end.

(** [func makeSuperblocks(inode, data [8]byte, root uint64,
    inodeListData []byte) []*DataBlock] *)
Definition makeSuperblocks (inode data : list Z) (root : Z) (inodeListData : list Z)
  : Outcome (list DataBlock) :=
  let inodeListSize := len inodeListData in
  let header :=
    take 8 inode ++ take 8 data ++ PutUint64 root ++ PutUint64 inodeListSize in
  let super := header ++ drop 32 newDataBlock in
  let writeEnd :=
    if add64 inodeListSize 32 >? BLOCK_SIZE then BLOCK_SIZE
    else add64 inodeListSize 32 in
  obind (goCopy super 32 writeEnd inodeListData 0 (sub64 writeEnd 32)) (fun super =>
  obind (goSliceFrom inodeListData (sub64 writeEnd 32)) (fun rest =>
  let numBlocksNeeded := add64 1 (len rest / BLOCK_SIZE) in
  obind (superblocksAfter (Z.to_nat (numBlocksNeeded - 1)) rest) (fun blocks =>
  Ok (super :: blocks)))).

(** The loop of [Destroy] that writes the superblocks under their names. *)
Fixpoint putSuperblocks (index : Z) (blocks : list DataBlock) : M unit :=
  match blocks with
  | [] => ret tt
  | block :: blocks' =>
      _ <- putDataByKey (SuperKey index) block ;;
      putSuperblocks (index + 1) blocks'
  end.

(** [func (f *FS) Destroy()] *)
Definition Destroy `{Gob} (f : FS) : M FS :=
  w <- get ;;
  let lastInode := compressStream (fsInodeStream f) in
  let lastData := compressStream (dataStream w) in
  let m := MarshalBinary (fsInodeStream f) in
  superBlocks <- lift (makeSuperblocks lastInode lastData (rootInode f) m.1) ;;
  putSuperblocks 0 superBlocks ;;;
  _ <- CacheM.empty ;;
  ret (mkFS m.2 (rootInode f)).

(** [func makeNewSuperblock() *DataBlock] *)
Definition makeNewSuperblock `{Gob} : M DataBlock :=
  tempFs <- makeFs newDataBlock ;;
  let stream := mkIntStream [] 1 in
  modify (fun w => setDataStream w (mkIntStream (stack (dataStream w)) 1)) ;;;
  w <- get ;;
  let lastInode := compressStream stream in
  let lastData := compressStream (dataStream w) in
  let m := MarshalBinary stream in
  blocks <- lift (makeSuperblocks lastInode lastData ROOT_INODE m.1) ;;
  match blocks with
  | super :: _ => ret super
  | [] => panic
  end.

(** The start of [mount]: fetch ["super0"] or make a new superblock, and
    build the filesystem from it. *)
Definition mount `{Gob} : M FS :=
  r <- getDataByKey (SuperKey 0) ;;
  super <- match r.2 with
           | Some _ => makeNewSuperblock
           | None => ret r.1
           end ;;
  makeFs super.

(** What [main] does once its arguments are read: a new process has a new
    cache, with the capacity given on the command line, and mounts. *)
Definition main `{Gob} (cacheSize : Z) : M FS :=
  modify (fun w => setCache w (CacheM.initializeCache cacheSize)) ;;;
  mount.

(** [func makeNewRootInode()] *)
Definition makeNewRootInode `{Gob} : M unit :=
  i <- createInode 1 ;;
  i <- Inode_init i ROOT_INODE ROOT_INODE ;;
  _ <- putInode i ROOT_INODE ;;
  ret tt.

(** ** Runs of cache operations

    What the claims about the cache speak of: a client running any
    sequence of the three operations on a cache. *)

(** The operations a client of the cache can run. *)
Inductive CacheOp : Type :=
| OpAddBlock (data : DataBlock) (key : Key)
| OpGetBlock (key : Key)
| OpDeleteBlock (key : Key).

Definition runCacheOp (op : CacheOp) : M unit :=
  match op with
  | OpAddBlock data key => _ <- CacheM.addBlock data key ;; ret tt
  | OpGetBlock key => _ <- CacheM.getBlock key ;; ret tt
  | OpDeleteBlock key => _ <- CacheM.deleteBlock key ;; ret tt
  end.

Fixpoint runCacheOps (ops : list CacheOp) : M unit :=
  match ops with
  | [] => ret tt
  | op :: ops' => runCacheOp op ;;; runCacheOps ops'
  end.

(** The keys the cache tracks, least recently used first. *)
Definition trackedKeys (c : Cache) : list Key := (recentlyUsedQueue c).*2.

(** What holds of the cache between two operations. *)
Record cache_inv (w : World) : Prop := {
  inv_elements : NoDup (recentlyUsedQueue (cache w)).*1;
  inv_keyHash : forall e k,
    (e, k) ∈ recentlyUsedQueue (cache w) <-> keyHash (cache w) !! k = Some (Some e);
  inv_capacity : len (recentlyUsedQueue (cache w)) <= cacheCapacity (cache w);
  inv_fresh : forall e k,
    (e, k) ∈ recentlyUsedQueue (cache w) -> (e < nextElement (cache w))%nat;
  inv_table : forall e k,
    (e, k) ∈ recentlyUsedQueue (cache w) -> is_Some (dynamo w !! k);
}.

(** ** Concrete states

    A world with empty stores, a cache of the given capacity and the data
    stream at 1, and what a run leaves. *)
Definition newWorld (cacheSize now : Z) : World :=
  mkWorld ∅ ∅ (CacheM.initializeCache cacheSize) (mkIntStream [] 1) now [].
Definition value {A} (o : Outcome (A * World)) : Outcome A :=
  match o with
  | Ok (a, _) => Ok a
  | Panic => Panic
  | Exit c => Exit c
  end.
Definition worldOf {A} (o : Outcome (A * World)) (w0 : World) : World :=
  match o with
  | Ok (_, w) => w
  | _ => w0
  end.
Definition inodeOf (o : Outcome (Inode * World)) : Inode :=
  match o with
  | Ok (i, _) => i
  | _ => zeroInode
  end.

(** The bytes 1..40. *)
Definition bytes40 : list Z := map Z.of_nat (seq 1 40).

(** The count of leaf blocks the specification gives for [deleteAllData]:
    the ceiling of [max(0, Size - INODE_BUFFER_SIZE) / BLOCK_SIZE]. *)
Definition specBlocksToDelete (size : Z) : Z :=
  (Z.max 0 (size - INODE_BUFFER_SIZE) + BLOCK_SIZE - 1) / BLOCK_SIZE.

(** A file whose content ends exactly at the end of its first data block. *)
Definition oneBlockFile : list Z :=
  replicate (Z.to_nat (INODE_BUFFER_SIZE + BLOCK_SIZE)) 7.

(** What [Destroy] writes and the next [mount] reads, without the cache
    flush in between: the superblocks of a stream state are made, put
    under their names, and the filesystem is built from the first. *)
Definition superblockRoundTrip `{Gob} (inodes data : IntStream) (root : Z) : M FS :=
  blocks <- lift (makeSuperblocks (compressStream inodes) (compressStream data)
                                  root (MarshalBinary inodes).1) ;;
  putSuperblocks 0 blocks ;;;
  match blocks with
  | super :: _ => makeFs super
  | [] => panic
  end.

(** ** Directory entries

    The entry [name] of a directory as [Remove] looks it up: the number
    the table gives, and the inode stored under that number with the
    error of fetching it. *)
Definition entryOf `{Gob} (d : Dir) (name : string) : M (Z * Inode * option error) :=
  t <- getTable (inode d) ;;
  r <- getInode (InodeTable.at_ t.1 name) ;;
  ret (InodeTable.at_ t.1 name, r.1, r.2).

(** The entry, and the table read from its inode. *)
Definition entryTableOf `{Gob} (d : Dir) (name : string)
  : M (Z * Inode * option error * (gmap string Z * option error)) :=
  e <- entryOf d name ;;
  rt <- getTable e.1.2 ;;
  ret (e, rt).

(** A root directory holding the empty directory ["x"] (inode 2), and
    one where ["x"] itself holds a directory ["y"] (inode 3). *)
Definition rootWithDir `{Gob} : M Dir :=
  makeNewRootInode ;;;
  r <- getInode ROOT_INODE ;;
  r <- Mkdir (mkDir r.1 ROOT_INODE (mkIntStream [] 1)) "x" ;;
  ret r.1.1.

Definition rootWithNestedDir `{Gob} : M Dir :=
  makeNewRootInode ;;;
  r <- getInode ROOT_INODE ;;
  r <- Mkdir (mkDir r.1 ROOT_INODE (mkIntStream [] 1)) "x" ;;
  r2 <- Mkdir r.1.2 "y" ;;
  ret (mkDir (inode r.1.1) (inodeNum r.1.1) (inodeStream r2.1.1)).

(** What a run returns, with a default for a run that does not return. *)
Definition outOf {A} (o : Outcome (A * World)) (default : A) : A :=
  match o with
  | Ok (a, _) => a
  | _ => default
  end.

(** ** The block store as a map

    What the store holds under a key, as [getDataByKey] finds it: the
    item of the table when the cache tracks the key and the table has it,
    the object of the bucket otherwise. *)
Definition lookupBlock (w : World) (key : Key) : option (list Z) :=
  match keyHashAt (cache w) key, dynamo w !! key with
  | Some _, Some v => Some v
  | _, _ => bucket w !! key
  end.

(** The operations of the block store interface. *)
Inductive StoreOp : Type :=
| StPut (key : Key) (data : DataBlock)
| StGet (key : Key)
| StDelete (dataNum : Z).

Definition runStoreOp (op : StoreOp) : M unit :=
  match op with
  | StPut key data => _ <- putDataByKey key data ;; ret tt
  | StGet key => _ <- getDataByKey key ;; ret tt
  | StDelete dataNum => _ <- deleteBlock dataNum ;; ret tt
  end.

Fixpoint runStoreOps (ops : list StoreOp) : M unit :=
  match ops with
  | [] => ret tt
  | op :: ops' => runStoreOp op ;;; runStoreOps ops'
  end.

(** The same operations on one finite map, without cache or bucket. *)
Definition storeModelStep (m : gmap Key (list Z)) (op : StoreOp) : gmap Key (list Z) :=
  match op with
  | StPut key data => <[key := data]> m
  | StGet _ => m
  | StDelete dataNum => delete (genDataKey dataNum) m
  end.

Definition storeModel (ops : list StoreOp) (m : gmap Key (list Z)) : gmap Key (list Z) :=
  fold_left storeModelStep ops m.

(** A [DataBlock] is an array of [BLOCK_SIZE] bytes. *)
Definition sizedOp (op : StoreOp) : Prop :=
  match op with
  | StPut _ data => len data = BLOCK_SIZE
  | _ => True
  end.

(** What holds of the store between two operations. *)
Record store_inv (w : World) : Prop := {
  st_cache : cache_inv w;
  st_capacity : 0 < cacheCapacity (cache w);
  st_sized : forall k v, lookupBlock w k = Some v -> len v = BLOCK_SIZE;
}.

(** ** Inodes as the Go types hold them

    The ranges of [uint64], [uint16], [int64] and [int8] and the lengths
    of the two arrays of [type Inode]. *)
Record inode_wf (i : Inode) : Prop := {
  wf_Size : is_u64 (Size i);
  wf_LinkCount : 0 <= LinkCount i < 2 ^ 16;
  wf_UnixTime : - 2 ^ 63 <= UnixTime i < 2 ^ 63;
  wf_IsDir : - 128 <= IsDir i < 128;
  wf_DataBuf : len (DataBuf i) = INODE_BUFFER_SIZE;
  wf_Data_len : len (Data i) = 15;
  wf_Data : Forall is_u64 (Data i);
}.

(** An inode with a negative time and flag, for examples. *)
Definition sampleInode : Inode :=
  mkInode 1000 2 (-5) (-1) (makeBytes INODE_BUFFER_SIZE) (replicate 15 7).

(** ** Streams whose numbers are in use at most once

    The free-stack holds no number twice, and only numbers the counter
    has passed. *)
Record stream_wf (s : IntStream) : Prop := {
  sw_last : 0 <= lastInt s;
  sw_NoDup : NoDup (stack s);
  sw_below : Forall (fun x => x <= lastInt s) (stack s);
}.

(** ** Computations that keep the store

    [keeps Q m]: from a store that satisfies [store_inv], [m] returns
    (it neither panics nor exits), its result satisfies [Q], the store
    satisfies [store_inv] again and the global [dataStream] is as it
    was. *)
Definition keeps {A} (Q : A -> Prop) (m : M A) : Prop :=
  forall w, store_inv w ->
    exists a w', m w = Ok (a, w') /\ Q a /\ store_inv w' /\ dataStream w' = dataStream w.

(** ** The blocks of a content

    What [writeBlock] stores for the [j]-th block of [data]: the bytes of
    the block over a new block. *)
Definition blockOf (data : list Z) (j : Z) : list Z :=
  let dj := drop (Z.to_nat (j * BLOCK_SIZE)) data in
  take (Z.to_nat (Z.min (len dj) BLOCK_SIZE)) dj
    ++ drop (Z.to_nat (Z.min (len dj) BLOCK_SIZE)) newDataBlock.

(** The entries of [Data] after [c] new blocks were taken from a stream
    that stood at [n]. *)
Definition dataEntries (n c : Z) : list Z :=
  map (fun j : nat => n + 1 + Z.of_nat j) (seq 0 (Z.to_nat c))
    ++ replicate (15 - Z.to_nat c) 0.

(** A content that fills the inode buffer, one block and five bytes of a
    second block. *)
Definition twoBlockContent : list Z :=
  replicate (Z.to_nat (INODE_BUFFER_SIZE + BLOCK_SIZE + 5)) 7.

(** A root directory with the table [InodeTable.init] gives it, encoded
    in gob's wire format, in its buffer. *)
Definition sampleTable : list Z := GobWire.encodeTable (InodeTable.init 1 1).
Definition sampleDir : Dir :=
  mkDir (mkInode (len sampleTable) 1 0 1
                 (sampleTable ++ drop (length sampleTable) (makeBytes INODE_BUFFER_SIZE))
                 (replicate 15 0))
        1 (mkIntStream [] 1).
(** A store that holds the first inode block, behind a cache of capacity 1. *)
Definition sampleStore : World :=
  setCache (mkWorld ∅ {[InodeBlockKey 0 := newDataBlock]} (CacheM.initializeCache 0)
                    (mkIntStream [] 1) 0 [])
           (CacheM.initializeCache 1).

(** * Properties *)

(** ** Little-endian and gob integers *)

Lemma le_bytes_length (n : nat) (x : Z) : length (le_bytes n x) = n.
Proof. revert x. induction n as [|n IH]; intros x; simpl; [done|]. by rewrite IH. Qed.

Lemma le_value_le_bytes (n : nat) (x : Z) :
  0 <= x < 256 ^ Z.of_nat n -> le_value (le_bytes n x) = x.
Proof.
  revert x. induction n as [|n IH]; intros x Hx.
  - simpl in *. lia.
  - cbn [le_bytes le_value]. rewrite IH.
    + pose proof (Z.div_mod x 256). lia.
    + rewrite Nat2Z.inj_succ, Z.pow_succ_r in Hx by lia.
      split; [apply Z.div_pos; lia|].
      apply Z.div_lt_upper_bound; lia.
Qed.

Lemma Uint64_PutUint64 (x : Z) : is_u64 x -> Uint64 (PutUint64 x) = x.
Proof.
  intros Hx. unfold Uint64, PutUint64.
  rewrite take_ge by (rewrite le_bytes_length; lia).
  apply le_value_le_bytes. unfold is_u64 in Hx.
  change (256 ^ Z.of_nat 8) with (2 ^ 64). lia.
Qed.

Module GobWireFacts.
Import GobWire.

Lemma byteLen_range (x : Z) : (1 <= byteLen x <= 8)%nat.
Proof. unfold byteLen. repeat case_match; lia. Qed.

Lemma byteLen_bound (x : Z) : is_u64 x -> 0 <= x < 256 ^ Z.of_nat (byteLen x).
Proof.
  unfold is_u64, byteLen. intros Hx.
  repeat case_match;
    repeat match goal with
           | H : (_ <? _) = true |- _ => apply Z.ltb_lt in H
           | H : (_ <? _) = false |- _ => apply Z.ltb_ge in H
           end; cbn [Z.of_nat Pos.of_succ_nat Pos.succ]; lia.
Qed.

Lemma encodeUint_nonempty (x : Z) : (1 <= length (encodeUint x))%nat.
Proof. unfold encodeUint. case_match; simpl; lia. Qed.

Lemma decodeUint_encodeUint (x : Z) (rest : list Z) :
  is_u64 x -> decodeUint (encodeUint x ++ rest) = Some (x, rest).
Proof.
  intros Hx. unfold encodeUint. destruct (x <? 128) eqn:Hs.
  - simpl. by rewrite Hs.
  - pose proof (byteLen_range x) as Hr. pose proof (byteLen_bound x Hx) as Hb.
    set (n := byteLen x) in *. cbn [app decodeUint].
    replace (256 - Z.of_nat n <? 128) with false by (symmetry; apply Z.ltb_ge; lia).
    replace (Z.to_nat (256 - (256 - Z.of_nat n))) with n by lia.
    assert (Hlen : length (rev (le_bytes n x)) = n)
      by (rewrite length_rev; apply le_bytes_length).
    replace (8 <? Z.of_nat n) with false by (symmetry; apply Z.ltb_ge; lia).
    replace (len (rev (le_bytes n x) ++ rest) <? Z.of_nat n) with false
      by (symmetry; apply Z.ltb_ge; unfold len; rewrite length_app; lia).
    cbn [orb].
    rewrite take_app_length' by done. rewrite drop_app_length' by done.
    by rewrite rev_involutive, le_value_le_bytes.
Qed.

Lemma decodeElems_encode (l : list Z) (rest : list Z) (fuel : nat) :
  Forall is_u64 l -> (length l <= fuel)%nat ->
  decodeElems fuel (len l) (concat (map encodeUint l) ++ rest) = Some (l, rest).
Proof.
  revert fuel. induction l as [|x l IH]; intros fuel Hl Hf.
  - by destruct fuel.
  - inversion Hl as [|? ? Hx Hl']; subst.
    destruct fuel as [|fuel]; [simpl in Hf; lia|].
    cbn [decodeElems]. replace (len (x :: l) <=? 0) with false
      by (symmetry; apply Z.leb_gt; unfold len; simpl; lia).
    cbn [map concat]. rewrite <- app_assoc, decodeUint_encodeUint by done.
    replace (len (x :: l) - 1) with (len l) by (unfold len; simpl; lia).
    rewrite IH; [done|done|simpl in Hf; lia].
Qed.

Lemma concat_encode_length (l : list Z) :
  (length l <= length (concat (map encodeUint l)))%nat.
Proof.
  induction l as [|x l IH]; [done|]. cbn [map concat].
  rewrite length_app. pose proof (encodeUint_nonempty x). simpl. lia.
Qed.

Lemma openValue_message (td body : list Z) :
  len (valueHeader ++ body) < 2 ^ 64 ->
  openValue td (td ++ message (valueHeader ++ body)) = Some body.
Proof.
  intros Hlen. unfold openValue, message.
  rewrite take_app_length, bool_decide_eq_true_2 by done.
  rewrite drop_app_length, decodeUint_encodeUint
    by (unfold is_u64, len in *; lia).
  replace (len (valueHeader ++ body) <? len (valueHeader ++ body)) with false
    by (symmetry; apply Z.ltb_ge; lia).
  unfold len. rewrite Nat2Z.id, firstn_all.
  by rewrite bool_decide_eq_true_2.
Qed.

Lemma decodeUints_encodeUints (l : list Z) :
  Forall is_u64 l -> len (encodeUints l) < gobTooBig ->
  decodeUints (encodeUints l) = Some l.
Proof.
  intros Hl Hbig. unfold decodeUints, encodeUints in *.
  assert (Hsz : len (valueHeader ++ encodeUint (len l) ++ concat (map encodeUint l))
                < 2 ^ 33).
  { unfold gobTooBig, message, len in *. rewrite !length_app in Hbig.
    rewrite !length_app. simpl length in *. lia. }
  pose proof (concat_encode_length l) as Hc.
  rewrite openValue_message by lia.
  assert (Hn : is_u64 (len l)).
  { unfold is_u64, len in *. rewrite !length_app in Hsz. lia. }
  rewrite <- (app_nil_r (concat _)) at 1.
  rewrite decodeUint_encodeUint by done.
  rewrite decodeElems_encode; [done|done|].
  rewrite app_nil_r. done.
Qed.

End GobWireFacts.

(** The wire format is a gob codec. *)
Global Instance gobWire : Gob := {
  gobEncodeUints := GobWire.encodeUints;
  gobDecodeUints := GobWire.decodeUints;
  gobEncodeTable := GobWire.encodeTable;
  gobDecodeTable := GobWire.decodeTable;
  gob_uints_roundtrip := GobWireFacts.decodeUints_encodeUints;
}.

(** ** The integer stream *)

Lemma next_empty (n : Z) :
  next (mkIntStream [] n) = (add64 n 1, mkIntStream [] (add64 n 1)).
Proof. reflexivity. Qed.

Lemma next_front (x : Z) (rest : list Z) (n : Z) :
  next (mkIntStream (x :: rest) n) = (x, mkIntStream rest n).
Proof.
  unfold next. cbn [stack lastInt].
  replace (len (x :: rest) =? 0) with false; [done|].
  symmetry. apply Z.eqb_neq. unfold len. simpl. lia.
Qed.

Lemma puts_stack (l st : list Z) (n : Z) :
  fold_left put l (mkIntStream st n) = mkIntStream (rev l ++ st) n.
Proof.
  revert st. induction l as [|x l IH]; intros st; [done|].
  cbn [fold_left rev]. unfold put at 2. cbn [stack lastInt].
  by rewrite IH, <- app_assoc.
Qed.

Lemma nextN_pops (xs st : list Z) (n : Z) :
  nextN (length xs) (mkIntStream (xs ++ st) n) = (xs, mkIntStream st n).
Proof.
  induction xs as [|x xs IH]; [done|].
  cbn [length nextN app]. by rewrite next_front, IH.
Qed.

Lemma nextN_puts (l : list Z) (st : list Z) (n : Z) :
  nextN (length l) (fold_left put l (mkIntStream st n))
  = (rev l, mkIntStream st n).
Proof. by rewrite puts_stack, <- (length_rev l), nextN_pops. Qed.

(** C6: [next] hands back the value put last and takes it off the stack
    when the stack is not empty, so that repeated calls return the values
    put in last-in first-out order; on an empty stack it increments
    [lastInt] (as a [uint64]) and returns the new value; [put] pushes its
    argument, whatever it is. *)
Theorem IntStream_next_put_contract (s : IntStream) :
  (forall n, put s n = mkIntStream (n :: stack s) (lastInt s))
  /\ (forall n, next (put s n) = (n, s))
  /\ (forall x rest n, next (mkIntStream (x :: rest) n) = (x, mkIntStream rest n))
  /\ (forall n, next (mkIntStream [] n) = (add64 n 1, mkIntStream [] (add64 n 1)))
  /\ (forall l, nextN (length l) (fold_left put l s) = (rev l, s)).
Proof.
  destruct s as [st n]. split; [|split; [|split; [|split]]].
  - reflexivity.
  - intros x. unfold put. cbn [stack lastInt]. apply next_front.
  - apply next_front.
  - apply next_empty.
  - intros l. apply nextN_puts.
Qed.

Lemma marshalLoop_spec (st pre suf : list Z) :
  length pre = length st ->
  marshalLoop st (pre ++ suf) = (rev st ++ suf, []).
Proof.
  revert pre suf. induction st as [|x st IH]; intros pre suf Hlen.
  - destruct pre; [done|discriminate].
  - destruct pre as [|p pre _] using rev_ind; [discriminate|].
    rewrite length_app in Hlen. cbn [length] in Hlen.
    cbn [marshalLoop length]. rewrite <- app_assoc.
    replace (S (length st) - 1)%nat with (length pre + 0)%nat by lia.
    rewrite insert_app_r. cbn [app]. cbn [list_insert base.insert].
    rewrite IH by lia. cbn [rev]. by rewrite <- app_assoc.
Qed.

Lemma marshalLoop_replicate (st : list Z) :
  marshalLoop st (replicate (length st) 0) = (rev st, []).
Proof.
  rewrite <- (app_nil_r (replicate _ _)), marshalLoop_spec
    by apply length_replicate.
  by rewrite app_nil_r.
Qed.

Lemma pushFront_all (l acc : list Z) :
  fold_left (fun st entry => entry :: st) l acc = rev l ++ acc.
Proof.
  revert acc. induction l as [|x l IH]; intros acc; [done|].
  cbn [fold_left rev]. by rewrite IH, <- app_assoc.
Qed.

(** C7: on a stack of [uint64] values whose encoding gob accepts,
    [MarshalBinary] followed by [UnmarshalBinary] of the bytes gives a
    stack with the same elements in the same order. *)
Theorem MarshalBinary_UnmarshalBinary_identity `{Gob} (s s0 : IntStream) :
  Forall is_u64 (stack s) ->
  len (MarshalBinary s).1 < gobTooBig ->
  UnmarshalBinary s0 (MarshalBinary s).1 = Ok (mkIntStream (stack s) (lastInt s0)).
Proof.
  unfold MarshalBinary, UnmarshalBinary.
  rewrite marshalLoop_replicate. cbn [fst]. intros Hs Hbig.
  rewrite gob_uints_roundtrip; [|by apply Forall_rev|done].
  by rewrite pushFront_all, app_nil_r, rev_involutive.
Qed.

Lemma MarshalBinary_UnmarshalBinary_witness :
  Forall is_u64 [29; 7]
  /\ UnmarshalBinary (mkIntStream [] 2) (MarshalBinary (mkIntStream [29; 7] 2)).1
     = Ok (mkIntStream [29; 7] 2).
Proof.
  assert (Hu : Forall is_u64 [29; 7]) by (repeat constructor; unfold is_u64; lia).
  split; [exact Hu|].
  apply (MarshalBinary_UnmarshalBinary_identity
           (mkIntStream [29; 7] 2) (mkIntStream [] 2) Hu).
  vm_compute. reflexivity.
Defined.

(** C10: [MarshalBinary] removes every element while it serialises: the
    stack it leaves is empty and [lastInt] is untouched, so the next call
    of [next] returns [lastInt + 1] and none of the identifiers that were
    on the stack. *)
Theorem MarshalBinary_is_destructive `{Gob} (s : IntStream) :
  (MarshalBinary s).2 = mkIntStream [] (lastInt s)
  /\ next (MarshalBinary s).2
     = (add64 (lastInt s) 1, mkIntStream [] (add64 (lastInt s) 1)).
Proof.
  unfold MarshalBinary. rewrite marshalLoop_replicate. cbn [snd]. done.
Qed.

(** ** The cache *)

Section queue_facts.
Implicit Types (q : list (nat * Key)) (e : nat) (k : Key).

Lemma queue_same_element q e k1 k2 :
  NoDup q.*1 -> (e, k1) ∈ q -> (e, k2) ∈ q -> k1 = k2.
Proof.
  induction q as [|[e' k'] q IH]; intros Hnd H1 H2.
  - by apply elem_of_nil in H1.
  - cbn in Hnd. apply NoDup_cons in Hnd as [Hnot Hnd].
    apply elem_of_cons in H1 as [H1|H1]; apply elem_of_cons in H2 as [H2|H2].
    + congruence.
    + inversion H1; subst. exfalso. apply Hnot.
      apply list_elem_of_fmap. by exists (e', k2).
    + inversion H2; subst. exfalso. apply Hnot.
      apply list_elem_of_fmap. by exists (e', k1).
    + by apply IH.
Qed.

Lemma queue_keys_NoDup q :
  NoDup q.*1 ->
  (forall e1 e2 k, (e1, k) ∈ q -> (e2, k) ∈ q -> e1 = e2) ->
  NoDup q.*2.
Proof.
  induction q as [|[e k] q IH]; intros Hnd Hk; [constructor|].
  cbn in *. apply NoDup_cons in Hnd as [Hnot Hnd]. apply NoDup_cons. split.
  - intros Hin. apply list_elem_of_fmap in Hin as ([e' k'] & Heq & Hin).
    cbn in Heq. subst k'. apply Hnot.
    assert (e = e') as -> by (eapply Hk; [left|right; done]).
    apply list_elem_of_fmap. by exists (e', k).
  - apply IH; [done|]. intros e1 e2 k0 H1 H2. eapply Hk; right; done.
Qed.

Lemma listRemove_elem q e x : x ∈ listRemove e q <-> x ∈ q /\ x.1 <> e.
Proof. unfold listRemove. rewrite list_elem_of_filter. tauto. Qed.

Lemma listRemove_NoDup q e : NoDup q.*1 -> NoDup (listRemove e q).*1.
Proof.
  unfold listRemove. induction q as [|x q IH]; intros Hnd; [constructor|].
  cbn in Hnd. apply NoDup_cons in Hnd as [Hnot Hnd].
  rewrite filter_cons. case_decide; [|by apply IH].
  cbn. apply NoDup_cons. split; [|by apply IH].
  intros Hin. apply Hnot. apply list_elem_of_fmap in Hin as (y & -> & Hin).
  apply list_elem_of_filter in Hin as [_ Hin].
  apply list_elem_of_fmap. by exists y.
Qed.

Lemma listRemove_length q e k :
  (e, k) ∈ q -> (length (listRemove e q) + 1 <= length q)%nat.
Proof.
  unfold listRemove. induction q as [|x q IH]; intros Hin.
  - by apply elem_of_nil in Hin.
  - rewrite filter_cons. apply elem_of_cons in Hin as [<-|Hin].
    + cbn. rewrite decide_False by (intros Hc; by apply Hc).
      pose proof (length_filter (fun x : nat * Key => x.1 <> e) q). cbn. lia.
    + specialize (IH Hin). case_decide; cbn; lia.
Qed.

Lemma listRemove_front q e k : NoDup ((e, k) :: q).*1 -> listRemove e ((e, k) :: q) = q.
Proof.
  intros Hnd. cbn in Hnd. apply NoDup_cons in Hnd as [Hnot _].
  unfold listRemove. rewrite filter_cons. cbn.
  rewrite decide_False by (intros Hc; by apply Hc).
  clear k. induction q as [|x q IH]; [done|].
  rewrite filter_cons. cbn in Hnot. apply not_elem_of_cons in Hnot as [Hne Hnot].
  rewrite decide_True by done. by rewrite IH.
Qed.

Lemma listMoveToBack_spec q e k :
  NoDup q.*1 -> (e, k) ∈ q -> listMoveToBack e q = listRemove e q ++ [(e, k)].
Proof.
  intros Hnd Hin. unfold listMoveToBack.
  destruct (filter (fun x : nat * Key => x.1 = e) q) as [|[e' k'] l] eqn:Hf.
  - assert (Hin' : (e, k) ∈ filter (fun x : nat * Key => x.1 = e) q)
      by (apply list_elem_of_filter; done).
    rewrite Hf in Hin'. by apply elem_of_nil in Hin'.
  - assert (Hin' : (e', k') ∈ filter (fun x : nat * Key => x.1 = e) q)
      by (rewrite Hf; left).
    apply list_elem_of_filter in Hin' as [He Hin']. cbn in He. subst e'.
    by rewrite (queue_same_element q e k' k Hnd Hin' Hin).
Qed.

End queue_facts.

Lemma keyHashAt_Some (c : Cache) (key : Key) (e : nat) :
  keyHashAt c key = Some e <-> keyHash c !! key = Some (Some e).
Proof.
  unfold keyHashAt. destruct (keyHash c !! key) as [[e'|]|]; split; congruence.
Qed.

Lemma tracked_keyHashAt (w : World) (key : Key) :
  cache_inv w ->
  key ∉ trackedKeys (cache w) <-> keyHashAt (cache w) key = None.
Proof.
  intros Hinv. unfold trackedKeys. split.
  - intros Hnot. destruct (keyHashAt (cache w) key) as [e|] eqn:He; [|done].
    exfalso. apply Hnot. apply keyHashAt_Some, (inv_keyHash w Hinv) in He.
    apply list_elem_of_fmap. by exists (e, key).
  - intros Hnone Hin. apply list_elem_of_fmap in Hin as ([e k] & Heq & Hin).
    cbn in Heq. subst k. apply (inv_keyHash w Hinv), keyHashAt_Some in Hin.
    congruence.
Qed.

Lemma cache_inv_keys_NoDup (w : World) :
  cache_inv w -> NoDup (trackedKeys (cache w)).
Proof.
  intros Hinv. apply queue_keys_NoDup; [apply Hinv|].
  intros e1 e2 k H1 H2.
  apply (inv_keyHash w Hinv) in H1. apply (inv_keyHash w Hinv) in H2. congruence.
Qed.

(** Moving a tracked element to the back keeps the invariant. *)
Lemma cache_inv_moveToBack (w : World) (dyn : gmap Key (list Z)) (e : nat) (k : Key) :
  cache_inv w -> (e, k) ∈ recentlyUsedQueue (cache w) ->
  (forall k', is_Some (dynamo w !! k') -> is_Some (dyn !! k')) ->
  cache_inv (setCache (setDynamo w dyn) (CacheM.moveToBack e (cache w))).
Proof.
  intros Hinv Hin Hdyn. pose proof (inv_elements w Hinv) as Hnd.
  assert (Hmem : forall x, x ∈ listRemove e (recentlyUsedQueue (cache w)) ++ [(e, k)]
                           <-> x ∈ recentlyUsedQueue (cache w)).
  { intros [e' k']. rewrite elem_of_app, listRemove_elem, list_elem_of_singleton. cbn.
    split.
    - intros [[? _]|Heq]; [done|by inversion Heq; subst].
    - intros Hx. destruct (decide (e' = e)) as [->|Hne]; [|by left].
      right. f_equal. eapply queue_same_element; done. }
  split; cbn [cache setCache setDynamo dynamo CacheM.moveToBack recentlyUsedQueue
              keyHash cacheCapacity nextElement];
    rewrite ?(listMoveToBack_spec _ e k Hnd Hin).
  - rewrite fmap_app. apply NoDup_app. split; [by apply listRemove_NoDup|]. split.
    + intros x Hx Hx'. cbn in Hx'. apply list_elem_of_singleton in Hx'. subst x.
      apply list_elem_of_fmap in Hx as ([e' k'] & Heq & Hx). cbn in Heq. subst e'.
      apply listRemove_elem in Hx as [_ Hx]. by apply Hx.
    + cbn. apply NoDup_singleton.
  - intros e' k'. rewrite Hmem. apply Hinv.
  - pose proof (listRemove_length _ e k Hin). pose proof (inv_capacity w Hinv).
    unfold len in *. rewrite length_app. cbn [length]. lia.
  - intros e' k'. rewrite Hmem. apply Hinv.
  - intros e' k'. rewrite Hmem. intros Hx. by eapply Hdyn, inv_table.
Qed.

(** Pushing an untracked key on a queue that has room keeps the invariant. *)
Lemma cache_inv_pushBack (w : World) (key : Key) :
  cache_inv w -> key ∉ trackedKeys (cache w) ->
  len (recentlyUsedQueue (cache w)) < cacheCapacity (cache w) ->
  is_Some (dynamo w !! key) ->
  cache_inv (setCache w (CacheM.pushBack key (cache w))).
Proof.
  intros Hinv Hnew Hroom Hdyn.
  split; cbn [cache setCache setDynamo dynamo CacheM.pushBack recentlyUsedQueue
              keyHash cacheCapacity nextElement].
  - rewrite fmap_app. apply NoDup_app. split; [apply Hinv|]. split.
    + intros x Hx Hx'. cbn in Hx'. apply list_elem_of_singleton in Hx'. subst x.
      apply list_elem_of_fmap in Hx as ([e' k'] & Heq & Hx). cbn in Heq. subst e'.
      apply (inv_fresh w Hinv) in Hx. lia.
    + cbn. apply NoDup_singleton.
  - intros e k. rewrite elem_of_app, list_elem_of_singleton.
    destruct (decide (k = key)) as [->|Hne].
    + rewrite lookup_insert_eq. split.
      * intros [Hin|Heq]; [|by inversion Heq].
        exfalso. apply Hnew. apply list_elem_of_fmap. by exists (e, key).
      * intros Heq. right. by inversion Heq.
    + rewrite lookup_insert_ne by done. rewrite <- (inv_keyHash w Hinv).
      split; [intros [?|Heq]; [done|by inversion Heq]|by left].
  - unfold len in *. rewrite length_app. cbn [length]. lia.
  - intros e k. rewrite elem_of_app, list_elem_of_singleton.
    intros [Hin|Heq]; [apply (inv_fresh w Hinv) in Hin; lia|inversion Heq; lia].
  - intros e k. rewrite elem_of_app, list_elem_of_singleton.
    intros [Hin|Heq]; [by eapply inv_table|by inversion Heq; subst].
Qed.

(** Removing a tracked element, its key and its item keeps the invariant. *)
Lemma cache_inv_remove (w : World) (e : nat) (k : Key) (bkt : gmap Key (list Z)) :
  cache_inv w -> (e, k) ∈ recentlyUsedQueue (cache w) ->
  cache_inv (setBucket
               (setDynamo (setCache w (CacheM.setKeyHash k None (CacheM.remove e (cache w))))
                          (delete k (dynamo w))) bkt).
Proof.
  intros Hinv Hin. pose proof (inv_elements w Hinv) as Hnd.
  assert (Hkey : forall e' k', (e', k') ∈ recentlyUsedQueue (cache w) ->
                               e' <> e <-> k' <> k).
  { intros e' k' Hin'. split; intros Hne Heq; subst; apply Hne.
    - apply (inv_keyHash w Hinv) in Hin, Hin'. congruence.
    - eapply queue_same_element; done. }
  split; cbn [cache setCache setDynamo setBucket dynamo CacheM.setKeyHash CacheM.remove
              recentlyUsedQueue keyHash cacheCapacity nextElement].
  - by apply listRemove_NoDup.
  - intros e' k'. rewrite listRemove_elem. cbn.
    destruct (decide (k' = k)) as [->|Hne].
    + rewrite lookup_insert_eq. split; [|done].
      intros [Hin' Hne]. apply Hkey in Hin'. tauto.
    + rewrite lookup_insert_ne by done. rewrite <- (inv_keyHash w Hinv).
      split; [tauto|]. intros Hin'. split; [done|]. by apply (Hkey e' k' Hin').
  - pose proof (listRemove_length _ e k Hin). pose proof (inv_capacity w Hinv).
    unfold len in *. lia.
  - intros e' k'. rewrite listRemove_elem. intros [Hin' _]. by eapply inv_fresh.
  - intros e' k'. rewrite listRemove_elem. cbn. intros [Hin' Hne].
    rewrite lookup_delete_ne by (apply not_eq_sym; by apply (Hkey e' k' Hin')).
    by eapply inv_table.
Qed.

Lemma cache_inv_ext (w w' : World) :
  cache w' = cache w ->
  (forall k, is_Some (dynamo w !! k) -> is_Some (dynamo w' !! k)) ->
  cache_inv w -> cache_inv w'.
Proof.
  intros Hc Hd [H1 H2 H3 H4 H5]. split; rewrite Hc; try done.
  intros e k Hin. by eapply Hd, H5.
Qed.

Ltac run_monad :=
  unfold bind, modify, get, ret, panic;
  cbn [cache dynamo bucket setCache setDynamo setBucket fst snd].

(** [addBlock] of a key that is tracked. *)
Lemma addBlock_tracked (data : DataBlock) (key : Key) (w : World) (e : nat) :
  keyHashAt (cache w) key = Some e ->
  CacheM.addBlock data key w
  = Ok (None, setCache (setDynamo w (<[key := data]> (dynamo w)))
                       (CacheM.moveToBack e (cache w))).
Proof. intros He. unfold CacheM.addBlock. run_monad. by rewrite He. Qed.

(** [addBlock] of an untracked key when the queue has room. *)
Lemma addBlock_room (data : DataBlock) (key : Key) (w : World) :
  keyHashAt (cache w) key = None ->
  len (recentlyUsedQueue (cache w)) <> cacheCapacity (cache w) ->
  CacheM.addBlock data key w
  = Ok (None, setCache (setDynamo w (<[key := data]> (dynamo w)))
                       (CacheM.pushBack key (cache w))).
Proof.
  intros He Hlen. unfold CacheM.addBlock. run_monad. rewrite He.
  apply Z.eqb_neq in Hlen. by rewrite Hlen.
Qed.

(** [addBlock] of an untracked key when the queue is full: the front
    element is removed, its item moves from the table to the bucket. *)
Lemma addBlock_full (data : DataBlock) (key : Key) (w : World)
    (e0 : nat) (k0 : Key) (q0 : list (nat * Key)) (v : list Z) :
  keyHashAt (cache w) key = None ->
  recentlyUsedQueue (cache w) = (e0, k0) :: q0 ->
  len (recentlyUsedQueue (cache w)) = cacheCapacity (cache w) ->
  k0 <> key -> dynamo w !! k0 = Some v ->
  CacheM.addBlock data key w
  = Ok (None,
        setCache
          (setBucket
             (setDynamo w (delete k0 (<[key := data]> (dynamo w))))
             (<[k0 := v]> (bucket w)))
          (CacheM.pushBack key (CacheM.setKeyHash k0 None (CacheM.remove e0 (cache w))))).
Proof.
  intros He Hq Hlen Hne Hv. unfold CacheM.addBlock, CacheM.evictBlock. run_monad.
  rewrite He. apply Z.eqb_eq in Hlen. rewrite Hlen, Hq. run_monad.
  by rewrite lookup_insert_ne, Hv by done.
Qed.

Lemma cache_step (op : CacheOp) (w : World) :
  cache_inv w -> 0 < cacheCapacity (cache w) ->
  exists w', runCacheOp op w = Ok (tt, w')
             /\ cache_inv w'
             /\ cacheCapacity (cache w') = cacheCapacity (cache w).
Proof.
  intros Hinv Hcap. destruct op as [data key|key|key]; unfold runCacheOp.
  - (* addBlock *)
    destruct (keyHashAt (cache w) key) as [e|] eqn:He.
    + unfold bind at 1. rewrite (addBlock_tracked _ _ _ e He).
      eexists. split; [reflexivity|]. split; [|done].
      apply (cache_inv_moveToBack w _ e key); [done|by apply (inv_keyHash w Hinv), keyHashAt_Some|].
      intros k' Hk'. destruct (decide (key = k')) as [->|Hne].
      * by rewrite lookup_insert_eq.
      * by rewrite lookup_insert_ne.
    + assert (Hnew : key ∉ trackedKeys (cache w)) by by apply tracked_keyHashAt.
      destruct (decide (len (recentlyUsedQueue (cache w)) = cacheCapacity (cache w)))
        as [Hfull|Hroom].
      * destruct (recentlyUsedQueue (cache w)) as [|[e0 k0] q0] eqn:Hq;
          [unfold len in Hfull; cbn in Hfull; lia|].
        assert (Hin0 : (e0, k0) ∈ recentlyUsedQueue (cache w)) by (rewrite Hq; left).
        destruct (inv_table w Hinv e0 k0 Hin0) as [v Hv].
        assert (Hne : k0 <> key).
        { intros ->. apply Hnew. unfold trackedKeys. rewrite Hq. cbn. left. }
        unfold bind at 1.
        rewrite (addBlock_full _ _ _ e0 k0 q0 v He Hq) by (rewrite ?Hq; done).
        eexists. split; [reflexivity|]. split; [|done].
        pose proof (cache_inv_remove w e0 k0 (<[k0 := v]> (bucket w)) Hinv Hin0) as Hrem.
        match goal with |- cache_inv ?w1 =>
          apply (cache_inv_ext
                   (setCache
                      (setDynamo
                         (setBucket
                            (setDynamo
                               (setCache w (CacheM.setKeyHash k0 None
                                              (CacheM.remove e0 (cache w))))
                               (delete k0 (dynamo w))) (<[k0 := v]> (bucket w)))
                         (delete k0 (<[key := data]> (dynamo w))))
                      (CacheM.pushBack key
                         (CacheM.setKeyHash k0 None (CacheM.remove e0 (cache w))))) w1)
        end; [done|done|].
        apply (cache_inv_pushBack
                 (setDynamo
                    (setBucket
                       (setDynamo
                          (setCache w (CacheM.setKeyHash k0 None
                                         (CacheM.remove e0 (cache w))))
                          (delete k0 (dynamo w))) (<[k0 := v]> (bucket w)))
                    (delete k0 (<[key := data]> (dynamo w)))) key).
        -- eapply cache_inv_ext; [| |exact Hrem]; [done|].
           cbn [dynamo setDynamo setBucket setCache]. intros k' [x Hx].
           destruct (decide (k0 = k')) as [->|Hne']; [by rewrite lookup_delete_eq in Hx|].
           rewrite lookup_delete_ne in Hx |- * by done.
           destruct (decide (key = k')) as [->|Hne'']; [by rewrite lookup_insert_eq|].
           rewrite lookup_insert_ne by done. by eexists.
        -- unfold trackedKeys.
           cbn [cache setDynamo setBucket setCache CacheM.setKeyHash CacheM.remove
                recentlyUsedQueue].
           intros Hin. apply Hnew. unfold trackedKeys.
           apply list_elem_of_fmap in Hin as (x & -> & Hx).
           apply listRemove_elem in Hx as [Hx _].
           apply list_elem_of_fmap. by exists x.
        -- cbn [cache setDynamo setBucket setCache CacheM.setKeyHash CacheM.remove
                recentlyUsedQueue cacheCapacity].
           pose proof (listRemove_length _ e0 k0 Hin0) as Hl. rewrite ?Hq in *. unfold len in *. cbn [length] in *. lia.
        -- cbn [dynamo setDynamo setBucket setCache].
           rewrite lookup_delete_ne, lookup_insert_eq by done. by eexists.
      * unfold bind at 1. rewrite (addBlock_room _ _ _ He Hroom).
        eexists. split; [reflexivity|]. split; [|done].
        apply (cache_inv_pushBack (setDynamo w (<[key := data]> (dynamo w))) key).
        -- eapply cache_inv_ext; [| |exact Hinv]; [done|].
           cbn [dynamo setDynamo]. intros k' Hk'.
           destruct (decide (key = k')) as [->|Hne]; [by rewrite lookup_insert_eq|].
           by rewrite lookup_insert_ne.
        -- done.
        -- pose proof (inv_capacity w Hinv). cbn [cache setDynamo]. lia.
        -- cbn [dynamo setDynamo]. rewrite lookup_insert_eq. by eexists.
  - (* getBlock *)
    unfold CacheM.getBlock. run_monad.
    destruct (keyHashAt (cache w) key) as [e|] eqn:He; [|by eexists].
    destruct (dynamo w !! key) as [v|] eqn:Hv; [|by eexists].
    run_monad. eexists. split; [reflexivity|]. split; [|done].
    eapply cache_inv_ext;
      [| |apply (cache_inv_moveToBack w (dynamo w) e key Hinv)]; [done|done| |done].
    by apply (inv_keyHash w Hinv), keyHashAt_Some.
  - (* deleteBlock *)
    unfold CacheM.deleteBlock. run_monad.
    destruct (keyHashAt (cache w) key) as [e|] eqn:He; [|by eexists].
    run_monad. eexists. split; [reflexivity|]. split; [|done].
    eapply cache_inv_ext;
      [| |apply (cache_inv_remove w e key (bucket w) Hinv)]; [done|done|].
    by apply (inv_keyHash w Hinv), keyHashAt_Some.
Qed.

Lemma cache_run (ops : list CacheOp) (w : World) :
  cache_inv w -> 0 < cacheCapacity (cache w) ->
  exists w', runCacheOps ops w = Ok (tt, w')
             /\ cache_inv w'
             /\ cacheCapacity (cache w') = cacheCapacity (cache w).
Proof.
  revert w. induction ops as [|op ops IH]; intros w Hinv Hcap.
  - exists w. done.
  - destruct (cache_step op w Hinv Hcap) as (w1 & Hrun & Hinv1 & Hcap1).
    destruct (IH w1 Hinv1 ltac:(lia)) as (w2 & Hrun2 & Hinv2 & Hcap2).
    exists w2. cbn [runCacheOps]. unfold bind at 1. rewrite Hrun.
    split; [done|]. split; [done|lia].
Qed.

Lemma cache_inv_initial (w0 : World) (cacheSize : Z) :
  0 <= cacheSize -> cache_inv (setCache w0 (CacheM.initializeCache cacheSize)).
Proof.
  intros Hc. split; cbn [cache setCache CacheM.initializeCache recentlyUsedQueue
                         keyHash cacheCapacity].
  - constructor.
  - intros e k. rewrite lookup_empty. split; [|done].
    intros Hin. by apply elem_of_nil in Hin.
  - unfold len. cbn. lia.
  - intros e k Hin. by apply elem_of_nil in Hin.
  - intros e k Hin. by apply elem_of_nil in Hin.
Qed.

(** C9: after any sequence of [addBlock], [getBlock] and [deleteBlock] on
    a cache initialised with a capacity [C > 0] (no operation panics), the
    tracked keys are at most [C] and pairwise distinct; and in such a state
    an [addBlock] of an untracked key on a full cache evicts the key at
    the front: the others keep their order with the new key behind them,
    and the front key's block leaves the table for the bucket. *)
Theorem cache_capacity_distinct_lru (C : Z) (w0 : World) (ops : list CacheOp) :
  0 < C ->
  exists w,
    runCacheOps ops (setCache w0 (CacheM.initializeCache C)) = Ok (tt, w)
    /\ len (trackedKeys (cache w)) <= C
    /\ NoDup (trackedKeys (cache w))
    /\ forall data key front rest,
         trackedKeys (cache w) = front :: rest ->
         len (trackedKeys (cache w)) = C ->
         key ∉ trackedKeys (cache w) ->
         exists w' v,
           CacheM.addBlock data key w = Ok (None, w')
           /\ trackedKeys (cache w') = rest ++ [key]
           /\ dynamo w !! front = Some v
           /\ bucket w' !! front = Some v
           /\ dynamo w' !! front = None.
Proof.
  intros HC.
  destruct (cache_run ops (setCache w0 (CacheM.initializeCache C))) as (w & Hrun & Hinv & Hcap).
  { apply cache_inv_initial. lia. }
  { done. }
  cbn [cache setCache CacheM.initializeCache cacheCapacity] in Hcap.
  exists w. split; [done|]. unfold trackedKeys.
  split; [|split].
  - pose proof (inv_capacity w Hinv). unfold len in *. rewrite length_fmap. lia.
  - by apply cache_inv_keys_NoDup.
  - intros data key front rest Hq Hfull Hnew.
    destruct (recentlyUsedQueue (cache w)) as [|[e0 k0] q0] eqn:Hqueue; [done|].
    cbn in Hq. inversion Hq; subst front rest. clear Hq.
    assert (Hin0 : (e0, k0) ∈ recentlyUsedQueue (cache w)) by (rewrite Hqueue; left).
    destruct (inv_table w Hinv e0 k0 Hin0) as [v Hv].
    assert (Hne : k0 <> key) by (intros ->; apply Hnew; left).
    assert (He : keyHashAt (cache w) key = None).
    { apply tracked_keyHashAt; [done|]. unfold trackedKeys. by rewrite Hqueue. }
    eexists _, v. split.
    + apply (addBlock_full _ _ _ e0 k0 q0 v He Hqueue); [|done|done].
      rewrite Hqueue. unfold len in *. rewrite length_fmap in Hfull. lia.
    + cbn [cache setCache setBucket setDynamo dynamo bucket CacheM.pushBack
           CacheM.setKeyHash CacheM.remove recentlyUsedQueue].
      rewrite Hqueue, listRemove_front
        by (rewrite <- Hqueue; apply (inv_elements w Hinv)).
      rewrite fmap_app, lookup_insert_eq, lookup_delete_eq. done.
Qed.

Lemma cache_capacity_distinct_lru_witness :
  0 < 2
  /\ exists w,
       runCacheOps [OpAddBlock [1] (DataKey 2); OpAddBlock [2] (DataKey 3);
                    OpGetBlock (DataKey 2); OpAddBlock [3] (DataKey 4);
                    OpDeleteBlock (DataKey 2); OpAddBlock [4] (InodeBlockKey 0)]
         (setCache (mkWorld ∅ ∅ (CacheM.initializeCache 0) (mkIntStream [] 1) 0 [])
                   (CacheM.initializeCache 2))
       = Ok (tt, w)
       /\ len (trackedKeys (cache w)) <= 2
       /\ NoDup (trackedKeys (cache w)).
Proof.
  assert (H2 : 0 < 2) by lia.
  split; [exact H2|].
  destruct (cache_capacity_distinct_lru 2
              (mkWorld ∅ ∅ (CacheM.initializeCache 0) (mkIntStream [] 1) 0 [])
              [OpAddBlock [1] (DataKey 2); OpAddBlock [2] (DataKey 3);
               OpGetBlock (DataKey 2); OpAddBlock [3] (DataKey 4);
               OpDeleteBlock (DataKey 2); OpAddBlock [4] (InodeBlockKey 0)] H2)
    as (w & Hrun & Hlen & Hnd & _).
  exists w. split; [exact Hrun|]. split; [exact Hlen|exact Hnd].
Defined.

(** ** Loops *)

Lemma forLoop_invariant {S} (P : S -> Prop) (count : N) (step : Z)
    (cond : S -> bool) (body : Z -> S -> M S) (s : S) (w : World) (s' : S) (w' : World) :
  P s ->
  (forall j s1 w1 s2 w2, P s1 -> body j s1 w1 = Ok (s2, w2) -> P s2) ->
  forLoop count step cond body s w = Ok (s', w') -> P s'.
Proof.
  intros Hs Hbody. unfold forLoop.
  set (Q := fun st : Z * Outcome (S * World) =>
              match st.2 with Ok (s1, _) => P s1 | _ => True end).
  assert (HQ : Q (N.iter count (loopStep step cond body) (0, Ok (s, w)))).
  { apply N.iter_invariant; [|done].
    intros [j [[s1 w1]| |c]] Hx; unfold Q in *; cbn in *; try done.
    destruct (cond s1); cbn; [|done].
    destruct (body j s1 w1) as [[s2 w2]| |c] eqn:Hb; [|done|done].
    by eapply Hbody. }
  intros Heq. unfold Q in HQ. by rewrite Heq in HQ.
Qed.

(** ** Inode: size and the bound check *)

Lemma writeDataBlocks_Size (i : Inode) (data : list Z) (offset : Z) (w : World)
    (i' : Inode) (w' : World) :
  writeDataBlocks i data offset w = Ok (i', w') -> Size i' = Size i.
Proof.
  unfold writeDataBlocks. unfold bind at 1.
  destruct (forLoop _ _ _ _ _ w) as [[[[i1 d1] o1] w1]| |] eqn:Hloop; [|done|done].
  apply (forLoop_invariant (fun s => Size s.1.1 = Size i)) in Hloop; [|done|].
  2:{ intros j [[i2 d2] o2] w2 [[i3 d3] o3] w3 Hi. cbn in Hi.
      destruct ((o2 <? BLOCK_SIZE) && (0 <? len d2)).
      - unfold bind, ret. destruct (writeBlock d2 o2 (dataAt i2 j) w2) as [[r w4]| |];
          [|done|done]. intros [= <- <- <- <-]. done.
      - intros [= <- <- <- <-]. done. }
  cbn in Hloop. unfold bind, ret.
  repeat (case_match; try done); intros [= <- <-]; simplify_eq; cbn; congruence.
Qed.

(** C3 (amended): after a [writeToData] that returns, [Size] is
    [offset + len(data)] as a [uint64], whatever it was before. *)
Theorem writeToData_sets_Size (i : Inode) (data : list Z) (offset : Z) (w : World)
    (i' : Inode) (w' : World) :
  writeToData i data offset w = Ok (i', w') ->
  Size i' = add64 (len data) offset.
Proof.
  unfold writeToData, updateSize. unfold bind at 1 2, get, ret.
  set (i1 := setUnixTime (setSize i (add64 (len data) offset)) (clock w)).
  assert (H1 : Size i1 = add64 (len data) offset) by done.
  clearbody i1. unfold bind at 1.
  destruct (offset <? INODE_BUFFER_SIZE).
  - unfold bind at 1, lift.
    destruct (goCopy _ _ _ _ _ _) as [buf| |]; [|done|done].
    unfold bind at 1, lift.
    destruct (goSliceFrom _ _) as [rest| |]; [|done|done].
    destruct (0 <? len rest).
    + intros Hw. apply writeDataBlocks_Size in Hw. by rewrite Hw.
    + intros [= <- <-]. done.
  - destruct (0 <? len data).
    + intros Hw. apply writeDataBlocks_Size in Hw. by rewrite Hw.
    + intros [= <- <-]. done.
Qed.

Lemma writeToData_sets_Size_witness :
  writeToData zeroInode [7; 7] 0 (newWorld 4 1000)
  = Ok (inodeOf (writeToData zeroInode [7; 7] 0 (newWorld 4 1000)),
        worldOf (writeToData zeroInode [7; 7] 0 (newWorld 4 1000)) (newWorld 4 1000))
  /\ Size (inodeOf (writeToData zeroInode [7; 7] 0 (newWorld 4 1000)))
     = add64 (len [7; 7]) 0.
Proof.
  assert (H : writeToData zeroInode [7; 7] 0 (newWorld 4 1000)
    = Ok (inodeOf (writeToData zeroInode [7; 7] 0 (newWorld 4 1000)),
        worldOf (writeToData zeroInode [7; 7] 0 (newWorld 4 1000)) (newWorld 4 1000)))
    by (vm_compute; reflexivity).
  split; [exact H|].
  exact (writeToData_sets_Size _ _ _ _ _ _ H).
Defined.

(** C3 as stated fails: two bytes written at offset 0 of an inode that
    holds 40 bytes leave [Size] at 2, where the maximum is 40. *)
Lemma writeToData_inside_lowers_Size :
  value ((i <- writeToData zeroInode bytes40 0 ;;
          i' <- writeToData i [7; 7] 0 ;;
          ret (Size i, Size i')) (newWorld 4 1000))
  = Ok (40, 2)
  /\ Z.max 40 (0 + len [7; 7]) = 40.
Proof. split; vm_compute; reflexivity. Qed.

(** C4 (amended): [readFromData] returns the offset-past-end error
    exactly when the offset is at least [Size], and returns no other
    error; on an inode that was never written ([Size] 0) every read from
    offset 0 fails with it, the read of 0 bytes included. *)
Theorem readFromData_fails_iff_offset_reaches_Size (i : Inode) (offset size : Z) (w : World) :
  ((exists data w', readFromData i offset size w
                    = Ok ((data, Some ErrOffsetPastEnd), w'))
   <-> Size i <= offset)
  /\ (forall data err w', readFromData i offset size w = Ok ((data, Some err), w') ->
                          err = ErrOffsetPastEnd /\ data = [] /\ w' = w)
  /\ (forall isDir n, exists i0,
        createInode isDir w = Ok (i0, w)
        /\ readFromData i0 0 n w = Ok (([], Some ErrOffsetPastEnd), w)).
Proof.
  assert (Hok : forall data err w', readFromData i offset size w = Ok ((data, Some err), w') ->
                  Size i <= offset /\ err = ErrOffsetPastEnd /\ data = [] /\ w' = w).
  { intros data err w'. unfold readFromData.
    destruct (offset >=? Size i) eqn:Hge.
    - unfold ret. intros [= <- <- <-]. split; [lia|done].
    - unfold bind, ret, lift. repeat (case_match; try done). }
  split; [split|split].
  - intros (data & w' & Hr). by apply Hok in Hr as [Hle _].
  - intros Hle. exists [], w. unfold readFromData.
    replace (offset >=? Size i) with true by (symmetry; lia). done.
  - intros data err w' Hr. by apply Hok in Hr as [_ Hr].
  - intros isDir n. eexists. split; [reflexivity|].
    unfold readFromData. cbn [Size]. done.
Qed.

(** C4 as stated fails: on a new inode the offset 0 does not exceed
    [Size], and [readFromData(0, 0)] returns the offset-past-end error. *)
Lemma readFromData_never_written_zero_fails :
  value ((i <- createInode 0 ;; readFromData i 0 0) (newWorld 4 1000))
  = Ok ([], Some ErrOffsetPastEnd).
Proof. vm_compute. reflexivity. Qed.

(** ** Failing inputs *)

(** C1 fails on the code: a 40-byte content written as the chunks
    [0, 10) and [10, 40) reads back with its last 20 bytes zero (the
    second write computes [writeEnd] as [size - offset], puts bytes
    10..19 in the buffer and the rest at the start of the first data
    block); and the content [1; 2] written byte by byte panics in the
    second write, whose slice of the buffer is [1:0]. *)
Theorem writeToData_chunks_do_not_read_back :
  value ((i <- createInode 0 ;;
          i <- writeToData i (take 10 bytes40) 0 ;;
          i <- writeToData i (drop 10 bytes40) 10 ;;
          readFromData i 0 40) (newWorld 4 1000))
  = Ok (take 20 bytes40 ++ replicate 20 0, None)
  /\ value ((i <- createInode 0 ;;
             i <- writeToData i [1] 0 ;;
             writeToData i [2] 1) (newWorld 4 1000))
     = Panic
  /\ value ((i <- createInode 0 ;;
             i <- writeToData i bytes40 0 ;;
             readFromData i 0 40) (newWorld 4 1000))
     = Ok (bytes40, None).
Proof. repeat split; vm_compute; reflexivity. Qed.

(** C2 fails on the code: for the inode stream with [lastInt] 5 and the
    free-stack [3], the stream built by [makeFs] from the superblocks has
    [lastInt] 5 and an empty stack.  The serialised stack is 19 bytes;
    [makeFs] subtracts what it has read from [listSize] and then tests
    [listSize > 0] to decide whether to deserialise. *)
Theorem makeFs_loses_free_stack :
  len (MarshalBinary (mkIntStream [3] 5)).1 = 19
  /\ value (superblockRoundTrip (mkIntStream [3] 5) (mkIntStream [] 9) ROOT_INODE
              (newWorld 4 1000))
     = Ok (mkFS (mkIntStream [] 5) ROOT_INODE)
  /\ value ((f <- Destroy (mkFS (mkIntStream [3] 5) ROOT_INODE) ;; main 4)
              (newWorld 4 1000))
     = Ok (mkFS (mkIntStream [] 5) ROOT_INODE).
Proof. repeat split; vm_compute; reflexivity. Qed.

(** C5 fails on the code: for a file of [INODE_BUFFER_SIZE + BLOCK_SIZE]
    bytes, which holds one data block (number 2), the ceiling is 1 while
    [deleteAllData] starts from 2 and sends two delete requests, the
    second for the block number 0 of the unallocated second extent. *)
Theorem deleteAllData_deletes_one_block_too_many :
  specBlocksToDelete (INODE_BUFFER_SIZE + BLOCK_SIZE) = 1
  /\ value ((i <- createInode 0 ;;
             i <- writeToData i oneBlockFile 0 ;;
             err <- deleteAllData i ;;
             w <- get ;;
             ret (Size i, take 3 (Data i), numBlocksToDelete i, err, s3Deletes w))
              (newWorld 4 1000))
     = Ok (INODE_BUFFER_SIZE + BLOCK_SIZE, [2; 0; 0], 2, None, [DataKey 0; DataKey 2]).
Proof. split; vm_compute; reflexivity. Qed.

(** X14: the count [deleteAllData] starts from is the ceiling of the
    content past the buffer over the block size, plus one exactly when
    that content is a positive number of whole blocks. *)
Lemma numBlocksToDelete_vs_ceiling (i : Inode) :
  is_u64 (Size i) ->
  numBlocksToDelete i
  = specBlocksToDelete (Size i)
    + (if (INODE_BUFFER_SIZE <? Size i)
          && ((Size i - INODE_BUFFER_SIZE) mod BLOCK_SIZE =? 0) then 1 else 0).
Proof.
  unfold is_u64, numBlocksToDelete, specBlocksToDelete, add64, sub64, wrap64.
  change INODE_BUFFER_SIZE with 373. change BLOCK_SIZE with 32768. intros Hs.
  destruct (Size i <=? 373) eqn:Hle.
  - apply Z.leb_le in Hle. replace (373 <? Size i) with false by (symmetry; lia).
    cbn [andb]. rewrite Z.max_l by lia. reflexivity.
  - apply Z.leb_gt in Hle. replace (373 <? Size i) with true by (symmetry; lia).
    cbn [andb]. rewrite Z.max_r by lia.
    rewrite (Z.mod_small (Size i - 373)) by lia.
    set (x := Size i - 373) in *.
    pose proof (Z.div_mod x 32768 ltac:(lia)) as Hdm.
    pose proof (Z.mod_pos_bound x 32768 ltac:(lia)) as Hm.
    assert (Hq : 0 <= x / 32768 < 2 ^ 49).
    { split; [apply Z.div_pos; lia|apply Z.div_lt_upper_bound; lia]. }
    rewrite Z.mod_small by lia.
    destruct (x mod 32768 =? 0) eqn:Hz.
    + apply Z.eqb_eq in Hz.
      replace (x + 32768 - 1) with (x / 32768 * 32768 + 32767) by lia.
      rewrite Z.div_add_l by lia. rewrite (Z.div_small 32767) by lia. lia.
    + apply Z.eqb_neq in Hz.
      replace (x + 32768 - 1) with ((x / 32768 + 1) * 32768 + (x mod 32768 - 1)) by lia.
      rewrite Z.div_add_l by lia. rewrite (Z.div_small (x mod 32768 - 1)) by lia. lia.
Qed.

Lemma numBlocksToDelete_vs_ceiling_witness :
  numBlocksToDelete (setSize zeroInode (INODE_BUFFER_SIZE + BLOCK_SIZE))
  = specBlocksToDelete (INODE_BUFFER_SIZE + BLOCK_SIZE) + 1.
Proof.
  apply (numBlocksToDelete_vs_ceiling (setSize zeroInode (INODE_BUFFER_SIZE + BLOCK_SIZE))).
  vm_compute. split; [discriminate|reflexivity].
Defined.

(** ** Remove *)

Lemma value_Ok {A} (o : Outcome (A * World)) (a : A) :
  value o = Ok a -> exists w', o = Ok (a, w').
Proof. destruct o as [[a' w']| |]; [|done|done]. intros [= ->]. by exists w'. Qed.

Lemma bind_Ok_inv {A B} (m : M A) (f : A -> M B) (w : World) (b : B) (w2 : World) :
  bind m f w = Ok (b, w2) -> exists a w1, m w = Ok (a, w1) /\ f a w1 = Ok (b, w2).
Proof.
  unfold bind. destruct (m w) as [[a w1]| |]; [|done|done].
  intros Hf. by exists a, w1.
Qed.

Lemma ret_Ok_inv {A} (a b : A) (w w' : World) : ret a w = Ok (b, w') -> a = b /\ w = w'.
Proof. unfold ret. by intros [= -> ->]. Qed.

Lemma removeFile_inodeStream `{Gob} (d : Dir) (name : string) (w : World)
    (r : Z * option error * Dir) (w' : World) :
  removeFile d name w = Ok (r, w') -> inodeStream r.2 = inodeStream d.
Proof.
  unfold removeFile, bind, ret.
  repeat (case_match; try done); intros [= <- <-]; done.
Qed.

(** C8: let [name] be an entry of directory [d] whose inode is fetched
    without error.  If that inode has [LinkCount] 1 and [Remove] returns
    without an error, the inode's number is on the inode stream's
    free-stack (pushed on the stream as it was) and the next call of
    [next] returns it.  If a directory is being removed ([req.Dir]) and
    the entry is a directory whose table does not have exactly 2
    entries, [Remove] does nothing but its three look-ups and returns
    the not-empty error: the directory node and the stream are as
    before. *)
Theorem Remove_frees_number_and_keeps_nonempty_directory `{Gob}
    (d : Dir) (req : fuse.RemoveRequest) (w : World) (num : Z) (i : Inode) :
  value (entryOf d (fuse.Name req) w) = Ok (num, i, None) ->
  num <> 0 ->
  (LinkCount i = 1 ->
   forall d', value (Remove d req w) = Ok (None, d') ->
     inodeStream d' = put (inodeStream d) num
     /\ num ∈ stack (inodeStream d')
     /\ next (inodeStream d') = (num, inodeStream d))
  /\ (fuse.Dir req = true -> IsDir i = 1 ->
      forall t, value (entryTableOf d (fuse.Name req) w) = Ok (num, i, None, (t, None)) ->
        Z.of_nat (size t) <> 2 ->
        Remove d req w
        = (_ <- entryTableOf d (fuse.Name req) ;; ret (Some ErrNotEmpty, d)) w).
Proof.
  intros He Hnum. apply value_Ok in He as [w2 He].
  unfold entryOf in He.
  apply bind_Ok_inv in He as (t & w1 & Ht & He).
  apply bind_Ok_inv in He as (r & w2' & Hr & He).
  apply ret_Ok_inv in He as [He ->]. injection He as Hn Hi Herr.
  assert (Hnz : (InodeTable.at_ t.1 (fuse.Name req) =? 0) = false)
    by (apply Z.eqb_neq; congruence).
  apply Z.eqb_neq in Hnum.
  split.
  - intros Hlink d' HR. apply value_Ok in HR as [w' HR].
    unfold Remove in HR.
    apply bind_Ok_inv in HR as (t' & w1' & Ht' & HR).
    rewrite Ht in Ht'. injection Ht' as <- <-.
    rewrite Hnz in HR.
    apply bind_Ok_inv in HR as (r' & w2' & Hr' & HR).
    rewrite Hr in Hr'. injection Hr' as <- <-.
    rewrite Herr in HR.
    apply bind_Ok_inv in HR as (chk & w3 & _ & HR).
    destruct chk as [e|]; [by apply ret_Ok_inv in HR as [[=] _]|].
    apply bind_Ok_inv in HR as (freed & w4 & Hfreed & HR).
    assert (Hc : (LinkCount (setLinkCount r.1 (wrap16 (LinkCount r.1 - 1))) =? 0) = true)
      by (cbn [LinkCount setLinkCount]; rewrite Hi, Hlink; reflexivity).
    rewrite Hc in Hfreed.
    apply bind_Ok_inv in Hfreed as (derr & w5 & _ & Hfreed).
    destruct derr as [e|].
    { apply ret_Ok_inv in Hfreed as [<- _]. by apply ret_Ok_inv in HR as [[=] _]. }
    apply ret_Ok_inv in Hfreed as [<- _]. cbn [fst snd] in HR.
    apply bind_Ok_inv in HR as (perr & w6 & _ & HR).
    apply bind_Ok_inv in HR as (rf & w7 & Hrf & HR).
    apply ret_Ok_inv in HR as [HR _]. injection HR as _ Hd'.
    apply removeFile_inodeStream in Hrf. cbn [inodeStream] in Hrf.
    rewrite <- Hd', Hrf, Hn. split; [done|]. split.
    + unfold put. cbn [stack]. left.
    + destruct (inodeStream d) as [st n]. unfold put. cbn [stack lastInt].
      apply next_front.
  - intros Hdir HisDir t2 Het Hsize. apply value_Ok in Het as [w3 Het].
    unfold bind at 1. rewrite Het. unfold ret at 1.
    unfold entryTableOf in Het. unfold bind at 1 in Het. unfold entryOf in Het.
    unfold bind at 1 in Het. rewrite Ht in Het. unfold bind at 1 in Het.
    rewrite Hr in Het. unfold ret at 1 in Het. cbn [fst snd] in Het.
    unfold bind at 1 in Het.
    destruct (getTable r.1 w2) as [[rt w3']| |] eqn:Hrt; [|done|done].
    unfold ret in Het. injection Het as _ _ _ Hrt1 Hw3. subst w3'.
    unfold Remove. unfold bind at 1. rewrite Ht.
    rewrite Hn, Hnum. unfold bind at 1. rewrite <- Hn, Hr, Herr.
    unfold bind at 1. rewrite Hdir, Hi, HisDir.
    change ((true && (1 =? 1))) with true. cbn iota.
    unfold bind at 1. rewrite <- Hi, Hrt, Hrt1. cbn [fst snd].
    apply Z.eqb_neq in Hsize. rewrite Hsize. cbn [negb]. done.
Qed.

Lemma Remove_frees_number_and_keeps_nonempty_directory_witness :
  (exists d w d',
      value (Remove d (fuse.mkRemoveRequest "x" true) w) = Ok (None, d')
      /\ stack (inodeStream d) = []
      /\ next (inodeStream d') = (2, inodeStream d))
  /\ (exists d w,
        value (Remove d (fuse.mkRemoveRequest "x" true) w) = Ok (Some ErrNotEmpty, d)).
Proof.
  split.
  - set (o := rootWithDir (newWorld 4 1000)).
    set (d := outOf o (mkDir zeroInode 0 (mkIntStream [] 0))).
    set (w := worldOf o (newWorld 4 1000)).
    set (req := fuse.mkRemoveRequest "x" true).
    set (i := (outOf (entryOf d "x" w) (0, zeroInode, None)).1.2).
    set (d' := (outOf (Remove d req w) (None, d)).2).
    assert (He : value (entryOf d (fuse.Name req) w) = Ok (2, i, None))
      by (vm_compute; reflexivity).
    assert (Hn : 2 <> 0) by lia.
    assert (Hl : LinkCount i = 1) by (vm_compute; reflexivity).
    assert (HR : value (Remove d req w) = Ok (None, d')) by (vm_compute; reflexivity).
    exists d, w, d'. split; [exact HR|]. split; [vm_compute; reflexivity|].
    exact (proj2 (proj2 (proj1
             (Remove_frees_number_and_keeps_nonempty_directory d req w 2 i He Hn)
             Hl d' HR))).
  - set (o := rootWithNestedDir (newWorld 4 1000)).
    set (d := outOf o (mkDir zeroInode 0 (mkIntStream [] 0))).
    set (w := worldOf o (newWorld 4 1000)).
    set (req := fuse.mkRemoveRequest "x" true).
    set (i := (outOf (entryOf d "x" w) (0, zeroInode, None)).1.2).
    set (t := (outOf (entryTableOf d "x" w) (0, zeroInode, None, (∅, None))).2.1).
    assert (He : value (entryOf d (fuse.Name req) w) = Ok (2, i, None))
      by (vm_compute; reflexivity).
    assert (Hn : 2 <> 0) by lia.
    assert (Hd : fuse.Dir req = true) by reflexivity.
    assert (Hi : IsDir i = 1) by (vm_compute; reflexivity).
    assert (Ht : value (entryTableOf d (fuse.Name req) w) = Ok (2, i, None, (t, None)))
      by (vm_compute; reflexivity).
    assert (Hs : Z.of_nat (size t) <> 2) by (vm_compute; discriminate).
    exists d, w.
    rewrite (proj2 (Remove_frees_number_and_keeps_nonempty_directory d req w 2 i He Hn)
               Hd Hi t Ht Hs).
    apply value_Ok in Ht as [w3 Ht]. unfold bind. rewrite Ht. reflexivity.
Defined.

(** ** What does hold of the superblock and of a one-chunk write *)

(** Whenever the length field of the first superblock is below
    [BLOCK_SIZE - 32], [makeFs] returns a stream with an empty stack: the
    bytes of the serialised stack are copied and never deserialised. *)
Lemma makeFs_short_list_empty_stack `{Gob} (super : DataBlock) (w : World) :
  len super = BLOCK_SIZE ->
  0 <= Uint64 (arraySlice super 24 32) < BLOCK_SIZE - 32 ->
  makeFs super w
  = Ok (mkFS (mkIntStream [] (Uint64 (take 8 (arraySlice super 0 8))))
             (Uint64 (arraySlice super 16 24)),
        setDataStream w (mkIntStream [] (Uint64 (take 8 (arraySlice super 8 16))))).
Proof.
  intros Hlen Hsize. unfold makeFs.
  set (listSize := Uint64 (arraySlice super 24 32)) in *.
  change BLOCK_SIZE with 32768 in *.
  replace (listSize <? 32768 - 32) with true by (symmetry; apply Z.ltb_lt; lia).
  assert (Hadd : add64 listSize 32 = listSize + 32).
  { unfold add64, wrap64. apply Z.mod_small. lia. }
  rewrite Hadd.
  assert (Hsub : sub64 (listSize + 32) 32 = listSize).
  { unfold sub64, wrap64. replace (listSize + 32 - 32) with listSize by lia.
    apply Z.mod_small. lia. }
  rewrite Hsub.
  assert (Hzero : sub64 listSize listSize = 0).
  { unfold sub64, wrap64. by rewrite Z.sub_diag. }
  rewrite Hzero.
  unfold bind at 1, modify. unfold bind at 1, lift.
  unfold goCopy.
  assert (Hok : slice_ok 0 listSize (len (makeBytes listSize))
                && slice_ok 32 (listSize + 32) (len super) = true).
  { unfold slice_ok, makeBytes, len. rewrite length_replicate.
    unfold len in Hlen. rewrite Hlen.
    repeat (apply andb_true_intro; split); apply Z.leb_le; lia. }
  rewrite Hok.
  change (add64 1 (0 / 32768) - 1) with 0. cbn [Z.to_N].
  unfold bind at 1, forLoop. cbn [N.iter snd].
  change (0 <? 0) with false. cbn iota. unfold ret.
  unfold decompressStream. cbn [lastInt stack]. reflexivity.
Qed.

(** X15: a content that fits the inode buffer, written in one chunk at
    offset 0, reads back, and neither call touches the store. *)
Lemma writeToData_inline_reads_back (i : Inode) (content : list Z) (w : World) :
  len (DataBuf i) = INODE_BUFFER_SIZE ->
  0 < len content <= INODE_BUFFER_SIZE ->
  exists i',
    writeToData i content 0 w = Ok (i', w)
    /\ readFromData i' 0 (len content) w = Ok ((content, None), w).
Proof.
  intros Hbuf Hc. change INODE_BUFFER_SIZE with 373 in *.
  set (n := len content) in *.
  assert (Hadd : add64 n 0 = n) by (unfold add64, wrap64; rewrite Z.add_0_r; apply Z.mod_small; lia).
  assert (Hsub : sub64 n 0 = n) by (unfold sub64, wrap64; rewrite Z.sub_0_r; apply Z.mod_small; lia).
  assert (Hnn : sub64 n n = 0) by (unfold sub64, wrap64; by rewrite Z.sub_diag).
  assert (Hend : (if n <? 373 then n else 373) = n).
  { destruct (Z.ltb_spec n 373); lia. }
  assert (Hlen : Z.to_nat n = length content) by (unfold n, len; lia).
  eexists. split.
  - unfold writeToData, updateSize. fold n. rewrite Hadd, Hsub.
    unfold bind at 1 2, get, ret. change (0 <? INODE_BUFFER_SIZE) with true. cbn iota.
    change INODE_BUFFER_SIZE with 373. rewrite Hend, Hsub.
    unfold bind at 1 2, lift, goCopy, goSliceFrom. cbn [DataBuf setSize setUnixTime].
    assert (Hok : slice_ok 0 n (len (DataBuf i)) && slice_ok 0 n (len content) = true).
    { unfold slice_ok. fold n. rewrite Hbuf.
      repeat (apply andb_true_intro; split); apply Z.leb_le; lia. }
    rewrite Hok.
    assert (Hok2 : slice_ok n (len content) (len content) = true).
    { unfold slice_ok. fold n.
      repeat (apply andb_true_intro; split); apply Z.leb_le; lia. }
    rewrite Hok2. unfold bind at 1.
    rewrite Hlen, drop_all. change (0 <? len []) with false. cbn iota.
    reflexivity.
  - unfold readFromData. cbn [Size setDataBuf setSize setUnixTime DataBuf].
    replace (0 >=? n) with false by (symmetry; lia).
    change (0 <? INODE_BUFFER_SIZE) with true. cbn iota.
    change INODE_BUFFER_SIZE with 373. rewrite Hadd, Hend, Hsub.
    unfold bind at 1 2, lift, goCopy.
    assert (Hok : slice_ok 0 n (len (makeBytes n))
                  && slice_ok 0 n (len (take (Z.to_nat 0) (DataBuf i)
                       ++ take (Z.to_nat (Z.min (n - 0) (n - 0))) (drop (Z.to_nat 0) content)
                       ++ drop (Z.to_nat 0 + Z.to_nat (Z.min (n - 0) (n - 0))) (DataBuf i))) = true).
    { unfold slice_ok, makeBytes, len. rewrite length_replicate, !length_app, !length_take, !length_drop.
      unfold len in Hbuf. fold (len content) in *. fold n.
      repeat (apply andb_true_intro; split); apply Z.leb_le; unfold n, len in *; lia. }
    rewrite Hok. unfold ret at 1. cbn iota. rewrite Hnn.
    change (0 <? 0) with false. cbn iota. unfold bind, ret.
    f_equal. f_equal. f_equal.
    rewrite Z.sub_0_r, Z.min_id. change (Z.to_nat 0) with 0%nat.
    cbn [Nat.add]. rewrite Hlen, !take_0, !drop_0. cbn [app].
    rewrite firstn_all, take_app_length.
    unfold makeBytes. rewrite Hlen, drop_ge by (rewrite length_replicate; lia).
    by rewrite app_nil_r.
Qed.

Lemma writeToData_inline_reads_back_witness :
  exists i',
    writeToData zeroInode bytes40 0 (newWorld 4 1000) = Ok (i', newWorld 4 1000)
    /\ readFromData i' 0 (len bytes40) (newWorld 4 1000)
       = Ok ((bytes40, None), newWorld 4 1000).
Proof.
  apply (writeToData_inline_reads_back zeroInode bytes40 (newWorld 4 1000)).
  - vm_compute. reflexivity.
  - vm_compute. split; [reflexivity|discriminate].
Defined.

(** With [req.Dir] unset the table of the entry is not looked at: the
    non-empty directory ["x"] is unlinked and its number freed. *)
Lemma Remove_without_Dir_flag_skips_the_check :
  value ((d <- rootWithNestedDir ;;
          r <- Remove d (fuse.mkRemoveRequest "x" false) ;;
          ret (r.1, stack (inodeStream r.2))) (newWorld 4 1000))
  = Ok (None, [2]).
Proof. vm_compute. reflexivity. Qed.

(** ** The block store *)

Lemma bind_Ok {A B} (m : M A) (f : A -> M B) (w : World) (a : A) (w1 : World) :
  m w = Ok (a, w1) -> bind m f w = f a w1.
Proof. intros Hm. unfold bind. by rewrite Hm. Qed.

Lemma keyHashAt_insert (c : Cache) (key k : Key) (e : option nat) :
  keyHashAt (CacheM.setKeyHash key e c) k
  = if decide (key = k) then e else keyHashAt c k.
Proof.
  unfold keyHashAt, CacheM.setKeyHash. cbn [keyHash].
  case_decide as Hk.
  - subst. rewrite lookup_insert_eq. by destruct e.
  - by rewrite lookup_insert_ne.
Qed.

(** [addBlock] stores the block under its key and leaves what every
    other key holds as it was. *)
Lemma addBlock_lookup (data : DataBlock) (key : Key) (w : World) :
  cache_inv w -> 0 < cacheCapacity (cache w) ->
  exists w',
    CacheM.addBlock data key w = Ok (None, w')
    /\ cache_inv w'
    /\ cacheCapacity (cache w') = cacheCapacity (cache w)
    /\ lookupBlock w' key = Some data
    /\ (forall k, k <> key -> lookupBlock w' k = lookupBlock w k)
    /\ dataStream w' = dataStream w /\ s3Deletes w' = s3Deletes w
    /\ clock w' = clock w.
Proof.
  intros Hinv Hcap.
  destruct (cache_step (OpAddBlock data key) w Hinv Hcap) as (w1 & Hrun & Hinv1 & Hcap1).
  cbn [runCacheOp] in Hrun. apply bind_Ok_inv in Hrun as (r & w' & Hadd & Hret).
  apply ret_Ok_inv in Hret as [_ ->].
  destruct (keyHashAt (cache w) key) as [e|] eqn:He.
  - rewrite (addBlock_tracked _ _ _ e He) in Hadd. injection Hadd as <- <-.
    eexists. split; [by apply addBlock_tracked|]. split; [done|]. split; [done|].
    unfold lookupBlock.
    cbn [cache setCache setDynamo dynamo bucket dataStream s3Deletes clock] in *.
    assert (Hk : forall k, keyHashAt (CacheM.moveToBack e (cache w)) k
                           = keyHashAt (cache w) k) by done.
    split; [by rewrite Hk, He, lookup_insert_eq|].
    split; [|done]. intros k Hne. by rewrite Hk, lookup_insert_ne.
  - destruct (decide (len (recentlyUsedQueue (cache w)) = cacheCapacity (cache w)))
      as [Hfull|Hroom].
    + destruct (recentlyUsedQueue (cache w)) as [|[e0 k0] q0] eqn:Hq;
        [unfold len in Hfull; cbn in Hfull; lia|].
      assert (Hin0 : (e0, k0) ∈ recentlyUsedQueue (cache w)) by (rewrite Hq; left).
      destruct (inv_table w Hinv e0 k0 Hin0) as [v Hv].
      assert (Hne0 : k0 <> key).
      { intros ->. apply (inv_keyHash w Hinv), keyHashAt_Some in Hin0. congruence. }
      assert (Hfull' : len (recentlyUsedQueue (cache w)) = cacheCapacity (cache w))
        by (rewrite Hq; done).
      pose proof (addBlock_full data key w e0 k0 q0 v He Hq Hfull' Hne0 Hv) as Heq.
      rewrite Heq in Hadd. injection Hadd as <- <-.
      eexists. split; [exact Heq|]. split; [done|]. split; [done|].
      unfold lookupBlock.
      cbn [cache setCache setDynamo setBucket dynamo bucket dataStream s3Deletes clock] in *.
      unfold CacheM.pushBack. cbn [keyHash cacheCapacity recentlyUsedQueue nextElement].
      assert (Hk : forall k,
                 keyHashAt
                   (mkCache (cacheCapacity (cache w))
                      (recentlyUsedQueue (CacheM.setKeyHash k0 None (CacheM.remove e0 (cache w)))
                         ++ [(nextElement (cache w), key)])
                      (<[key := Some (nextElement (cache w))]>
                         (keyHash (CacheM.setKeyHash k0 None (CacheM.remove e0 (cache w)))))
                      (S (nextElement (cache w)))) k
                 = if decide (key = k) then Some (nextElement (cache w))
                   else if decide (k0 = k) then None else keyHashAt (cache w) k).
      { intros k. unfold keyHashAt. cbn [keyHash CacheM.setKeyHash CacheM.remove].
        case_decide as H1; [subst; by rewrite lookup_insert_eq|].
        rewrite lookup_insert_ne by done.
        case_decide as H2; [subst; by rewrite lookup_insert_eq|].
        by rewrite lookup_insert_ne. }
      split.
      { rewrite Hk, decide_True by done.
        by rewrite lookup_delete_ne, lookup_insert_eq. }
      split; [|done]. intros k Hne. rewrite Hk, decide_False by done.
      case_decide as H2.
      * subst k. rewrite lookup_insert_eq.
        apply (inv_keyHash w Hinv), keyHashAt_Some in Hin0. by rewrite Hin0, Hv.
      * by rewrite lookup_delete_ne, !lookup_insert_ne.
    + pose proof (addBlock_room data key w He Hroom) as Heq.
      rewrite Heq in Hadd. injection Hadd as <- <-.
      eexists. split; [exact Heq|]. split; [done|]. split; [done|].
      unfold lookupBlock.
      cbn [cache setCache setDynamo dynamo bucket dataStream s3Deletes clock] in *.
      assert (Hk : forall k, keyHashAt (CacheM.pushBack key (cache w)) k
                 = if decide (key = k) then Some (nextElement (cache w))
                   else keyHashAt (cache w) k).
      { intros k. unfold keyHashAt, CacheM.pushBack. cbn [keyHash].
        case_decide as H1; [subst; by rewrite lookup_insert_eq|].
        by rewrite lookup_insert_ne. }
      split; [by rewrite Hk, decide_True, lookup_insert_eq|].
      split; [|done]. intros k Hne.
      by rewrite Hk, decide_False, lookup_insert_ne.
Qed.

Lemma goCopy_length (dst : list Z) (dlo dhi : Z) (src : list Z) (slo shi : Z)
    (r : list Z) :
  goCopy dst dlo dhi src slo shi = Ok r -> length r = length dst.
Proof.
  unfold goCopy. destruct (slice_ok dlo dhi (len dst) && slice_ok slo shi (len src)) eqn:Hok;
    [|done].
  intros [= <-]. unfold slice_ok, len in Hok.
  apply andb_prop in Hok as [H1 H2].
  apply andb_prop in H1 as [H1 H1c]. apply andb_prop in H1 as [H1a H1b].
  apply andb_prop in H2 as [H2 H2c]. apply andb_prop in H2 as [H2a H2b].
  apply Z.leb_le in H1a, H1b, H1c, H2a, H2b, H2c.
  rewrite !length_app, !length_take, !length_drop. lia.
Qed.

Lemma slice_ok_true (lo hi cap : Z) : 0 <= lo <= hi -> hi <= cap -> slice_ok lo hi cap = true.
Proof.
  intros [H1 H2] H3. unfold slice_ok.
  repeat (apply andb_true_intro; split); by apply Z.leb_le.
Qed.

Lemma makeBytes_len (n : Z) : 0 <= n -> len (makeBytes n) = n.
Proof.
  intros Hn. unfold makeBytes, len. rewrite length_replicate. lia.
Qed.

Lemma BLOCK_SIZE_pos : 0 < BLOCK_SIZE.
Proof. reflexivity. Qed.

(** Copying a whole slice over a new one of its length gives the slice. *)
Lemma goCopy_whole (n : Z) (v : list Z) :
  len v = n -> goCopy (makeBytes n) 0 n v 0 (len v) = Ok v.
Proof.
  intros Hv. unfold goCopy.
  assert (Hn : 0 <= n) by (unfold len in Hv; lia).
  rewrite makeBytes_len, Hv by done.
  rewrite !slice_ok_true by lia. cbn [andb]. f_equal.
  rewrite Z.sub_0_r, Z.min_id. change (Z.to_nat 0) with 0%nat.
  rewrite take_0, drop_0. cbn [app Nat.add].
  assert (Hl : Z.to_nat n = length v) by (unfold len in Hv; lia).
  rewrite Hl, firstn_all.
  rewrite drop_ge; [by rewrite app_nil_r|].
  unfold makeBytes. rewrite length_replicate. lia.
Qed.

Lemma goCopy_whole_block (v : list Z) :
  len v = BLOCK_SIZE -> goCopy newDataBlock 0 BLOCK_SIZE v 0 (len v) = Ok v.
Proof. unfold newDataBlock. apply goCopy_whole. Qed.

(** [getDataByKey] returns what the store holds under the key, or a new
    block and an error when it holds nothing, and leaves what every key
    holds as it was. *)
Lemma getDataByKey_lookup (key : Key) (w : World) :
  store_inv w ->
  exists w',
    getDataByKey key w
    = Ok (match lookupBlock w key with
          | Some v => (v, None)
          | None => (newDataBlock, Some ErrNoSuchKey)
          end, w')
    /\ store_inv w'
    /\ cacheCapacity (cache w') = cacheCapacity (cache w)
    /\ (forall k, lookupBlock w' k = lookupBlock w k)
    /\ dataStream w' = dataStream w /\ s3Deletes w' = s3Deletes w
    /\ clock w' = clock w.
Proof.
  intros [Hinv Hcap Hsized]. unfold getDataByKey.
  assert (Hlk : lookupBlock w key
                = match keyHashAt (cache w) key, dynamo w !! key with
                  | Some _, Some v => Some v
                  | _, _ => bucket w !! key
                  end) by done.
  destruct (keyHashAt (cache w) key) as [e|] eqn:He.
  - assert (Hin : (e, key) ∈ recentlyUsedQueue (cache w))
      by by apply (inv_keyHash w Hinv), keyHashAt_Some.
    destruct (inv_table w Hinv e key Hin) as [v Hv]. rewrite Hv in Hlk.
    rewrite Hlk. pose proof (Hsized key v Hlk) as Hlen.
    rewrite (bind_Ok _ _ w (v, None) (setCache w (CacheM.moveToBack e (cache w))))
      by (unfold CacheM.getBlock, bind, get, modify, ret; by rewrite He, Hv).
    cbn [fst snd].
    unfold bind, ret, lift. rewrite (goCopy_whole_block v Hlen).
    eexists. split; [reflexivity|].
    assert (Hinv' : cache_inv (setCache w (CacheM.moveToBack e (cache w)))).
    { eapply cache_inv_ext;
        [| |apply (cache_inv_moveToBack w (dynamo w) e key Hinv Hin)]; done. }
    split; [|done]. split; [done|done|].
    intros k v0 Hk0. by apply (Hsized k).
  - rewrite Hlk. rewrite (bind_Ok _ _ w ([], Some ErrCacheMiss) w)
      by (unfold CacheM.getBlock, bind, get, ret; by rewrite He).
    cbn [snd]. rewrite (bind_Ok _ _ w w w) by done.
    destruct (bucket w !! key) as [body|] eqn:Hb.
    + pose proof (Hsized key body Hlk) as Hlen.
      replace (len body <? BLOCK_SIZE) with false by (symmetry; apply Z.ltb_ge; lia).
      assert (Htake : take (Z.to_nat BLOCK_SIZE) body = body).
      { rewrite <- Hlen. unfold len. rewrite Nat2Z.id. apply firstn_all. }
      rewrite Htake.
      destruct (addBlock_lookup body key w Hinv Hcap)
        as (w' & Hadd & Hinv' & Hcap' & Hkey & Hother & Hds & Hlog & Hclk).
      rewrite (bind_Ok _ _ w None w') by done.
      exists w'. split; [done|].
      assert (Hall : forall k, lookupBlock w' k = lookupBlock w k).
      { intros k. destruct (decide (k = key)) as [->|Hne]; [by rewrite Hkey, Hlk|by apply Hother]. }
      split; [|done]. split; [done|lia|].
      intros k v0. rewrite Hall. apply Hsized.
    + exists w. done.
Qed.

(** [putDataByKey] stores the block. *)
Lemma putDataByKey_lookup (key : Key) (data : DataBlock) (w : World) :
  store_inv w -> len data = BLOCK_SIZE ->
  exists w',
    putDataByKey key data w = Ok (None, w')
    /\ store_inv w'
    /\ cacheCapacity (cache w') = cacheCapacity (cache w)
    /\ lookupBlock w' key = Some data
    /\ (forall k, k <> key -> lookupBlock w' k = lookupBlock w k)
    /\ dataStream w' = dataStream w /\ s3Deletes w' = s3Deletes w
    /\ clock w' = clock w.
Proof.
  intros [Hinv Hcap Hsized] Hlen.
  destruct (addBlock_lookup data key w Hinv Hcap)
    as (w' & Hadd & Hinv' & Hcap' & Hkey & Hother & Hrest).
  exists w'. unfold putDataByKey. rewrite (bind_Ok _ _ w None w') by done.
  split; [done|]. split; [|done].
  split; [done|lia|]. intros k v.
  destruct (decide (k = key)) as [->|Hne].
  - rewrite Hkey. by intros [= <-].
  - rewrite Hother by done. apply Hsized.
Qed.

(** [deleteBlock] leaves nothing under the key of the block, sends one
    delete request to the bucket and never fails. *)
Lemma deleteBlock_lookup (dataNum : Z) (w : World) :
  store_inv w ->
  exists w',
    deleteBlock dataNum w = Ok (None, w')
    /\ store_inv w'
    /\ cacheCapacity (cache w') = cacheCapacity (cache w)
    /\ lookupBlock w' (genDataKey dataNum) = None
    /\ (forall k, k <> genDataKey dataNum -> lookupBlock w' k = lookupBlock w k)
    /\ dataStream w' = dataStream w
    /\ s3Deletes w' = genDataKey dataNum :: s3Deletes w
    /\ clock w' = clock w.
Proof.
  intros [Hinv Hcap Hsized]. unfold deleteBlock. cbv zeta.
  set (key := genDataKey dataNum).
  assert (Hgoal : forall w1 cacheErr,
    cache_inv w1 ->
    cacheCapacity (cache w1) = cacheCapacity (cache w) ->
    dataStream w1 = dataStream w -> s3Deletes w1 = s3Deletes w -> clock w1 = clock w ->
    bucket w1 = bucket w ->
    keyHashAt (cache w1) key = None ->
    (forall k, k <> key -> keyHashAt (cache w1) k = keyHashAt (cache w) k) ->
    (forall k, k <> key -> dynamo w1 !! k = dynamo w !! k) ->
    exists w',
      (modify (fun w0 => logS3Delete (setBucket w0 (delete key (bucket w0))) key) ;;;
       match (None : option error), (cacheErr : option error) with
       | Some _, Some _ => ret (Some ErrDeleteBoth)
       | _, _ => ret None
       end) w1 = Ok (None, w')
      /\ store_inv w'
      /\ cacheCapacity (cache w') = cacheCapacity (cache w)
      /\ lookupBlock w' key = None
      /\ (forall k, k <> key -> lookupBlock w' k = lookupBlock w k)
      /\ dataStream w' = dataStream w
      /\ s3Deletes w' = key :: s3Deletes w
      /\ clock w' = clock w).
  { intros w1 cacheErr Hinv1 Hcap1 Hds Hlog Hclk Hbk Hkey Hkh Hdyn.
    eexists. split; [unfold bind, modify, ret; by destruct cacheErr|].
    assert (Hlook : forall k,
              lookupBlock (logS3Delete (setBucket w1 (delete key (bucket w1))) key) k
              = if decide (k = key) then None else lookupBlock w k).
    { intros k. unfold lookupBlock.
      cbn [cache dynamo bucket logS3Delete setBucket].
      case_decide as Hk.
      - subst k. by rewrite Hkey, Hbk, lookup_delete_eq.
      - by rewrite Hkh, Hdyn, Hbk, lookup_delete_ne by done. }
    split; [|split; [done|]].
    - split.
      + eapply cache_inv_ext; [| |exact Hinv1]; done.
      + cbn [cache logS3Delete setBucket]. lia.
      + intros k v. rewrite Hlook. case_decide; [done|]. apply Hsized.
    - split; [by rewrite Hlook, decide_True|].
      split; [intros k Hk; by rewrite Hlook, decide_False|].
      cbn [dataStream s3Deletes clock logS3Delete setBucket].
      by rewrite Hds, Hlog, Hclk. }
  destruct (keyHashAt (cache w) key) as [e|] eqn:He.
  - rewrite (bind_Ok _ _ w None
               (setDynamo (setCache w (CacheM.setKeyHash key None (CacheM.remove e (cache w))))
                  (delete key (dynamo w))))
      by (unfold CacheM.deleteBlock, bind, get, modify, ret; by rewrite He).
    apply (Hgoal _ None); cbn [cache dynamo bucket dataStream s3Deletes clock setCache setDynamo];
      try done.
    + eapply cache_inv_ext;
        [| |apply (cache_inv_remove w e key (bucket w) Hinv)]; [done|done|].
      by apply (inv_keyHash w Hinv), keyHashAt_Some.
    + rewrite keyHashAt_insert. by rewrite decide_True.
    + intros k Hk. rewrite keyHashAt_insert. by rewrite decide_False.
    + intros k Hk. by rewrite lookup_delete_ne.
  - rewrite (bind_Ok _ _ w (Some ErrCacheRemove) w)
      by (unfold CacheM.deleteBlock, bind, get, ret; by rewrite He).
    apply (Hgoal _ (Some ErrCacheRemove)); done.
Qed.

Lemma store_inv_initial (cacheSize : Z) (w0 : World) :
  0 < cacheSize ->
  (forall k v, bucket w0 !! k = Some v -> len v = BLOCK_SIZE) ->
  store_inv (setCache w0 (CacheM.initializeCache cacheSize)).
Proof.
  intros Hc Hb. split.
  - apply cache_inv_initial. lia.
  - done.
  - intros k v. unfold lookupBlock, keyHashAt.
    cbn [cache setCache CacheM.initializeCache keyHash bucket dynamo].
    rewrite lookup_empty. apply Hb.
Qed.

Lemma runStoreOp_lookup (op : StoreOp) (w : World) (m : gmap Key (list Z)) :
  store_inv w -> (forall k, lookupBlock w k = m !! k) -> sizedOp op ->
  exists w',
    runStoreOp op w = Ok (tt, w')
    /\ store_inv w'
    /\ (forall k, lookupBlock w' k = storeModelStep m op !! k)
    /\ dataStream w' = dataStream w.
Proof.
  intros Hinv Hm Hop. destruct op as [key data|key|dataNum]; cbn [runStoreOp storeModelStep].
  - destruct (putDataByKey_lookup key data w Hinv Hop)
      as (w' & Hrun & Hinv' & _ & Hkey & Hother & Hds & _).
    exists w'. rewrite (bind_Ok _ _ w None w') by done.
    split; [done|]. split; [done|]. split; [|done].
    intros k. destruct (decide (k = key)) as [->|Hne].
    + by rewrite lookup_insert_eq.
    + rewrite lookup_insert_ne by done. rewrite Hother by done. apply Hm.
  - destruct (getDataByKey_lookup key w Hinv)
      as (w' & Hrun & Hinv' & _ & Hall & Hds & _).
    exists w'. rewrite (bind_Ok _ _ w _ w' Hrun).
    split; [done|]. split; [done|]. split; [|done].
    intros k. rewrite Hall. apply Hm.
  - destruct (deleteBlock_lookup dataNum w Hinv)
      as (w' & Hrun & Hinv' & _ & Hkey & Hother & Hds & _).
    exists w'. rewrite (bind_Ok _ _ w None w') by done.
    split; [done|]. split; [done|]. split; [|done].
    intros k. destruct (decide (k = genDataKey dataNum)) as [->|Hne].
    + by rewrite lookup_delete_eq.
    + rewrite lookup_delete_ne by done. rewrite Hother by done. apply Hm.
Qed.

Lemma runStoreOps_lookup (ops : list StoreOp) (w : World) (m : gmap Key (list Z)) :
  store_inv w -> (forall k, lookupBlock w k = m !! k) -> Forall sizedOp ops ->
  exists w',
    runStoreOps ops w = Ok (tt, w')
    /\ store_inv w'
    /\ (forall k, lookupBlock w' k = storeModel ops m !! k)
    /\ dataStream w' = dataStream w.
Proof.
  revert w m. induction ops as [|op ops IH]; intros w m Hinv Hm Hops.
  - exists w. done.
  - apply Forall_cons in Hops as [Hop Hops].
    destruct (runStoreOp_lookup op w m Hinv Hm Hop) as (w1 & Hrun1 & Hinv1 & Hm1 & Hds1).
    destruct (IH w1 _ Hinv1 Hm1 Hops) as (w2 & Hrun2 & Hinv2 & Hm2 & Hds2).
    exists w2. cbn [runStoreOps]. rewrite (bind_Ok _ _ w tt w1) by done.
    split; [done|]. split; [done|]. split; [done|congruence].
Qed.

(** X1: the cache, the table and the bucket together behave as one map
    from keys to blocks.  After any sequence of [putDataByKey],
    [getDataByKey] and [deleteBlock] calls on a store whose cache holds
    at least one block, whatever was evicted in between, [getDataByKey]
    returns the block a plain map would hold under the key, and a new
    block with an error when the map holds none. *)
Theorem block_store_is_a_map (cacheSize : Z) (w0 : World) (ops : list StoreOp) (key : Key) :
  0 < cacheSize ->
  (forall k v, bucket w0 !! k = Some v -> len v = BLOCK_SIZE) ->
  Forall sizedOp ops ->
  exists w,
    (runStoreOps ops ;;; getDataByKey key)
      (setCache w0 (CacheM.initializeCache cacheSize))
    = Ok (match storeModel ops (bucket w0) !! key with
          | Some v => (v, None)
          | None => (newDataBlock, Some ErrNoSuchKey)
          end, w)
    /\ dataStream w = dataStream w0.
Proof.
  intros Hc Hb Hops.
  pose proof (store_inv_initial cacheSize w0 Hc Hb) as Hinv.
  destruct (runStoreOps_lookup ops _ (bucket w0) Hinv) as (w1 & Hrun & Hinv1 & Hm & Hds);
    [|done|].
  { intros k. unfold lookupBlock, keyHashAt.
    cbn [cache setCache CacheM.initializeCache keyHash bucket dynamo].
    by rewrite lookup_empty. }
  destruct (getDataByKey_lookup key w1 Hinv1) as (w2 & Hget & _ & _ & _ & Hds2 & _).
  exists w2. rewrite (bind_Ok _ _ _ tt w1) by done.
  rewrite Hget, Hm. split; [done|]. by rewrite Hds2, Hds.
Qed.

Lemma block_store_is_a_map_witness :
  0 < 1
  /\ exists w,
       (runStoreOps [StPut (DataKey 1) (replicate (Z.to_nat BLOCK_SIZE) 1); StPut (InodeBlockKey 0) newDataBlock;
                     StDelete 7; StGet (DataKey 7); StPut (DataKey 2) newDataBlock]
        ;;; getDataByKey (DataKey 1))
         (setCache (mkWorld ∅ {[DataKey 7 := newDataBlock]} (CacheM.initializeCache 0)
                            (mkIntStream [] 1) 0 [])
                   (CacheM.initializeCache 1))
       = Ok ((replicate (Z.to_nat BLOCK_SIZE) 1, None), w).
Proof.
  assert (H1 : 0 < 1) by lia.
  split; [exact H1|].
  destruct (block_store_is_a_map 1
              (mkWorld ∅ {[DataKey 7 := newDataBlock]} (CacheM.initializeCache 0)
                       (mkIntStream [] 1) 0 [])
              [StPut (DataKey 1) (replicate (Z.to_nat BLOCK_SIZE) 1); StPut (InodeBlockKey 0) newDataBlock;
               StDelete 7; StGet (DataKey 7); StPut (DataKey 2) newDataBlock]
              (DataKey 1) H1)
    as (w & Hrun & _).
  - intros k v. cbn [bucket]. intros [_ <-]%lookup_singleton_Some. vm_compute. reflexivity.
  - repeat constructor; vm_compute; reflexivity.
  - exists w. exact Hrun.
Defined.

(** ** The inode codec *)

Lemma concat_le_bytes_length (l : list Z) :
  length (concat (map (le_bytes 8) l)) = (8 * length l)%nat.
Proof.
  induction l as [|a l IH]; [done|].
  cbn [map concat]. rewrite length_app, le_bytes_length, IH. cbn [length]. lia.
Qed.

Lemma concat_le_bytes_nth (l : list Z) (k : nat) :
  Forall is_u64 l -> (k < length l)%nat ->
  le_value (take 8 (drop (8 * k) (concat (map (le_bytes 8) l)))) = nth k l 0.
Proof.
  intros Hl. revert k. induction Hl as [|a l Ha Hl IH]; intros k Hk.
  - cbn in Hk. lia.
  - cbn [map concat]. destruct k as [|k].
    + change (8 * 0)%nat with 0%nat. rewrite drop_0.
      rewrite take_app_length' by (by rewrite le_bytes_length).
      cbn [nth]. apply le_value_le_bytes. unfold is_u64 in Ha.
      change (256 ^ Z.of_nat 8) with (2 ^ 64). lia.
    + replace (8 * S k)%nat with (length (le_bytes 8 a) + 8 * k)%nat
        by (rewrite le_bytes_length; lia).
      rewrite drop_app_add. cbn [nth]. apply IH. cbn [length] in Hk. lia.
Qed.

Lemma to_signed_wrap (bits : Z) (x : Z) :
  0 < bits -> - 2 ^ (bits - 1) <= x < 2 ^ (bits - 1) ->
  to_signed bits (x mod 2 ^ bits) = x.
Proof.
  intros Hb Hx. unfold to_signed.
  assert (Hp : 2 ^ bits = 2 * 2 ^ (bits - 1)).
  { rewrite <- Z.pow_succ_r by lia. f_equal. lia. }
  destruct (Z.ltb_spec x 0) as [Hneg|Hpos].
  - replace (x mod 2 ^ bits) with (x + 2 ^ bits).
    + destruct (Z.ltb_spec (x + 2 ^ bits) (2 ^ (bits - 1))); lia.
    + apply Z.mod_unique with (-1); lia.
  - rewrite Z.mod_small by lia.
    destruct (Z.ltb_spec x (2 ^ (bits - 1))); lia.
Qed.

Lemma inode_codec (i : Inode) :
  inode_wf i ->
  len (encodeInode i) = INODE_SIZE /\ decodeInode (encodeInode i) = i.
Proof.
  intros [HS HL HU HD HB HDl HDa].
  assert (HBn : length (DataBuf i) = 373%nat).
  { unfold len in HB. change INODE_BUFFER_SIZE with 373 in HB. lia. }
  assert (HDn : length (Data i) = 15%nat) by (unfold len in HDl; lia).
  split.
  - unfold encodeInode, len.
    rewrite !length_app, !le_bytes_length, concat_le_bytes_length, HBn, HDn. done.
  - unfold decodeInode, encodeInode.
    set (A := le_bytes 8 (Size i)). set (B := le_bytes 2 (LinkCount i)).
    set (C := le_bytes 8 (wrap64 (UnixTime i))). set (D := le_bytes 1 (IsDir i mod 256)).
    set (F := concat (map (le_bytes 8) (Data i))).
    assert (HA : length A = 8%nat) by apply le_bytes_length.
    assert (HBl : length B = 2%nat) by apply le_bytes_length.
    assert (HC : length C = 8%nat) by apply le_bytes_length.
    assert (HDd : length D = 1%nat) by apply le_bytes_length.
    assert (H8 : drop 8 (A ++ B ++ C ++ D ++ DataBuf i ++ F) = B ++ C ++ D ++ DataBuf i ++ F)
      by by apply drop_app_length'.
    assert (H10 : drop 10 (A ++ B ++ C ++ D ++ DataBuf i ++ F) = C ++ D ++ DataBuf i ++ F).
    { change 10%nat with (8 + 2)%nat. rewrite <- drop_drop, H8. by apply drop_app_length'. }
    assert (H18 : drop 18 (A ++ B ++ C ++ D ++ DataBuf i ++ F) = D ++ DataBuf i ++ F).
    { change 18%nat with (10 + 8)%nat. rewrite <- drop_drop, H10. by apply drop_app_length'. }
    assert (H19 : drop 19 (A ++ B ++ C ++ D ++ DataBuf i ++ F) = DataBuf i ++ F).
    { change 19%nat with (18 + 1)%nat. rewrite <- drop_drop, H18. by apply drop_app_length'. }
    assert (H392 : forall k, drop (392 + 8 * k) (A ++ B ++ C ++ D ++ DataBuf i ++ F)
                             = drop (8 * k) F).
    { intros k. replace (392 + 8 * k)%nat with (19 + (373 + 8 * k))%nat by lia.
      rewrite <- drop_drop, H19. rewrite <- HBn. apply drop_app_add. }
    assert (HF : map (fun k : nat => le_value (take 8 (drop (392 + 8 * k)
                                       (A ++ B ++ C ++ D ++ DataBuf i ++ F)))) (seq 0 15)
                 = Data i).
    { apply list_eq. intros k. rewrite list_lookup_fmap.
      destruct (decide (k < 15)%nat) as [Hk|Hk].
      - rewrite lookup_seq_lt by done. change (0 + k)%nat with k.
        cbn [fmap option_fmap option_map].
        rewrite H392. subst F. rewrite concat_le_bytes_nth by (done || lia).
        destruct (lookup_lt_is_Some_2 (Data i) k ltac:(lia)) as [x Hx].
        rewrite Hx. f_equal. by apply nth_lookup_Some.
      - rewrite lookup_seq_ge by lia. cbn. symmetry. apply lookup_ge_None. lia. }
    rewrite HF, H8, H10, H18, H19.
    rewrite !take_app_length' by done.
    subst A B C D.
    rewrite !le_value_le_bytes.
    + unfold wrap64. rewrite (to_signed_wrap 64) by lia.
      change 256 with (2 ^ 8). rewrite (to_signed_wrap 8 (IsDir i)) by lia.
      by destruct i.
    + change (256 ^ Z.of_nat 1) with 256. apply Z.mod_pos_bound. lia.
    + change (256 ^ Z.of_nat 8) with (2 ^ 64). unfold wrap64. apply Z.mod_pos_bound. lia.
    + change (256 ^ Z.of_nat 2) with (2 ^ 16). lia.
    + change (256 ^ Z.of_nat 8) with (2 ^ 64). unfold is_u64 in HS. lia.
Qed.

(** X2: [binary.Write] of an inode gives [INODE_SIZE] bytes, and
    [binary.Read] of these bytes gives the inode back, negative times and
    flags included. *)
Theorem decodeInode_encodeInode (i : Inode) :
  inode_wf i ->
  len (encodeInode i) = INODE_SIZE /\ decodeInode (encodeInode i) = i.
Proof. apply inode_codec. Qed.

Lemma decodeInode_encodeInode_witness :
  inode_wf (mkInode 1000 2 (-5) (-1) (makeBytes INODE_BUFFER_SIZE) (replicate 15 7))
  /\ len (encodeInode (mkInode 1000 2 (-5) (-1) (makeBytes INODE_BUFFER_SIZE)
                               (replicate 15 7))) = INODE_SIZE
  /\ decodeInode (encodeInode (mkInode 1000 2 (-5) (-1) (makeBytes INODE_BUFFER_SIZE)
                                       (replicate 15 7)))
     = mkInode 1000 2 (-5) (-1) (makeBytes INODE_BUFFER_SIZE) (replicate 15 7).
Proof.
  assert (Hwf : inode_wf (mkInode 1000 2 (-5) (-1) (makeBytes INODE_BUFFER_SIZE)
                                  (replicate 15 7))).
  { split; cbn [Size LinkCount UnixTime IsDir DataBuf Data];
      [unfold is_u64; lia|lia|lia|lia|vm_compute; reflexivity|vm_compute; reflexivity|].
    repeat constructor; unfold is_u64; lia. }
  split; [exact Hwf|].
  exact (decodeInode_encodeInode _ Hwf).
Defined.

(** ** Inodes in their blocks *)

Lemma lift_Ok {A} (o : Outcome A) (a : A) (w : World) : o = Ok a -> lift o w = Ok (a, w).
Proof. by intros ->. Qed.

Lemma goSlice_eq (l : list Z) (lo hi : Z) :
  0 <= lo <= hi -> hi <= len l ->
  goSlice l lo hi = Ok (take (Z.to_nat (hi - lo)) (drop (Z.to_nat lo) l)).
Proof. intros H1 H2. unfold goSlice. by rewrite slice_ok_true. Qed.

Lemma goCopy_eq (dst : list Z) (dlo dhi : Z) (src : list Z) (slo shi : Z) :
  0 <= dlo <= dhi -> dhi <= len dst -> 0 <= slo <= shi -> shi <= len src ->
  goCopy dst dlo dhi src slo shi
  = Ok (take (Z.to_nat dlo) dst
          ++ take (Z.to_nat (Z.min (dhi - dlo) (shi - slo))) (drop (Z.to_nat slo) src)
          ++ drop (Z.to_nat dlo + Z.to_nat (Z.min (dhi - dlo) (shi - slo))) dst).
Proof. intros H1 H2 H3 H4. unfold goCopy. by rewrite !slice_ok_true. Qed.

(** A slice put over the middle of a list, and what the list holds then. *)
Lemma splice_lookup (blk src : list Z) (s j : nat) :
  (s + length src <= length blk)%nat ->
  (take s blk ++ src ++ drop (s + length src) blk) !! j
  = if decide (j < s)%nat then blk !! j
    else if decide (j < s + length src)%nat then src !! (j - s)%nat
    else blk !! j.
Proof.
  intros Hs. assert (Ht : length (take s blk) = s) by (rewrite length_take; lia).
  case_decide as H1.
  - rewrite lookup_app_l by lia. rewrite lookup_take. by rewrite decide_True.
  - rewrite lookup_app_r by lia. rewrite Ht. case_decide as H2.
    + by rewrite lookup_app_l by lia.
    + rewrite lookup_app_r by lia. rewrite lookup_drop. f_equal. lia.
Qed.

Lemma splice_same (blk src : list Z) (s : nat) :
  (s + length src <= length blk)%nat ->
  take (length src) (drop s (take s blk ++ src ++ drop (s + length src) blk)) = src.
Proof.
  intros Hs. rewrite drop_app_length' by (rewrite length_take; lia).
  apply take_app_length.
Qed.

Lemma splice_other (blk src : list Z) (s t n : nat) :
  (s + length src <= length blk)%nat ->
  (t + n <= s \/ s + length src <= t)%nat ->
  take n (drop t (take s blk ++ src ++ drop (s + length src) blk))
  = take n (drop t blk).
Proof.
  intros Hs Ht. apply list_eq. intros j. rewrite !lookup_take.
  case_decide as Hj; [|done]. rewrite !lookup_drop, splice_lookup by done.
  repeat case_decide; (done || lia).
Qed.

Lemma splice_length (blk src : list Z) (s : nat) :
  (s + length src <= length blk)%nat ->
  length (take s blk ++ src ++ drop (s + length src) blk) = length blk.
Proof. intros Hs. rewrite !length_app, length_take, length_drop. lia. Qed.

Lemma newDataBlock_len : len newDataBlock = BLOCK_SIZE.
Proof. unfold newDataBlock. apply makeBytes_len. unfold BLOCK_SIZE. lia. Qed.

(** Where inode [n] lies in its block. *)
Lemma inode_slot (n : Z) :
  mul64 (n mod (BLOCK_SIZE / INODE_SIZE)) INODE_SIZE = n mod 64 * 512
  /\ add64 (mul64 (n mod (BLOCK_SIZE / INODE_SIZE)) INODE_SIZE) INODE_SIZE
     = n mod 64 * 512 + 512
  /\ 0 <= n mod 64 * 512 /\ n mod 64 * 512 + 512 <= BLOCK_SIZE.
Proof.
  change (BLOCK_SIZE / INODE_SIZE) with 64. change INODE_SIZE with 512.
  change BLOCK_SIZE with 32768.
  pose proof (Z.mod_pos_bound n 64 ltac:(lia)) as Hm.
  unfold add64, mul64, wrap64. change (2 ^ 64) with 18446744073709551616.
  rewrite (Z.mod_small (n mod 64 * 512)) by lia.
  rewrite (Z.mod_small (n mod 64 * 512 + 512)) by lia. lia.
Qed.

(** [getInode] decodes the slot of the inode in the block the store holds
    for it; without such a block it returns a zero inode and the error. *)
Lemma getInode_lookup (n : Z) (w : World) :
  store_inv w ->
  exists w',
    getInode n w
    = Ok (match lookupBlock w (genInodeBlockKey n) with
          | Some blk =>
              (decodeInode (take 512 (drop (Z.to_nat (n mod 64 * 512)) blk)), None)
          | None => (zeroInode, Some ErrNoSuchKey)
          end, w')
    /\ store_inv w'
    /\ (forall k, lookupBlock w' k = lookupBlock w k)
    /\ dataStream w' = dataStream w /\ s3Deletes w' = s3Deletes w
    /\ clock w' = clock w.
Proof.
  intros Hinv.
  destruct (getDataByKey_lookup (genInodeBlockKey n) w Hinv)
    as (w' & Hget & Hinv' & _ & Hall & Hrest).
  exists w'. split; [|done].
  unfold getInode, getInodeBlock. rewrite (bind_Ok _ _ w _ w' Hget).
  destruct (inode_slot n) as (-> & -> & H0 & H1).
  destruct (lookupBlock w (genInodeBlockKey n)) as [blk|] eqn:Hblk; cbn [fst snd].
  - pose proof (st_sized w Hinv _ _ Hblk) as Hlen.
    rewrite (bind_Ok _ _ w' _ w' (lift_Ok _ _ w' (goSlice_eq blk (n mod 64 * 512) (n mod 64 * 512 + 512)
                                 ltac:(lia) ltac:(lia)))).
    replace (n mod 64 * 512 + 512 - n mod 64 * 512) with 512 by lia. done.
  - pose proof newDataBlock_len as Hlen.
    rewrite (bind_Ok _ _ w' _ w'
               (lift_Ok _ _ w' (goSlice_eq newDataBlock (n mod 64 * 512) (n mod 64 * 512 + 512)
                                       ltac:(lia) ltac:(lia)))).
    done.
Qed.

(** [putInode] puts the encoded inode over its slot of the block the
    store holds, or of a new block when the store holds none and the
    number allows it, and stores the block. *)
Lemma putInode_lookup (i : Inode) (n : Z) (w : World) :
  store_inv w -> len (encodeInode i) = INODE_SIZE ->
  is_Some (lookupBlock w (genInodeBlockKey n)) \/ n mod 64 = 0 \/ n = 1 ->
  exists w' blk,
    putInode i n w = Ok (None, w')
    /\ store_inv w'
    /\ blk = default newDataBlock (lookupBlock w (genInodeBlockKey n))
    /\ len blk = BLOCK_SIZE
    /\ lookupBlock w' (genInodeBlockKey n)
       = Some (take (Z.to_nat (n mod 64 * 512)) blk ++ encodeInode i
                 ++ drop (Z.to_nat (n mod 64 * 512) + length (encodeInode i)) blk)
    /\ (forall k, k <> genInodeBlockKey n -> lookupBlock w' k = lookupBlock w k)
    /\ dataStream w' = dataStream w /\ s3Deletes w' = s3Deletes w
    /\ clock w' = clock w.
Proof.
  intros Hinv Henc Hblock.
  destruct (getDataByKey_lookup (genInodeBlockKey n) w Hinv)
    as (w1 & Hget & Hinv1 & _ & Hall & Hds1 & Hlog1 & Hclk1).
  destruct (inode_slot n) as (Hstart & Hend & H0 & H1).
  set (blk := default newDataBlock (lookupBlock w (genInodeBlockKey n))).
  assert (Hblk : len blk = BLOCK_SIZE).
  { subst blk. destruct (lookupBlock w (genInodeBlockKey n)) as [b|] eqn:Hb; cbn [default].
    - by apply (st_sized w Hinv _ _ Hb).
    - apply newDataBlock_len. }
  assert (Hcopy : goCopy blk (n mod 64 * 512) (n mod 64 * 512 + 512) (encodeInode i) 0 INODE_SIZE
                  = Ok (take (Z.to_nat (n mod 64 * 512)) blk ++ encodeInode i
                          ++ drop (Z.to_nat (n mod 64 * 512) + length (encodeInode i)) blk)).
  { rewrite goCopy_eq by (rewrite ?Henc; unfold INODE_SIZE; lia).
    replace (Z.min (n mod 64 * 512 + 512 - n mod 64 * 512) (INODE_SIZE - 0))
      with (len (encodeInode i)) by (rewrite Henc; unfold INODE_SIZE; lia).
    unfold len. rewrite Nat2Z.id. change (Z.to_nat 0) with 0%nat.
    by rewrite drop_0, firstn_all. }
  assert (Hnew : len (take (Z.to_nat (n mod 64 * 512)) blk ++ encodeInode i
                        ++ drop (Z.to_nat (n mod 64 * 512) + length (encodeInode i)) blk)
                 = BLOCK_SIZE).
  { unfold len. erewrite goCopy_length by exact Hcopy. exact Hblk. }
  destruct (putDataByKey_lookup (genInodeBlockKey n) _ w1 Hinv1 Hnew)
    as (w2 & Hput & Hinv2 & _ & Hkey & Hother & Hds2 & Hlog2 & Hclk2).
  assert (Hsplice : (newData <- lift (goCopy blk (n mod 64 * 512) (n mod 64 * 512 + 512)
                                        (encodeInode i) 0 INODE_SIZE) ;;
                     putInodeBlock n newData) w1 = Ok (None, w2)).
  { rewrite (bind_Ok _ _ w1 _ w1 (lift_Ok _ _ w1 Hcopy)). exact Hput. }
  exists w2, blk. split.
  - unfold putInode, getInodeBlock. rewrite (bind_Ok _ _ w _ w1 Hget).
    cbv zeta. rewrite Hend, Hstart. subst blk.
    destruct (lookupBlock w (genInodeBlockKey n)) as [b|] eqn:Hb; cbn [fst snd default] in *.
    + exact Hsplice.
    + destruct Hblock as [[? [=]]|Hn].
      replace (negb (n mod (BLOCK_SIZE / INODE_SIZE) =? 0) && negb (n =? 1)) with false.
      * exact Hsplice.
      * symmetry. change (BLOCK_SIZE / INODE_SIZE) with 64.
        destruct Hn as [Hn| ->]; [rewrite Hn|]; by rewrite ?andb_false_r.
  - split; [done|]. split; [done|]. split; [done|]. split; [done|]. split.
    + intros k Hk. rewrite Hother by done. apply Hall.
    + split; [congruence|]. split; congruence.
Qed.

(** X3: an inode put under a number is the inode got under that number,
    whether its block was in the store or is the first of a new block. *)
Theorem putInode_getInode (i : Inode) (n : Z) (w : World) :
  store_inv w -> inode_wf i ->
  is_Some (lookupBlock w (genInodeBlockKey n)) \/ n mod 64 = 0 \/ n = 1 ->
  exists w1 w2,
    putInode i n w = Ok (None, w1) /\ getInode n w1 = Ok ((i, None), w2).
Proof.
  intros Hinv Hwf Hblock.
  destruct (putInode_lookup i n w Hinv (proj1 (inode_codec i Hwf)) Hblock)
    as (w1 & blk & Hput & Hinv1 & _ & Hlen & Hkey & _).
  destruct (getInode_lookup n w1 Hinv1) as (w2 & Hget & _).
  exists w1, w2. split; [done|]. rewrite Hget, Hkey. do 3 f_equal.
  destruct (inode_codec i Hwf) as [Henc Hdec].
  assert (H512 : length (encodeInode i) = 512%nat)
    by (unfold len in Henc; change INODE_SIZE with 512 in Henc; lia).
  rewrite <- H512 at 1. rewrite splice_same; [done|].
  destruct (inode_slot n) as (_ & _ & H0 & H1).
  unfold len in Hlen. lia.
Qed.

Lemma sampleInode_wf : inode_wf sampleInode.
Proof.
  split; cbn [Size LinkCount UnixTime IsDir DataBuf Data sampleInode];
    [unfold is_u64; lia|lia|lia|lia|vm_compute; reflexivity|vm_compute; reflexivity|].
  repeat constructor; unfold is_u64; lia.
Qed.

Lemma putInode_getInode_witness :
  exists w1 w2,
    putInode sampleInode 1 (setCache (newWorld 0 0) (CacheM.initializeCache 1))
    = Ok (None, w1)
    /\ getInode 1 w1 = Ok ((sampleInode, None), w2).
Proof.
  apply putInode_getInode.
  - apply store_inv_initial; [lia|]. intros k v. cbn [bucket newWorld].
    by rewrite lookup_empty.
  - apply sampleInode_wf.
  - right. right. reflexivity.
Defined.

(** X4: putting an inode into a block the store holds changes no other
    inode: [getInode] of any other number returns what it returned
    before. *)
Theorem putInode_keeps_other_inodes (i : Inode) (n m : Z) (w : World) :
  store_inv w -> inode_wf i ->
  is_Some (lookupBlock w (genInodeBlockKey n)) -> m <> n ->
  exists w1,
    putInode i n w = Ok (None, w1)
    /\ value (getInode m w1) = value (getInode m w).
Proof.
  intros Hinv Hwf Hsome Hne.
  destruct (putInode_lookup i n w Hinv (proj1 (inode_codec i Hwf)) (or_introl Hsome))
    as (w1 & blk & Hput & Hinv1 & Hblk & Hlen & Hkey & Hother & _).
  exists w1. split; [done|].
  destruct (getInode_lookup m w1 Hinv1) as (w2 & Hget1 & _).
  destruct (getInode_lookup m w Hinv) as (w3 & Hget & _).
  rewrite Hget1, Hget. cbn [value]. f_equal.
  destruct (decide (genInodeBlockKey m = genInodeBlockKey n)) as [Heq|Hk];
    [|by rewrite Hother].
  rewrite Heq, Hkey. destruct Hsome as [b Hb]. rewrite Hb in Hblk |- *.
  cbn [default] in Hblk. subst blk. change (id b) with b in *. do 2 f_equal.
  destruct (inode_codec i Hwf) as [Henc _].
  assert (H512 : length (encodeInode i) = 512%nat)
    by (unfold len in Henc; change INODE_SIZE with 512 in Henc; lia).
  destruct (inode_slot n) as (_ & _ & H0 & H1).
  destruct (inode_slot m) as (_ & _ & H0m & H1m).
  unfold len in Hlen. apply splice_other; [lia|].
  assert (Hmod : m mod 64 <> n mod 64).
  { intros Hmod. apply Hne. unfold genInodeBlockKey in Heq.
    change (BLOCK_SIZE / INODE_SIZE) with 64 in Heq. injection Heq as Hdiv.
    rewrite (Z.div_mod m 64), (Z.div_mod n 64) by lia. congruence. }
  lia.
Qed.

Lemma putInode_keeps_other_inodes_witness :
  exists w1,
    putInode sampleInode 2
             (setCache (mkWorld ∅ {[InodeBlockKey 0 := newDataBlock]}
                                (CacheM.initializeCache 0) (mkIntStream [] 1) 0 [])
                       (CacheM.initializeCache 1))
    = Ok (None, w1)
    /\ value (getInode 3 w1)
       = value (getInode 3
                  (setCache (mkWorld ∅ {[InodeBlockKey 0 := newDataBlock]}
                                     (CacheM.initializeCache 0) (mkIntStream [] 1) 0 [])
                            (CacheM.initializeCache 1))).
Proof.
  apply putInode_keeps_other_inodes.
  - apply store_inv_initial; [lia|]. intros k v. cbn [bucket].
    intros [_ <-]%lookup_singleton_Some. apply newDataBlock_len.
  - apply sampleInode_wf.
  - exists newDataBlock. reflexivity.
  - lia.
Defined.

Lemma putInode_missing (i : Inode) (n : Z) (w : World) :
  store_inv w ->
  lookupBlock w (genInodeBlockKey n) = None -> n mod 64 <> 0 -> n <> 1 ->
  exists w1,
    putInode i n w = Ok (Some ErrNoSuchKey, w1)
    /\ store_inv w1
    /\ (forall k, lookupBlock w1 k = lookupBlock w k)
    /\ dataStream w1 = dataStream w /\ s3Deletes w1 = s3Deletes w
    /\ clock w1 = clock w.
Proof.
  intros Hinv Hnone Hmod Hn1.
  destruct (getDataByKey_lookup (genInodeBlockKey n) w Hinv)
    as (w1 & Hget & Hinv1 & _ & Hall & Hrest).
  exists w1. split; [|done].
  unfold putInode, getInodeBlock. rewrite (bind_Ok _ _ w _ w1 Hget).
  rewrite Hnone. cbv zeta. cbn [fst snd].
  change (BLOCK_SIZE / INODE_SIZE) with 64.
  apply Z.eqb_neq in Hmod, Hn1. by rewrite Hmod, Hn1.
Qed.

(** X5: when the store holds no block for the inode and its number is
    neither 1 nor the first of a block, [putInode] returns the error of
    the lookup and stores nothing. *)
Theorem putInode_without_block (i : Inode) (n : Z) (w : World) :
  store_inv w ->
  lookupBlock w (genInodeBlockKey n) = None -> n mod 64 <> 0 -> n <> 1 ->
  exists w1,
    putInode i n w = Ok (Some ErrNoSuchKey, w1)
    /\ forall k, lookupBlock w1 k = lookupBlock w k.
Proof.
  intros Hinv Hnone Hmod Hn1.
  destruct (putInode_missing i n w Hinv Hnone Hmod Hn1) as (w1 & Hput & _ & Hall & _).
  by exists w1.
Qed.

Lemma putInode_without_block_witness :
  exists w1,
    putInode sampleInode 5 (setCache (newWorld 0 0) (CacheM.initializeCache 1))
    = Ok (Some ErrNoSuchKey, w1)
    /\ forall k, lookupBlock w1 k
                 = lookupBlock (setCache (newWorld 0 0) (CacheM.initializeCache 1)) k.
Proof.
  apply putInode_without_block.
  - apply store_inv_initial; [lia|]. intros k v. cbn [bucket newWorld].
    by rewrite lookup_empty.
  - reflexivity.
  - vm_compute. discriminate.
  - lia.
Defined.

(** ** The allocator hands out a number once *)

(** X6: as long as the counter does not wrap, the numbers [next] returns
    in a row are pairwise distinct; each is taken from the free-stack or
    lies above the counter the run started from. *)
Theorem nextN_fresh (n : nat) (s : IntStream) :
  stream_wf s -> lastInt s + Z.of_nat n < 2 ^ 64 ->
  NoDup (nextN n s).1
  /\ (forall x, x ∈ (nextN n s).1 -> x ∈ stack s \/ lastInt s < x)
  /\ stream_wf (nextN n s).2.
Proof.
  revert s. induction n as [|n IH]; intros [st last] [Hlast Hnd Hbelow] Hwrap;
    cbn [stack lastInt] in *.
  - cbn [nextN fst snd]. split; [constructor|]. split; [|done].
    intros x Hx. by apply elem_of_nil in Hx.
  - cbn [nextN]. destruct st as [|x0 rest].
    + rewrite next_empty.
      assert (Hadd : add64 last 1 = last + 1).
      { unfold add64, wrap64. apply Z.mod_small. lia. }
      rewrite Hadd.
      destruct (IH (mkIntStream [] (last + 1))) as (Hnd' & Hin' & Hwf').
      { split; cbn [stack lastInt]; [lia|constructor|constructor]. }
      { cbn [lastInt]. lia. }
      destruct (nextN n (mkIntStream [] (last + 1))) as [xs s2].
      cbn [fst snd stack lastInt] in *. split; [|split; [|done]].
      * constructor; [|done]. intros Hx. apply Hin' in Hx as [Hx|Hx]; [|lia].
        by apply elem_of_nil in Hx.
      * intros x Hx. apply elem_of_cons in Hx as [->|Hx]; [right; lia|].
        apply Hin' in Hx as [Hx|Hx]; [by apply elem_of_nil in Hx|right; lia].
    + rewrite next_front.
      apply NoDup_cons in Hnd as [Hx0 Hnd]. apply Forall_cons in Hbelow as [Hle Hbelow].
      destruct (IH (mkIntStream rest last)) as (Hnd' & Hin' & Hwf').
      { by split. }
      { cbn [lastInt]. lia. }
      destruct (nextN n (mkIntStream rest last)) as [xs s2].
      cbn [fst snd stack lastInt] in *. split; [|split; [|done]].
      * constructor; [|done]. intros Hx. apply Hin' in Hx as [Hx|Hx]; [done|lia].
      * intros x Hx. apply elem_of_cons in Hx as [->|Hx]; [left; left|].
        apply Hin' in Hx as [Hx|Hx]; [left; by right|by right].
Qed.

Lemma nextN_fresh_witness :
  NoDup (nextN 5 (mkIntStream [4; 2] 6)).1
  /\ (forall x, x ∈ (nextN 5 (mkIntStream [4; 2] 6)).1 -> x ∈ [4; 2] \/ 6 < x)
  /\ stream_wf (nextN 5 (mkIntStream [4; 2] 6)).2.
Proof.
  apply (nextN_fresh 5 (mkIntStream [4; 2] 6)).
  - split; cbn [stack lastInt]; [lia| |].
    + apply NoDup_cons. split; [|apply NoDup_singleton].
      intros H. apply list_elem_of_singleton in H. lia.
    + repeat constructor; lia.
  - cbn [lastInt]. lia.
Defined.

(** ** Emptying the cache *)

Lemma emptyFrom_spec (q : list (nat * Key)) (w : World) :
  NoDup q.*2 ->
  (forall e k, (e, k) ∈ q -> is_Some (dynamo w !! k)) ->
  exists w',
    CacheM.emptyFrom q w = Ok (None, w')
    /\ cache w' = cache w
    /\ dataStream w' = dataStream w /\ s3Deletes w' = s3Deletes w /\ clock w' = clock w
    /\ (forall k, k ∈ q.*2 -> dynamo w' !! k = None /\ bucket w' !! k = dynamo w !! k)
    /\ (forall k, k ∉ q.*2 -> dynamo w' !! k = dynamo w !! k /\ bucket w' !! k = bucket w !! k).
Proof.
  revert w. induction q as [|[e k] q IH]; intros w Hnd Htab.
  - exists w. cbn [CacheM.emptyFrom]. split; [done|]. repeat (split; [done|]).
    split; [|done]. intros k Hk. by apply elem_of_nil in Hk.
  - cbn [fmap list_fmap snd] in Hnd. apply NoDup_cons in Hnd as [Hk Hnd].
    destruct (Htab e k ltac:(left)) as [v Hv].
    set (w1 := setBucket (setDynamo w (delete k (dynamo w))) (<[k := v]> (bucket w))).
    assert (Hev : CacheM.evictBlock k w = Ok (None, w1)).
    { unfold CacheM.evictBlock, bind, get, modify, ret. by rewrite Hv. }
    destruct (IH w1 Hnd) as (w' & Hrun & Hc & Hds & Hlog & Hclk & Hin & Hout).
    { intros e' k' Hin. cbn [w1 dynamo setBucket setDynamo].
      rewrite lookup_delete_ne; [by eapply Htab; right|].
      intros <-. apply Hk. apply list_elem_of_fmap. by exists (e', k). }
    exists w'. cbn [CacheM.emptyFrom snd]. rewrite (bind_Ok _ _ w None w1 Hev).
    split; [done|]. split; [by rewrite Hc|]. split; [by rewrite Hds|].
    split; [by rewrite Hlog|]. split; [by rewrite Hclk|].
    cbn [fmap list_fmap snd]. split.
    + intros k' Hk'. apply elem_of_cons in Hk' as [->|Hk'].
      * destruct (Hout k Hk) as [-> ->]. cbn [w1 dynamo bucket setBucket setDynamo].
        by rewrite lookup_delete_eq, lookup_insert_eq.
      * destruct (Hin k' Hk') as [-> ->]. split; [done|].
        cbn [w1 dynamo bucket setBucket setDynamo].
        rewrite lookup_delete_ne; [done|]. by intros <-.
    + intros k' Hk'. apply not_elem_of_cons in Hk' as [Hne Hk'].
      destruct (Hout k' Hk') as [-> ->]. cbn [w1 dynamo bucket setBucket setDynamo].
      by rewrite lookup_delete_ne, lookup_insert_ne.
Qed.

Lemma empty_lookup (w : World) :
  cache_inv w ->
  exists w',
    CacheM.empty w = Ok (None, w')
    /\ cache w' = cache w
    /\ (forall k, k ∈ trackedKeys (cache w) ->
                  dynamo w' !! k = None /\ bucket w' !! k = dynamo w !! k)
    /\ (forall k, lookupBlock w' k = lookupBlock w k).
Proof.
  intros Hinv. pose proof (cache_inv_keys_NoDup w Hinv) as Hnd.
  destruct (emptyFrom_spec (recentlyUsedQueue (cache w)) w Hnd (inv_table w Hinv))
    as (w' & Hrun & Hc & _ & _ & _ & Hin & Hout).
  exists w'. split; [by unfold CacheM.empty; rewrite (bind_Ok _ _ w w w)|].
  split; [done|]. split; [exact Hin|].
  intros k. unfold lookupBlock. rewrite Hc.
  destruct (keyHashAt (cache w) k) as [e|] eqn:He.
  - assert (Hq : (e, k) ∈ recentlyUsedQueue (cache w))
      by by apply (inv_keyHash w Hinv), keyHashAt_Some.
    destruct (inv_table w Hinv e k Hq) as [v Hv].
    destruct (Hin k) as [-> ->]; [|by rewrite Hv].
    apply list_elem_of_fmap. by exists (e, k).
  - destruct (decide (k ∈ (recentlyUsedQueue (cache w)).*2)) as [Hk|Hk].
    + apply list_elem_of_fmap in Hk as ([e k'] & -> & Hq).
      apply (inv_keyHash w Hinv), keyHashAt_Some in Hq. cbn [snd] in He. congruence.
    + by destruct (Hout k Hk) as [_ ->].
Qed.

(** X7: [cache.empty] moves every block the cache tracks from the table
    to the bucket and returns nil; the store holds under every key what
    it held before.  The queue and the key table are left as they were. *)
Theorem empty_keeps_every_block (w : World) :
  cache_inv w ->
  exists w',
    CacheM.empty w = Ok (None, w')
    /\ cache w' = cache w
    /\ (forall k, k ∈ trackedKeys (cache w) ->
                  dynamo w' !! k = None /\ bucket w' !! k = dynamo w !! k)
    /\ (forall k, lookupBlock w' k = lookupBlock w k).
Proof. apply empty_lookup. Qed.

Lemma empty_keeps_every_block_witness :
  exists w,
    runCacheOps [OpAddBlock [1] (DataKey 2); OpAddBlock [2] (DataKey 3);
                 OpGetBlock (DataKey 2)]
      (setCache (newWorld 0 0) (CacheM.initializeCache 2)) = Ok (tt, w)
    /\ exists w',
         CacheM.empty w = Ok (None, w')
         /\ cache w' = cache w
         /\ (forall k, k ∈ trackedKeys (cache w) ->
                       dynamo w' !! k = None /\ bucket w' !! k = dynamo w !! k)
         /\ (forall k, lookupBlock w' k = lookupBlock w k).
Proof.
  destruct (cache_run [OpAddBlock [1] (DataKey 2); OpAddBlock [2] (DataKey 3);
                       OpGetBlock (DataKey 2)]
              (setCache (newWorld 0 0) (CacheM.initializeCache 2))
              (cache_inv_initial (newWorld 0 0) 2 ltac:(lia)) ltac:(reflexivity))
    as (w & Hrun & Hinv & _).
  exists w. split; [exact Hrun|]. exact (empty_keeps_every_block w Hinv).
Defined.

(** X8: after [cache.empty] the cache still counts the blocks it has
    given away.  When it was full, the next block added under a new key
    evicts the front of the queue, whose item the table no longer has:
    [evictBlock] calls [Error] on a nil error and the process panics. *)
Theorem addBlock_after_empty_panics (w : World) (data : DataBlock) (key : Key) :
  cache_inv w ->
  0 < cacheCapacity (cache w) ->
  len (recentlyUsedQueue (cache w)) = cacheCapacity (cache w) ->
  keyHashAt (cache w) key = None ->
  exists w',
    CacheM.empty w = Ok (None, w') /\ CacheM.addBlock data key w' = Panic.
Proof.
  intros Hinv Hcap Hfull Hkey.
  destruct (empty_lookup w Hinv) as (w' & Hrun & Hc & Hin & _).
  exists w'. split; [done|].
  destruct (recentlyUsedQueue (cache w)) as [|[e0 k0] q] eqn:Hq.
  { unfold len in Hfull. cbn [length] in Hfull. lia. }
  assert (Hq0 : (e0, k0) ∈ recentlyUsedQueue (cache w)) by (rewrite Hq; left).
  assert (Hne : key <> k0).
  { intros ->. apply (inv_keyHash w Hinv), keyHashAt_Some in Hq0. congruence. }
  destruct (Hin k0) as [Hd _].
  { apply list_elem_of_fmap. by exists (e0, k0). }
  unfold CacheM.addBlock, CacheM.evictBlock, bind, modify, get, ret, panic.
  cbn [cache setDynamo setCache dynamo]. rewrite Hc, Hkey, Hq.
  replace (len ((e0, k0) :: q) =? cacheCapacity (cache w)) with true
    by (symmetry; by apply Z.eqb_eq).
  cbn [cache setDynamo setCache dynamo]. by rewrite lookup_insert_ne, Hd.
Qed.

Lemma addBlock_after_empty_panics_witness :
  exists w,
    runCacheOps [OpAddBlock [1] (DataKey 2); OpAddBlock [2] (DataKey 3)]
      (setCache (newWorld 0 0) (CacheM.initializeCache 2)) = Ok (tt, w)
    /\ exists w',
         CacheM.empty w = Ok (None, w') /\ CacheM.addBlock [3] (DataKey 4) w' = Panic.
Proof.
  eexists. split; [vm_compute; reflexivity|].
  apply addBlock_after_empty_panics.
  - destruct (cache_run [OpAddBlock [1] (DataKey 2); OpAddBlock [2] (DataKey 3)]
                (setCache (newWorld 0 0) (CacheM.initializeCache 2))
                (cache_inv_initial (newWorld 0 0) 2 ltac:(lia)) ltac:(reflexivity))
      as (w & Hrun & Hinv & _).
    vm_compute in Hrun. injection Hrun as <-. exact Hinv.
  - reflexivity.
  - vm_compute. reflexivity.
  - vm_compute. reflexivity.
Defined.

(** X9: a cache of capacity 0 cannot take a block: the first
    [putDataByKey] finds the queue full and empty at once and removes a
    nil element. *)
Theorem putDataByKey_capacity_zero_panics (w : World) (key : Key) (data : DataBlock) :
  cache_inv w -> cacheCapacity (cache w) = 0 ->
  putDataByKey key data w = Panic.
Proof.
  intros Hinv Hcap. pose proof (inv_capacity w Hinv) as Hle.
  destruct (recentlyUsedQueue (cache w)) as [|x q] eqn:Hq.
  2: { unfold len in Hle. cbn [length] in Hle. lia. }
  assert (Hkey : keyHashAt (cache w) key = None).
  { destruct (keyHashAt (cache w) key) as [e|] eqn:He; [|done].
    apply keyHashAt_Some, (inv_keyHash w Hinv) in He. rewrite Hq in He.
    by apply elem_of_nil in He. }
  unfold putDataByKey, CacheM.addBlock, bind, modify, get, ret, panic.
  cbn [cache setDynamo]. by rewrite Hkey, Hq, Hcap.
Qed.

Lemma putDataByKey_capacity_zero_panics_witness :
  putDataByKey (DataKey 1) newDataBlock (setCache (newWorld 4 0) (CacheM.initializeCache 0))
  = Panic.
Proof.
  apply putDataByKey_capacity_zero_panics.
  - apply cache_inv_initial. lia.
  - reflexivity.
Defined.

(** ** Loops that return *)

(** A loop whose body returns and keeps an invariant returns, with the
    invariant, after the rounds it was given or with its condition
    false. *)
Lemma forLoop_run {S} (Inv : N -> S -> World -> Prop) (count : N) (step : Z)
    (cond : S -> bool) (body : Z -> S -> M S) (s : S) (w : World) :
  Inv 0%N s w ->
  (forall k s1 w1, (k < count)%N -> Inv k s1 w1 -> cond s1 = true ->
     exists s2 w2, body (Z.of_N k * step) s1 w1 = Ok (s2, w2) /\ Inv (k + 1)%N s2 w2) ->
  exists k s' w',
    forLoop count step cond body s w = Ok (s', w')
    /\ Inv k s' w' /\ (k <= count)%N /\ (cond s' = false \/ k = count).
Proof.
  intros H0 Hbody. unfold forLoop.
  assert (Hit : exists k s' w',
             N.iter count (loopStep step cond body) (0, Ok (s, w))
             = (Z.of_N k * step, Ok (s', w'))
             /\ Inv k s' w' /\ (k <= count)%N /\ (cond s' = false \/ k = count)).
  { induction count as [|count IH] using N.peano_ind.
    - exists 0%N, s, w. cbn. split; [done|]. split; [done|]. split; [lia|by right].
    - destruct IH as (k & s1 & w1 & Hrun & Hinv & Hle & Hend).
      { intros k s1 w1 Hk. apply Hbody. lia. }
      rewrite N.iter_succ, Hrun. cbn [loopStep].
      destruct (cond s1) eqn:Hc.
      + destruct Hend as [Hf| ->]; [congruence|].
        destruct (Hbody count s1 w1 ltac:(lia) Hinv Hc) as (s2 & w2 & Hb & Hinv2).
        exists (count + 1)%N, s2, w2. rewrite Hb.
        split; [f_equal; lia|]. split; [done|]. split; [lia|right; lia].
      + exists k, s1, w1. split; [done|]. split; [done|]. split; [lia|by left]. }
  destruct Hit as (k & s' & w' & Hrun & Hrest).
  exists k, s', w'. by rewrite Hrun.
Qed.

(** A loop whose condition is false at once runs no round. *)
Lemma forLoop_cond_false {S} (count : N) (step : Z) (cond : S -> bool)
    (body : Z -> S -> M S) (s : S) (w : World) :
  cond s = false -> forLoop count step cond body s w = Ok (s, w).
Proof.
  intros Hc.
  destruct (forLoop_run (fun _ s1 w1 => s1 = s /\ w1 = w) count step cond body s w)
    as (k & s' & w' & Hrun & [-> ->] & _); [done| |done].
  intros k s1 w1 _ [-> ->] Hc'. congruence.
Qed.

(** ** Computations that keep the store *)

Lemma keeps_ret {A} (Q : A -> Prop) (a : A) : Q a -> keeps Q (ret a).
Proof. intros Ha w Hinv. by exists a, w. Qed.

Lemma keeps_bind {A B} (Q : A -> Prop) (R : B -> Prop) (m : M A) (f : A -> M B) :
  keeps Q m -> (forall a, Q a -> keeps R (f a)) -> keeps R (bind m f).
Proof.
  intros Hm Hf w Hinv.
  destruct (Hm w Hinv) as (a & w1 & Hrun & Ha & Hinv1 & Hds1).
  destruct (Hf a Ha w1 Hinv1) as (b & w2 & Hrun2 & Hb & Hinv2 & Hds2).
  exists b, w2. rewrite (bind_Ok _ _ w a w1 Hrun).
  split; [done|]. split; [done|]. split; [done|congruence].
Qed.

Lemma keeps_lift {A} (Q : A -> Prop) (o : Outcome A) (a : A) :
  o = Ok a -> Q a -> keeps Q (lift o).
Proof. intros -> Ha w Hinv. by exists a, w. Qed.

Lemma keeps_forLoop {S} (P : S -> Prop) (count : N) (step : Z) (cond : S -> bool)
    (body : Z -> S -> M S) (s : S) :
  P s ->
  (forall k s1, (k < count)%N -> P s1 -> cond s1 = true ->
     keeps P (body (Z.of_N k * step) s1)) ->
  keeps P (forLoop count step cond body s).
Proof.
  intros Hs Hbody w Hinv.
  destruct (forLoop_run
              (fun _ s1 w1 => P s1 /\ store_inv w1 /\ dataStream w1 = dataStream w)
              count step cond body s w)
    as (k & s' & w' & Hrun & (HP & Hinv' & Hds) & _); [done| |by exists s', w'].
  intros k s1 w1 Hk (HP & Hinv1 & Hds1) Hc.
  destruct (Hbody k s1 Hk HP Hc w1 Hinv1) as (s2 & w2 & Hb & HP2 & Hinv2 & Hds2).
  exists s2, w2. split; [done|]. split; [done|]. split; [done|congruence].
Qed.

Lemma keeps_getData (n : Z) : keeps (fun r => len r.1 = BLOCK_SIZE) (getData n).
Proof.
  intros w Hinv.
  destruct (getDataByKey_lookup (genDataKey n) w Hinv) as (w' & Hget & Hinv' & _ & _ & Hds & _).
  eexists _, w'. split; [exact Hget|]. split; [|done].
  destruct (lookupBlock w (genDataKey n)) as [v|] eqn:Hv; cbn [fst].
  - by apply (st_sized w Hinv _ _ Hv).
  - apply newDataBlock_len.
Qed.

Lemma keeps_deleteBlock (n : Z) : keeps (fun err => err = None) (deleteBlock n).
Proof.
  intros w Hinv.
  destruct (deleteBlock_lookup n w Hinv) as (w' & Hdel & Hinv' & _ & _ & _ & Hds & _).
  by exists None, w'.
Qed.

(** The slots of an indirect block lie inside the block. *)
Lemma slot_in_block (blk : list Z) (k : N) :
  len blk = BLOCK_SIZE -> (k < Z.to_N (BLOCK_SIZE / 8))%N ->
  exists bs, goSlice blk (Z.of_N k * 8) (Z.of_N k * 8 + 8) = Ok bs.
Proof.
  intros Hlen Hk. eexists. apply goSlice_eq; [lia|].
  rewrite Hlen. change (BLOCK_SIZE / 8) with 4096 in Hk. change BLOCK_SIZE with 32768. lia.
Qed.

Lemma keeps_deleteIndirect (numBlocks indBlockNum : Z) :
  keeps (fun _ => True) (deleteIndirect numBlocks indBlockNum).
Proof.
  unfold deleteIndirect.
  eapply keeps_bind; [apply keeps_getData|]. intros r Hr.
  eapply keeps_bind with (Q := fun _ => True).
  - apply keeps_forLoop; [done|]. intros k s1 Hk _ _.
    destruct (slot_in_block r.1 k Hr Hk) as [bs Hbs].
    eapply keeps_bind; [by apply (keeps_lift (fun _ => True)) with bs|]. intros bs' _.
    eapply keeps_bind; [apply keeps_deleteBlock|]. intros err ->. by apply keeps_ret.
  - intros s _. destruct s.2; [by apply keeps_ret|].
    eapply keeps_bind; [apply keeps_deleteBlock|]. intros err ->. by apply keeps_ret.
Qed.

Lemma keeps_deleteThrough (child : Z -> Z -> M (Z * option error))
    (numBlocks indBlockNum : Z) :
  (forall nb bn, keeps (fun _ => True) (child nb bn)) ->
  keeps (fun _ => True) (deleteThrough child numBlocks indBlockNum).
Proof.
  intros Hchild. unfold deleteThrough.
  eapply keeps_bind; [apply keeps_getData|]. intros r Hr.
  eapply keeps_bind with (Q := fun _ => True).
  - apply keeps_forLoop; [done|]. intros k s1 Hk _ _.
    destruct (slot_in_block r.1 k Hr Hk) as [bs Hbs].
    eapply keeps_bind; [by apply (keeps_lift (fun _ => True)) with bs|]. intros bs' _.
    apply Hchild.
  - intros s _. destruct s.2; [by apply keeps_ret|].
    eapply keeps_bind; [apply keeps_deleteBlock|]. intros err ->. by apply keeps_ret.
Qed.

Lemma keeps_deleteLevel (level : Z -> Z -> M (Z * option error)) (blockNum : Z)
    (s : DeleteVars) :
  (forall nb bn, keeps (fun _ => True) (level nb bn)) ->
  keeps (fun _ => True) (deleteLevel level blockNum s).
Proof.
  intros Hlevel. unfold deleteLevel. destruct (deleting s); [apply Hlevel|by apply keeps_ret].
Qed.

Lemma keeps_deleteAllData (i : Inode) : keeps (fun _ => True) (deleteAllData i).
Proof.
  unfold deleteAllData.
  eapply keeps_bind with (Q := fun _ => True).
  { apply keeps_forLoop; [done|]. intros k s1 _ _ _.
    eapply keeps_bind; [apply keeps_deleteBlock|]. intros err ->. by apply keeps_ret. }
  intros s0 _.
  eapply keeps_bind with (Q := fun _ => True);
    [apply keeps_deleteLevel; intros; apply keeps_deleteIndirect|].
  intros s1 _.
  eapply keeps_bind with (Q := fun _ => True);
    [apply keeps_deleteLevel; intros; apply keeps_deleteThrough; intros;
     apply keeps_deleteIndirect|].
  intros s2 _.
  eapply keeps_bind with (Q := fun _ => True);
    [apply keeps_deleteLevel; intros; apply keeps_deleteThrough; intros;
     apply keeps_deleteThrough; intros; apply keeps_deleteIndirect|].
  intros s3 _. destruct s3.2; [by apply keeps_ret|].
  destruct (0 <? s3.1); by apply keeps_ret.
Qed.

(** X10: whatever the inode holds, [deleteAllData] returns: it neither
    panics nor leaves the store in a state the cache cannot go on from.
    It never gives a block number back to [dataStream]: the numbers of
    the blocks it deletes are not handed out again. *)
Theorem deleteAllData_returns_and_frees_no_number (i : Inode) (w : World) :
  store_inv w ->
  exists err w',
    deleteAllData i w = Ok (err, w')
    /\ store_inv w'
    /\ dataStream w' = dataStream w.
Proof.
  intros Hinv. destruct (keeps_deleteAllData i w Hinv) as (err & w' & Hrun & _ & Hrest).
  by exists err, w'.
Qed.

(** X11: for a file that fits the inode buffer [deleteAllData] sends no
    request at all and returns nil. *)
Theorem deleteAllData_inline_file (i : Inode) (w : World) :
  Size i <= INODE_BUFFER_SIZE -> deleteAllData i w = Ok (None, w).
Proof.
  intros Hs. unfold deleteAllData, numBlocksToDelete.
  replace (Size i <=? INODE_BUFFER_SIZE) with true by (symmetry; by apply Z.leb_le).
  rewrite (bind_Ok (A := DeleteVars) _ _ w (0, None) w) by (by apply forLoop_cond_false).
  unfold deleteLevel. cbn [deleting fst snd Z.ltb Z.compare andb].
  done.
Qed.

Lemma deleteAllData_returns_and_frees_no_number_witness :
  exists err w',
    deleteAllData sampleInode (setCache (newWorld 0 0) (CacheM.initializeCache 1))
    = Ok (err, w')
    /\ store_inv w'
    /\ dataStream w' = dataStream (setCache (newWorld 0 0) (CacheM.initializeCache 1)).
Proof.
  apply deleteAllData_returns_and_frees_no_number.
  apply store_inv_initial; [lia|]. intros k v. cbn [bucket newWorld].
  by rewrite lookup_empty.
Defined.

Lemma deleteAllData_inline_file_witness :
  deleteAllData zeroInode (newWorld 4 0) = Ok (None, newWorld 4 0).
Proof. apply deleteAllData_inline_file. vm_compute. discriminate. Defined.

(** The count [deleteAllData] starts from, for a file whose content ends
    in the direct blocks. *)
Lemma numBlocksToDelete_direct (i : Inode) :
  INODE_BUFFER_SIZE < Size i < INODE_BUFFER_SIZE + NUM_DATA_BLOCKS * BLOCK_SIZE ->
  numBlocksToDelete i = (Size i - INODE_BUFFER_SIZE) / BLOCK_SIZE + 1
  /\ 1 <= numBlocksToDelete i <= 12.
Proof.
  unfold numBlocksToDelete, add64, sub64, wrap64.
  change INODE_BUFFER_SIZE with 373. change NUM_DATA_BLOCKS with 12.
  change BLOCK_SIZE with 32768. change (2 ^ 64) with 18446744073709551616.
  intros Hs.
  replace (Size i <=? 373) with false by (symmetry; apply Z.leb_gt; lia).
  rewrite (Z.mod_small (Size i - 373)) by lia.
  assert (Hq : 0 <= (Size i - 373) / 32768 < 12).
  { split; [apply Z.div_pos; lia|apply Z.div_lt_upper_bound; lia]. }
  rewrite Z.mod_small by lia. lia.
Qed.

Lemma deleteAllData_direct (i : Inode) (w : World) :
  store_inv w -> len (Data i) = 15 ->
  INODE_BUFFER_SIZE < Size i < INODE_BUFFER_SIZE + NUM_DATA_BLOCKS * BLOCK_SIZE ->
  exists w',
    deleteAllData i w = Ok (None, w')
    /\ store_inv w'
    /\ s3Deletes w'
       = rev (map genDataKey (take (Z.to_nat (numBlocksToDelete i)) (Data i)))
           ++ s3Deletes w
    /\ (forall k, lookupBlock w' k
                  = if decide (k ∈ map genDataKey
                                     (take (Z.to_nat (numBlocksToDelete i)) (Data i)))
                    then None else lookupBlock w k).
Proof.
  intros Hinv Hlen Hsize.
  destruct (numBlocksToDelete_direct i Hsize) as [_ Hnb].
  set (nb := numBlocksToDelete i) in *.
  set (body := fun (j : Z) (s : DeleteVars) =>
                 err <- deleteBlock (dataAt i j) ;;
                 match err with
                 | Some _ => ret (s.1, err)
                 | None => ret (sub64 s.1 1, None)
                 end).
  destruct (forLoop_run
              (fun k (s : DeleteVars) w1 =>
                 Z.of_N k <= nb
                 /\ s = (nb - Z.of_N k, None)
                 /\ store_inv w1
                 /\ s3Deletes w1
                    = rev (map genDataKey (take (N.to_nat k) (Data i))) ++ s3Deletes w
                 /\ (forall key, lookupBlock w1 key
                       = if decide (key ∈ map genDataKey (take (N.to_nat k) (Data i)))
                         then None else lookupBlock w key))
              (Z.to_N NUM_DATA_BLOCKS) 1 deleting body (nb, None) w)
    as (k & s' & w' & Hrun & (Hk & -> & Hinv' & Hlog & Hlook) & Hle & Hend).
  - split; [lia|]. split; [f_equal; lia|]. split; [done|]. split; [done|]. done.
  - intros k s1 w1 Hk (Hle & -> & Hinv1 & Hlog1 & Hlook1) Hc.
    unfold deleting in Hc. cbn [fst snd] in Hc. apply andb_prop in Hc as [Hc _].
    apply Z.ltb_lt in Hc. change (Z.to_N NUM_DATA_BLOCKS) with 12%N in Hk.
    destruct (deleteBlock_lookup (dataAt i (Z.of_N k * 1)) w1 Hinv1)
      as (w2 & Hdel & Hinv2 & _ & Hkey & Hother & _ & Hlog2 & _).
    assert (Hnth : Data i !! N.to_nat k = Some (dataAt i (Z.of_N k * 1))).
    { unfold dataAt. replace (Z.to_nat (Z.of_N k * 1)) with (N.to_nat k) by lia.
      destruct (lookup_lt_is_Some_2 (Data i) (N.to_nat k)) as [x Hx];
        [unfold len in Hlen; lia|].
      rewrite Hx. f_equal. symmetry. by apply nth_lookup_Some. }
    assert (Htake : take (N.to_nat (k + 1)) (Data i)
                    = take (N.to_nat k) (Data i) ++ [dataAt i (Z.of_N k * 1)]).
    { replace (N.to_nat (k + 1)) with (S (N.to_nat k)) by lia. by apply take_S_r. }
    exists (nb - Z.of_N (k + 1), None), w2. split.
    + unfold body. rewrite (bind_Ok _ _ w1 None w2 Hdel). unfold ret. cbn [fst].
      do 3 f_equal. unfold sub64, wrap64. change (2 ^ 64) with 18446744073709551616.
      rewrite Z.mod_small by lia. lia.
    + split; [lia|]. split; [done|]. split; [done|]. rewrite Htake, map_app, rev_app_distr.
      cbn [map rev app]. split; [by rewrite Hlog2, Hlog1|].
      intros key. destruct (decide (key = genDataKey (dataAt i (Z.of_N k * 1)))) as [->|Hne].
      * rewrite Hkey, decide_True; [done|]. apply elem_of_app. right. left.
      * rewrite Hother, Hlook1 by done.
        apply decide_ext. rewrite elem_of_app, list_elem_of_singleton.
        split; [by left|]. by intros [?|?].
  - assert (Hknb : Z.of_N k = nb).
    { destruct Hend as [Hf| ->].
      - unfold deleting in Hf. cbn [fst snd] in Hf. rewrite bool_decide_eq_true_2 in Hf by done.
        rewrite andb_true_r in Hf. apply Z.ltb_ge in Hf. lia.
      - change (Z.to_N NUM_DATA_BLOCKS) with 12%N in *. lia. }
    exists w'. split.
    + unfold deleteAllData. fold body. fold nb.
      rewrite (bind_Ok (A := DeleteVars) _ _ w _ w' Hrun).
      replace (nb - Z.of_N k) with 0 by lia.
      unfold deleteLevel. cbn [deleting fst snd Z.ltb Z.compare andb]. done.
    + split; [done|]. replace (Z.to_nat nb) with (N.to_nat k) by lia. done.
Qed.

(** X12: for a file whose content ends in the direct blocks,
    [deleteAllData] returns nil after one [deleteBlock] for each of the
    first [(Size - INODE_BUFFER_SIZE) / BLOCK_SIZE + 1] entries of [Data],
    in order; these keys hold nothing afterwards and every other key holds
    what it held. *)
Theorem deleteAllData_direct_blocks (i : Inode) (w : World) :
  store_inv w -> len (Data i) = 15 ->
  INODE_BUFFER_SIZE < Size i < INODE_BUFFER_SIZE + NUM_DATA_BLOCKS * BLOCK_SIZE ->
  exists w',
    deleteAllData i w = Ok (None, w')
    /\ s3Deletes w'
       = rev (map genDataKey
                (take (Z.to_nat ((Size i - INODE_BUFFER_SIZE) / BLOCK_SIZE + 1)) (Data i)))
           ++ s3Deletes w
    /\ (forall k, lookupBlock w' k
                  = if decide (k ∈ map genDataKey
                                     (take (Z.to_nat ((Size i - INODE_BUFFER_SIZE)
                                                        / BLOCK_SIZE + 1)) (Data i)))
                    then None else lookupBlock w k).
Proof.
  intros Hinv Hlen Hsize.
  destruct (deleteAllData_direct i w Hinv Hlen Hsize) as (w' & Hrun & _ & Hlog & Hlook).
  destruct (numBlocksToDelete_direct i Hsize) as [<- _].
  by exists w'.
Qed.

Lemma deleteAllData_direct_blocks_witness :
  exists w',
    deleteAllData sampleInode (setCache (newWorld 0 0) (CacheM.initializeCache 1))
    = Ok (None, w')
    /\ s3Deletes w'
       = rev (map genDataKey
                (take (Z.to_nat ((Size sampleInode - INODE_BUFFER_SIZE) / BLOCK_SIZE + 1))
                      (Data sampleInode)))
           ++ s3Deletes (setCache (newWorld 0 0) (CacheM.initializeCache 1))
    /\ (forall k, lookupBlock w' k
                  = if decide (k ∈ map genDataKey
                                     (take (Z.to_nat ((Size sampleInode - INODE_BUFFER_SIZE)
                                                        / BLOCK_SIZE + 1))
                                           (Data sampleInode)))
                    then None
                    else lookupBlock (setCache (newWorld 0 0) (CacheM.initializeCache 1)) k).
Proof.
  apply deleteAllData_direct_blocks.
  - apply store_inv_initial; [lia|]. intros k v. cbn [bucket newWorld].
    by rewrite lookup_empty.
  - reflexivity.
  - vm_compute. split; reflexivity.
Defined.

(** ** The superblock *)

(** After [cache.empty] the bucket alone holds what the store held. *)
Lemma empty_bucket (w : World) :
  cache_inv w ->
  exists w',
    CacheM.empty w = Ok (None, w')
    /\ (forall k, bucket w' !! k = lookupBlock w k)
    /\ dataStream w' = dataStream w /\ s3Deletes w' = s3Deletes w /\ clock w' = clock w.
Proof.
  intros Hinv. pose proof (cache_inv_keys_NoDup w Hinv) as Hnd.
  destruct (emptyFrom_spec (recentlyUsedQueue (cache w)) w Hnd (inv_table w Hinv))
    as (w' & Hrun & Hc & Hds & Hlog & Hclk & Hin & Hout).
  exists w'. split; [by unfold CacheM.empty; rewrite (bind_Ok _ _ w w w)|].
  split; [|done].
  intros k. unfold lookupBlock.
  destruct (keyHashAt (cache w) k) as [e|] eqn:He.
  - assert (Hq : (e, k) ∈ recentlyUsedQueue (cache w))
      by by apply (inv_keyHash w Hinv), keyHashAt_Some.
    destruct (inv_table w Hinv e k Hq) as [v Hv].
    destruct (Hin k) as [_ ->]; [|by rewrite Hv].
    apply list_elem_of_fmap. by exists (e, k).
  - destruct (decide (k ∈ (recentlyUsedQueue (cache w)).*2)) as [Hk|Hk].
    + apply list_elem_of_fmap in Hk as ([e k'] & -> & Hq).
      apply (inv_keyHash w Hinv), keyHashAt_Some in Hq. cbn [snd] in He. congruence.
    + by destruct (Hout k Hk) as [_ ->].
Qed.

Lemma goSliceFrom_eq (s : list Z) (lo : Z) :
  0 <= lo <= len s -> goSliceFrom s lo = Ok (drop (Z.to_nat lo) s).
Proof. intros Hlo. unfold goSliceFrom. by rewrite slice_ok_true by lia. Qed.

(** A list that fits the first superblock gives one superblock, with
    the four header fields in its first 32 bytes. *)
Lemma makeSuperblocks_short (inode data : list Z) (root : Z) (l : list Z) :
  length inode = 8%nat -> length data = 8%nat ->
  len l < BLOCK_SIZE - 32 ->
  exists super,
    makeSuperblocks inode data root l = Ok [super]
    /\ len super = BLOCK_SIZE
    /\ arraySlice super 0 8 = inode
    /\ arraySlice super 8 16 = data
    /\ arraySlice super 16 24 = PutUint64 root
    /\ arraySlice super 24 32 = PutUint64 (len l).
Proof.
  intros Hi Hd Hl. unfold makeSuperblocks.
  assert (Hl0 : 0 <= len l) by (unfold len; lia).
  assert (HBS : BLOCK_SIZE = 32768) by reflexivity.
  assert (Hadd : add64 (len l) 32 = len l + 32).
  { unfold add64, wrap64. apply Z.mod_small. change (2 ^ 64) with 18446744073709551616. lia. }
  rewrite Hadd.
  replace (len l + 32 >? BLOCK_SIZE) with false
    by (symmetry; rewrite Z.gtb_ltb; apply Z.ltb_ge; lia).
  assert (Hsub : sub64 (len l + 32) 32 = len l).
  { unfold sub64, wrap64. replace (len l + 32 - 32) with (len l) by lia.
    apply Z.mod_small. change (2 ^ 64) with 18446744073709551616. lia. }
  rewrite Hsub.
  set (header := take 8 inode ++ take 8 data ++ PutUint64 root ++ PutUint64 (len l)).
  assert (Hh : length header = 32%nat).
  { unfold header, PutUint64. rewrite !length_app, !length_take, !le_bytes_length. lia. }
  assert (Hnew : length newDataBlock = Z.to_nat BLOCK_SIZE).
  { pose proof newDataBlock_len as Hn. unfold len in Hn. lia. }
  assert (Hs0 : len (header ++ drop 32 newDataBlock) = BLOCK_SIZE).
  { unfold len. rewrite length_app, length_drop, Hh, Hnew. lia. }
  rewrite goCopy_eq by lia.
  cbn [obind]. rewrite goSliceFrom_eq by lia. cbn [obind].
  rewrite drop_ge by (unfold len; lia).
  change (add64 1 (len [] / BLOCK_SIZE) - 1) with 0. cbn [Z.to_nat superblocksAfter obind].
  eexists. split; [reflexivity|].
  replace (Z.min (len l + 32 - 32) (len l - 0)) with (len l) by lia.
  change (Z.to_nat 32) with 32%nat. change (Z.to_nat 0) with 0%nat. rewrite drop_0.
  unfold len at 1 2. rewrite Nat2Z.id, firstn_all.
  rewrite take_app_length' by done.
  split.
  { unfold len. rewrite !length_app, length_drop, length_app, length_drop, Hh, Hnew.
    unfold len in Hl. lia. }
  unfold arraySlice, header.
  repeat split.
  - cbn [Nat.sub]. rewrite drop_0, <- !app_assoc.
    rewrite take_app_length' by (rewrite length_take; lia). by rewrite take_ge by lia.
  - rewrite <- !app_assoc, drop_app_length' by (rewrite length_take; lia).
    change (16 - 8)%nat with 8%nat.
    rewrite take_app_length' by (rewrite length_take; lia). by rewrite take_ge by lia.
  - rewrite <- !app_assoc. rewrite (app_assoc (take 8 inode)).
    rewrite drop_app_length' by (rewrite length_app, !length_take; lia).
    change (24 - 16)%nat with 8%nat.
    by rewrite take_app_length' by (unfold PutUint64; by rewrite le_bytes_length).
  - rewrite <- !app_assoc. rewrite (app_assoc (take 8 inode)), (app_assoc (_ ++ _)).
    rewrite drop_app_length'
      by (unfold PutUint64; rewrite !length_app, !length_take, le_bytes_length; lia).
    change (32 - 24)%nat with 8%nat.
    by rewrite take_app_length' by (unfold PutUint64; by rewrite le_bytes_length).
Qed.

Lemma remount_counters `{Gob} (f : FS) (w : World) (cacheSize : Z) :
  store_inv w -> 0 < cacheSize ->
  is_u64 (rootInode f) -> is_u64 (lastInt (fsInodeStream f)) ->
  is_u64 (lastInt (dataStream w)) ->
  len (MarshalBinary (fsInodeStream f)).1 < BLOCK_SIZE - 32 ->
  exists f1 w1 f2 w2,
    Destroy f w = Ok (f1, w1)
    /\ main cacheSize w1 = Ok (f2, w2)
    /\ rootInode f2 = rootInode f
    /\ fsInodeStream f2 = mkIntStream [] (lastInt (fsInodeStream f))
    /\ dataStream w2 = mkIntStream [] (lastInt (dataStream w)).
Proof.
  intros Hinv Hc Hroot Hli Hld Hshort.
  set (l := (MarshalBinary (fsInodeStream f)).1) in *.
  destruct (makeSuperblocks_short (compressStream (fsInodeStream f))
              (compressStream (dataStream w)) (rootInode f) l)
    as (super & Hmk & Hlen & H0 & H8 & H16 & H24);
    [apply le_bytes_length|apply le_bytes_length|done|].
  destruct (putDataByKey_lookup (SuperKey 0) super w Hinv Hlen)
    as (wa & Hput & Hinva & _ & Hkeya & _ & Hdsa & _).
  destruct (empty_bucket wa (st_cache wa Hinva)) as (w1 & Hempty & Hbucket & Hds1 & _).
  set (w1' := setCache w1 (CacheM.initializeCache cacheSize)).
  assert (Hinv1 : store_inv w1').
  { apply store_inv_initial; [done|]. intros k v. rewrite Hbucket. apply (st_sized wa Hinva). }
  assert (Hsuper : lookupBlock w1' (SuperKey 0) = Some super).
  { unfold lookupBlock, keyHashAt.
    cbn [w1' cache setCache CacheM.initializeCache keyHash bucket dynamo].
    by rewrite lookup_empty, Hbucket. }
  destruct (getDataByKey_lookup (SuperKey 0) w1' Hinv1)
    as (wb & Hget & _ & _ & _ & Hdsb & _).
  rewrite Hsuper in Hget.
  assert (Hsize : Uint64 (arraySlice super 24 32) = len l).
  { rewrite H24. apply Uint64_PutUint64. unfold is_u64, len.
    change BLOCK_SIZE with 32768 in Hshort. unfold len in Hshort.
    change (2 ^ 64) with 18446744073709551616. lia. }
  pose proof (makeFs_short_list_empty_stack super wb Hlen) as Hfs.
  rewrite Hsize in Hfs. specialize (Hfs ltac:(unfold len in *; lia)).
  exists (mkFS (MarshalBinary (fsInodeStream f)).2 (rootInode f)), w1.
  eexists _, _. split.
  { unfold Destroy. rewrite (bind_Ok _ _ w w w) by done.
    fold l. rewrite (bind_Ok _ _ w _ w (lift_Ok _ _ w Hmk)).
    cbn [putSuperblocks].
    rewrite (bind_Ok _ _ w tt wa)
      by (by rewrite (bind_Ok _ _ w None wa Hput)).
    by rewrite (bind_Ok _ _ wa None w1 Hempty). }
  split.
  { unfold main. rewrite (bind_Ok _ _ w1 tt w1') by done.
    unfold mount. rewrite (bind_Ok _ _ w1' _ wb Hget). cbn [fst snd].
    rewrite (bind_Ok _ _ wb super wb) by done. exact Hfs. }
  cbn [rootInode fsInodeStream dataStream setDataStream].
  rewrite H0, H8, H16. unfold compressStream.
  rewrite !take_ge by (unfold PutUint64; rewrite le_bytes_length; lia).
  rewrite !Uint64_PutUint64 by done. rewrite Hdsa in *. done.
Qed.

(** X13: what the superblock does carry over.  When the serialised
    free-stack fits the first superblock, [Destroy] followed by the start
    of a new process ([main]) gives a filesystem with the same root inode
    number and the same two counters; both free-stacks are empty. *)
Theorem Destroy_main_keeps_counters `{Gob} (f : FS) (w : World) (cacheSize : Z) :
  store_inv w -> 0 < cacheSize ->
  is_u64 (rootInode f) -> is_u64 (lastInt (fsInodeStream f)) ->
  is_u64 (lastInt (dataStream w)) ->
  len (MarshalBinary (fsInodeStream f)).1 < BLOCK_SIZE - 32 ->
  exists f1 w1 f2 w2,
    Destroy f w = Ok (f1, w1)
    /\ main cacheSize w1 = Ok (f2, w2)
    /\ rootInode f2 = rootInode f
    /\ fsInodeStream f2 = mkIntStream [] (lastInt (fsInodeStream f))
    /\ dataStream w2 = mkIntStream [] (lastInt (dataStream w)).
Proof. apply remount_counters. Qed.

Lemma Destroy_main_keeps_counters_witness :
  exists f1 w1 f2 w2,
    Destroy (mkFS (mkIntStream [5; 3] 9) 1)
            (setCache (mkWorld ∅ ∅ (CacheM.initializeCache 0) (mkIntStream [] 12) 0 [])
                      (CacheM.initializeCache 2))
    = Ok (f1, w1)
    /\ main 4 w1 = Ok (f2, w2)
    /\ rootInode f2 = 1
    /\ fsInodeStream f2 = mkIntStream [] 9
    /\ dataStream w2 = mkIntStream [] 12.
Proof.
  apply (Destroy_main_keeps_counters (mkFS (mkIntStream [5; 3] 9) 1)
           (setCache (mkWorld ∅ ∅ (CacheM.initializeCache 0) (mkIntStream [] 12) 0 [])
                     (CacheM.initializeCache 2)) 4).
  - apply store_inv_initial; [lia|]. intros k v. cbn [bucket]. by rewrite lookup_empty.
  - lia.
  - cbn [rootInode]. unfold is_u64. lia.
  - cbn [fsInodeStream lastInt]. unfold is_u64. lia.
  - cbn [dataStream setCache lastInt]. unfold is_u64. lia.
  - vm_compute. reflexivity.
Defined.

(** ** One chunk through the direct blocks *)

Lemma store_inv_setDataStream (w : World) (s : IntStream) :
  store_inv w -> store_inv (setDataStream w s).
Proof.
  intros [Hc Hcap Hs]. split; [|done|done].
  destruct Hc as [H1 H2 H3 H4 H5]. by split.
Qed.

Lemma wrap64_small (x : Z) : 0 <= x < 2 ^ 64 -> wrap64 x = x.
Proof. intros Hx. unfold wrap64. by apply Z.mod_small. Qed.

(** [writeBlock] at offset 0 under a number that names no block: a new
    number is taken from [dataStream], and the block stored under it is
    the front of the data over a new block. *)
Lemma writeBlock_new (data : list Z) (b n : Z) (w : World) :
  store_inv w ->
  lookupBlock w (genDataKey b) = None ->
  dataStream w = mkIntStream [] n -> 0 <= n -> n + 1 < 2 ^ 64 ->
  len data < 2 ^ 64 ->
  exists w',
    writeBlock data 0 b w
    = Ok ((n + 1, drop (Z.to_nat (Z.min (len data) BLOCK_SIZE)) data), w')
    /\ store_inv w'
    /\ dataStream w' = mkIntStream [] (n + 1)
    /\ lookupBlock w' (genDataKey (n + 1))
       = Some (take (Z.to_nat (Z.min (len data) BLOCK_SIZE)) data
                 ++ drop (Z.to_nat (Z.min (len data) BLOCK_SIZE)) newDataBlock)
    /\ (forall k, k <> genDataKey (n + 1) -> lookupBlock w' k = lookupBlock w k).
Proof.
  intros Hinv Hnone Hds Hn0 Hn1 Hdata.
  assert (Hl0 : 0 <= len data) by (unfold len; lia).
  assert (HBS : 0 < BLOCK_SIZE < 2 ^ 64) by (by vm_compute).
  destruct (getDataByKey_lookup (genDataKey b) w Hinv)
    as (w1 & Hget & Hinv1 & _ & Hall1 & Hds1 & _).
  rewrite Hnone in Hget.
  set (w2 := setDataStream w1 (mkIntStream [] (n + 1))).
  assert (Hnext : dataStreamNext w1 = Ok (n + 1, w2)).
  { unfold dataStreamNext, bind, get, modify, ret. rewrite Hds1, Hds, next_empty.
    cbn [fst snd]. unfold add64. by rewrite wrap64_small by lia. }
  set (m := Z.min (len data) BLOCK_SIZE).
  assert (Hm : 0 <= m <= BLOCK_SIZE /\ m <= len data) by (unfold m; lia).
  assert (HwE : (if add64 0 (len data) >? BLOCK_SIZE then BLOCK_SIZE
                 else add64 0 (len data)) = m).
  { unfold add64. rewrite Z.add_0_l, wrap64_small by lia.
    rewrite Z.gtb_ltb. unfold m.
    destruct (Z.ltb_spec BLOCK_SIZE (len data)); lia. }
  assert (Hsub : sub64 m 0 = m).
  { unfold sub64. rewrite Z.sub_0_r. apply wrap64_small. lia. }
  pose proof newDataBlock_len as Hnl.
  assert (Hcopy : goCopy newDataBlock 0 m data 0 m
                  = Ok (take (Z.to_nat m) data ++ drop (Z.to_nat m) newDataBlock)).
  { rewrite goCopy_eq by lia. change (Z.to_nat 0) with 0%nat.
    by rewrite take_0, drop_0, Z.sub_0_r, Z.min_id. }
  assert (Hlen : len (take (Z.to_nat m) data ++ drop (Z.to_nat m) newDataBlock)
                 = BLOCK_SIZE).
  { unfold len. erewrite goCopy_length by exact Hcopy. exact Hnl. }
  destruct (putDataByKey_lookup (genDataKey (n + 1)) _ w2
              (store_inv_setDataStream w1 _ Hinv1) Hlen)
    as (w3 & Hput & Hinv3 & _ & Hkey & Hother & Hds3 & _).
  exists w3. split.
  - unfold writeBlock, getData. rewrite (bind_Ok _ _ w _ w1 Hget). cbn [fst snd].
    rewrite (bind_Ok _ _ w1 (newDataBlock, n + 1) w2)
      by (by rewrite (bind_Ok _ _ w1 (n + 1) w2 Hnext)).
    cbv zeta. rewrite HwE, Hsub.
    rewrite (bind_Ok _ _ w2 _ w2 (lift_Ok _ _ w2 Hcopy)).
    unfold putData. rewrite (bind_Ok _ _ w2 None w3 Hput).
    by rewrite (bind_Ok _ _ w3 _ w3 (lift_Ok _ _ w3 (goSliceFrom_eq data m ltac:(lia)))).
  - split; [done|]. split; [by rewrite Hds3|]. split; [done|].
    intros k Hk. rewrite Hother by done. apply Hall1.
Qed.

(** [readBlock] at offset 0 of a stored block: the front of the block is
    copied to where the data still to read begins. *)
Lemma readBlock_stored (data blk : list Z) (left b : Z) (w : World) :
  store_inv w ->
  lookupBlock w (genDataKey b) = Some blk ->
  0 < left <= len data -> len data < 2 ^ 64 ->
  exists w',
    readBlock data 0 left b w
    = Ok ((take (Z.to_nat (len data - left)) data
             ++ take (Z.to_nat (Z.min left BLOCK_SIZE)) blk
             ++ drop (Z.to_nat (len data - left) + Z.to_nat (Z.min left BLOCK_SIZE)) data,
           left - Z.min left BLOCK_SIZE), w')
    /\ store_inv w'
    /\ dataStream w' = dataStream w
    /\ (forall k, lookupBlock w' k = lookupBlock w k).
Proof.
  intros Hinv Hblk Hleft Hdata.
  assert (HBS : 0 < BLOCK_SIZE < 2 ^ 64) by (by vm_compute).
  destruct (getDataByKey_lookup (genDataKey b) w Hinv)
    as (w1 & Hget & Hinv1 & _ & Hall1 & Hds1 & _).
  rewrite Hblk in Hget. pose proof (st_sized w Hinv _ _ Hblk) as Hbl.
  set (m := Z.min left BLOCK_SIZE).
  assert (Hm : 0 < m <= BLOCK_SIZE /\ m <= left) by (unfold m; lia).
  assert (HrE : (if add64 left 0 >? BLOCK_SIZE then BLOCK_SIZE else add64 0 left) = m).
  { unfold add64. rewrite Z.add_0_r, Z.add_0_l, wrap64_small by lia.
    rewrite Z.gtb_ltb. unfold m. destruct (Z.ltb_spec BLOCK_SIZE left); lia. }
  assert (Hsub : sub64 m 0 = m).
  { unfold sub64. rewrite Z.sub_0_r. apply wrap64_small. lia. }
  assert (Hstart : sub64 (len data) left = len data - left).
  { unfold sub64. apply wrap64_small. lia. }
  assert (Hend : add64 (len data - left) m = len data - left + m).
  { unfold add64. apply wrap64_small. lia. }
  exists w1. split; [|done].
  unfold readBlock, getData. rewrite (bind_Ok _ _ w _ w1 Hget). cbn [fst snd].
  cbv zeta. rewrite HrE, Hsub, Hstart, Hend.
  rewrite (bind_Ok _ _ w1 _ w1
             (lift_Ok _ _ w1 (goCopy_eq data (len data - left) (len data - left + m)
                                        blk 0 m ltac:(lia) ltac:(lia) ltac:(lia) ltac:(lia)))).
  unfold ret. do 3 f_equal.
  - replace (Z.min (len data - left + m - (len data - left)) (m - 0)) with m by lia.
    change (Z.to_nat 0) with 0%nat. by rewrite drop_0.
  - unfold sub64. apply wrap64_small. lia.
Qed.

Lemma take_take_drop_Z (l : list Z) (a b : Z) :
  0 <= a -> 0 <= b ->
  take (Z.to_nat a) l ++ take (Z.to_nat b) (drop (Z.to_nat a) l) = take (Z.to_nat (a + b)) l.
Proof. intros Ha Hb. by rewrite Z2Nat.inj_add, take_take_drop by lia. Qed.

Lemma drop_drop_Z (l : list Z) (a b : Z) :
  0 <= a -> 0 <= b ->
  drop (Z.to_nat b) (drop (Z.to_nat a) l) = drop (Z.to_nat (a + b)) l.
Proof. intros Ha Hb. by rewrite Z2Nat.inj_add, drop_drop by lia. Qed.

Lemma len_drop_Z (l : list Z) (a : Z) :
  0 <= a -> len (drop (Z.to_nat a) l) = Z.max 0 (len l - a).
Proof. intros Ha. unfold len. rewrite length_drop. lia. Qed.

Lemma dataEntries_at (n c k : Z) :
  0 <= c <= 12 -> 0 <= k < 15 ->
  nth (Z.to_nat k) (dataEntries n c) 0 = if k <? c then n + 1 + k else 0.
Proof.
  intros Hc Hk. unfold dataEntries. rewrite nth_lookup.
  destruct (Z.ltb_spec k c) as [Hlt|Hge].
  - rewrite lookup_app_l by (rewrite length_map, length_seq; lia).
    rewrite list_lookup_fmap, lookup_seq_lt by lia. cbn. lia.
  - rewrite lookup_app_r by (rewrite length_map, length_seq; lia).
    rewrite length_map, length_seq. by rewrite lookup_replicate_2 by lia.
Qed.

Lemma dataEntries_succ (n c : Z) :
  0 <= c < 12 ->
  <[Z.to_nat c := n + c + 1]> (dataEntries n c) = dataEntries n (c + 1).
Proof.
  intros Hc. unfold dataEntries.
  rewrite insert_app_r_alt by (rewrite length_map, length_seq; lia).
  rewrite length_map, length_seq, Nat.sub_diag.
  replace (15 - Z.to_nat c)%nat with (S (15 - Z.to_nat (c + 1))) by lia.
  cbn [replicate]. cbn [list_insert base.insert].
  replace (Z.to_nat (c + 1)) with (Z.to_nat c + 1)%nat by lia.
  rewrite seq_app, map_app, <- app_assoc. cbn [seq map app Nat.add].
  do 2 f_equal. lia.
Qed.

(** Linear arithmetic with the block size as a number. *)
Ltac blia := unfold BLOCK_SIZE, len in *; lia.

Lemma genDataKey_inj (a b : Z) : genDataKey a = genDataKey b -> a = b.
Proof. unfold genDataKey. by intros [= ->]. Qed.

(** The loop of [writeDataBlocks] over the direct blocks of an inode that
    has none, from offset 0: the blocks of the data are stored under new
    numbers, which the inode records in order. *)
Lemma writeDataBlocks_direct (i : Inode) (data : list Z) (n : Z) (w : World) :
  store_inv w ->
  Data i = replicate 15 0 ->
  lookupBlock w (genDataKey 0) = None ->
  dataStream w = mkIntStream [] n -> 0 <= n -> n + 12 < 2 ^ 64 ->
  0 < len data <= NUM_DATA_BLOCKS * BLOCK_SIZE ->
  exists c w',
    writeDataBlocks i data 0 w
    = Ok (mkInode (Size i) (LinkCount i) (UnixTime i) (IsDir i) (DataBuf i)
                  (dataEntries n c), w')
    /\ store_inv w'
    /\ 0 < c <= 12 /\ (c - 1) * BLOCK_SIZE < len data <= c * BLOCK_SIZE
    /\ dataStream w' = mkIntStream [] (n + c)
    /\ (forall j, 0 <= j < c ->
          lookupBlock w' (genDataKey (n + 1 + j)) = Some (blockOf data j)).
Proof.
  intros Hinv HData Hzero Hds Hn0 Hn12 Hlen.
  assert (HBS : BLOCK_SIZE = 32768) by reflexivity.
  change NUM_DATA_BLOCKS with 12 in Hlen.
  set (withData := fun d => mkInode (Size i) (LinkCount i) (UnixTime i) (IsDir i)
                                    (DataBuf i) d).
  set (body := fun (j : Z) (s : Inode * list Z * Z) =>
                 let '(i, data, offset) := s in
                 if (offset <? BLOCK_SIZE) && (0 <? len data) then
                   r <- writeBlock data offset (dataAt i j) ;;
                   ret (setDataAt i j r.1, r.2, 0)
                 else ret (i, data, sub64 offset BLOCK_SIZE)).
  destruct (forLoop_run
              (fun k (s : Inode * list Z * Z) wk =>
                 exists c,
                   0 <= c <= Z.of_N k
                   /\ s.1.2 = drop (Z.to_nat (c * BLOCK_SIZE)) data
                   /\ (c < Z.of_N k -> s.1.2 = [])
                   /\ (0 < c -> (c - 1) * BLOCK_SIZE < len data)
                   /\ (0 < len s.1.2 -> s.2 = 0)
                   /\ s.1.1 = withData (dataEntries n c)
                   /\ store_inv wk
                   /\ dataStream wk = mkIntStream [] (n + c)
                   /\ lookupBlock wk (genDataKey 0) = None
                   /\ (forall j, 0 <= j < c ->
                         lookupBlock wk (genDataKey (n + 1 + j)) = Some (blockOf data j)))
              (Z.to_N NUM_DATA_BLOCKS) 1 always body (i, data, 0) w)
    as (k & [[i' d'] o'] & w' & Hrun & (c & Hc & Hd & Hdone & Hprev & _ & Hi & Hinv' & Hds'
                                        & _ & Hblocks) & _ & Hend).
  - exists 0. cbn [fst snd]. split; [blia|]. split; [by rewrite drop_0|].
    split; [blia|]. split; [blia|]. split; [done|]. split.
    { unfold withData. destruct i. cbn in *. by rewrite HData. }
    split; [done|]. split; [by rewrite Z.add_0_r|]. split; [done|]. intros j Hj. blia.
  - intros k [[ik dk] ok] wk Hk (c & Hc & Hd & Hdone & Hprev & Hoff & Hi & Hinvk & Hdsk
                                 & Hzk & Hblk) _.
    cbn [fst snd] in *. change (Z.to_N NUM_DATA_BLOCKS) with 12%N in Hk.
    unfold body. destruct (Z.ltb_spec 0 (len dk)) as [Hpos|Hempty].
    + (* a block is written *)
      rewrite (Hoff Hpos). change (0 <? BLOCK_SIZE) with true. cbn [andb].
      assert (Hck : c = Z.of_N k).
      { destruct (decide (c < Z.of_N k)) as [Hlt|Hge]; [|blia].
        rewrite (Hdone Hlt) in Hpos. unfold len in Hpos. cbn in Hpos. blia. }
      assert (Hat : dataAt ik (Z.of_N k * 1) = 0).
      { subst ik. unfold dataAt, withData. cbn [Data]. rewrite Z.mul_1_r.
        rewrite dataEntries_at by blia.
        destruct (Z.ltb_spec (Z.of_N k) c); [blia|done]. }
      rewrite Hat.
      assert (Hdl : len dk = len data - c * BLOCK_SIZE).
      { rewrite Hd, len_drop_Z by blia. rewrite Hd, len_drop_Z in Hpos by blia. blia. }
      destruct (writeBlock_new dk 0 (n + c) wk Hinvk Hzk Hdsk ltac:(blia) ltac:(blia)
                               ltac:(blia))
        as (w2 & Hwb & Hinv2 & Hds2 & Hkey2 & Hother2).
      eexists (_, _, _), w2. split.
      { rewrite (bind_Ok _ _ wk _ w2 Hwb). cbn [fst snd]. reflexivity. }
      exists (c + 1). cbn [fst snd]. split; [blia|]. split.
      { set (m := Z.min (len dk) BLOCK_SIZE). rewrite Hd.
        rewrite drop_drop_Z by blia. subst m.
        destruct (Z.le_ge_cases (len dk) BLOCK_SIZE) as [Hle|Hge].
        - rewrite Z.min_l by blia. rewrite !drop_ge; [done| |]; blia.
        - rewrite Z.min_r by blia. do 2 f_equal. blia. }
      split; [blia|]. split; [blia|]. split; [done|]. split.
      { subst ik. unfold setDataAt, withData. cbn [Size LinkCount UnixTime IsDir DataBuf Data].
        rewrite Z.mul_1_r, <- Hck. by rewrite <- dataEntries_succ by blia. }
      split; [done|]. split; [by rewrite Hds2, Z.add_assoc|]. split.
      { rewrite Hother2; [done|]. intros Heq%genDataKey_inj. blia. }
      intros j Hj. destruct (decide (j = c)) as [->|Hne].
      * replace (n + 1 + c) with (n + c + 1) by lia.
        rewrite Hkey2. f_equal. unfold blockOf. by rewrite <- Hd.
      * rewrite Hother2; [apply Hblk; blia|]. intros Heq%genDataKey_inj. blia.
    + (* the data is written: nothing to do *)
      replace (0 <? len dk) with false by (symmetry; apply Z.ltb_ge; blia).
      rewrite andb_false_r.
      eexists (_, _, _), wk. split; [reflexivity|].
      assert (Hnil : dk = []).
      { destruct dk; [done|]. unfold len in Hempty. cbn in Hempty. blia. }
      exists c. cbn [fst snd]. split; [blia|]. split; [done|]. split; [done|].
      split; [done|]. split; [rewrite Hnil; unfold len; cbn; blia|]. done.
  - cbn [fst snd] in *. destruct Hend as [Hf| ->]; [done|].
    change (Z.to_N NUM_DATA_BLOCKS) with 12%N in *.
    assert (Hnil : d' = []).
    { destruct (decide (c < 12)) as [Hlt|Hge]; [by apply Hdone|].
      rewrite Hd. apply drop_ge. unfold len in Hlen. blia. }
    assert (Hcpos : 0 < c).
    { destruct (decide (c = 0)) as [->|]; [|blia].
      rewrite Hnil in Hd. cbn in Hd. rewrite drop_0 in Hd. rewrite <- Hd in Hlen.
      unfold len in Hlen. cbn in Hlen. blia. }
    assert (Hupper : len data <= c * BLOCK_SIZE).
    { rewrite Hnil in Hd. apply (f_equal len) in Hd. rewrite len_drop_Z in Hd by blia.
      unfold len at 1 in Hd. cbn in Hd. blia. }
    exists c, w'. split.
    + unfold writeDataBlocks. fold body.
      rewrite (bind_Ok _ _ w _ w' Hrun). subst i' d'.
      cbv beta iota. rewrite !Hnil. change (0 <? len []) with false. cbn [andb].
      unfold bind, ret. reflexivity.
    + split; [done|]. split; [blia|]. split; [blia|]. done.
Qed.

(** The loop of [readDataBlocks] over direct blocks stored as
    [writeDataBlocks_direct] leaves them: the buffer is filled with the
    content. *)
Lemma readDataBlocks_direct (i : Inode) (content buf0 : list Z) (n c : Z) (w : World) :
  store_inv w ->
  Data i = dataEntries n c -> 0 < c <= 12 ->
  373 < len content < 2 ^ 64 -> len buf0 = len content ->
  (c - 1) * BLOCK_SIZE < len content - 373 <= c * BLOCK_SIZE ->
  (forall j, 0 <= j < c ->
     lookupBlock w (genDataKey (n + 1 + j))
     = Some (blockOf (drop (Z.to_nat 373) content) j)) ->
  exists w',
    readDataBlocks i (take (Z.to_nat 373) content ++ drop (Z.to_nat 373) buf0) 0
                   (len content - 373) w
    = Ok (content, w')
    /\ store_inv w'
    /\ dataStream w' = dataStream w
    /\ (forall k, lookupBlock w' k = lookupBlock w k).
Proof.
  intros Hinv HData Hc Hcontent Hbuf0 HL Hblocks.
  remember (len content - 373) as L eqn:HLdef.
  set (body := fun (j : Z) (s : ReadVars) =>
                 let '(data, offset, leftToRead) := s in
                 if (0 <? leftToRead) && (offset <? BLOCK_SIZE) then
                   r <- readBlock data offset leftToRead (dataAt i j) ;;
                   ret (r.1, 0, r.2)
                 else ret (data, sub64 offset BLOCK_SIZE, leftToRead)).
  destruct (forLoop_run
              (fun k (s : ReadVars) wk =>
                 exists r,
                   0 <= r <= Z.of_N k /\ r <= c
                   /\ s.1.1 = take (Z.to_nat (373 + Z.min (r * BLOCK_SIZE) L)) content
                               ++ drop (Z.to_nat (373 + Z.min (r * BLOCK_SIZE) L)) buf0
                   /\ s.2 = L - Z.min (r * BLOCK_SIZE) L
                   /\ (0 < s.2 -> s.1.2 = 0 /\ r = Z.of_N k)
                   /\ store_inv wk
                   /\ dataStream wk = dataStream w
                   /\ (forall key, lookupBlock wk key = lookupBlock w key))
              (Z.to_N NUM_DATA_BLOCKS) 1 always body
              (take (Z.to_nat 373) content ++ drop (Z.to_nat 373) buf0, 0, L) w)
    as (k & [[b' o'] l'] & w' & Hrun & (r & Hr & Hrc & Hb & Hl & Hpos & Hinv' & Hds' & Hlook')
        & _ & Hend).
  - exists 0. cbn [fst snd]. rewrite Z.mul_0_l, Z.min_l, Z.add_0_r, Z.sub_0_r by blia.
    split; [lia|]. split; [lia|]. done.
  - intros k [[bk ok] lk] wk Hk (r & Hr & Hrc & Hb & Hl & Hpos & Hinvk & Hdsk & Hlookk) _.
    cbn [fst snd] in *. change (Z.to_N NUM_DATA_BLOCKS) with 12%N in Hk.
    unfold body. destruct (Z.ltb_spec 0 lk) as [Hlk|Hlk].
    + destruct (Hpos Hlk) as [-> ->]. change (0 <? BLOCK_SIZE) with true. cbn [andb].
      remember (Z.of_N k) as r eqn:Hrdef.
      assert (Hrl : r * BLOCK_SIZE < L) by blia.
      assert (Hrc' : r < c) by blia.
      rewrite Z.min_l in Hb, Hl by blia.
      assert (Hat : dataAt i (r * 1) = n + 1 + r).
      { unfold dataAt. rewrite HData, Z.mul_1_r, dataEntries_at by lia.
        destruct (Z.ltb_spec r c); [done|lia]. }
      rewrite Hat.
      assert (Hbl : len bk = len content).
      { rewrite Hb. unfold len. rewrite length_app, length_take, length_drop. blia. }
      set (m := Z.min lk BLOCK_SIZE).
      destruct (readBlock_stored bk (blockOf (drop (Z.to_nat 373) content) r) lk (n + 1 + r) wk
                  Hinvk) as (w2 & Hrb & Hinv2 & Hds2 & Hlook2).
      { rewrite Hlookk. apply Hblocks. lia. }
      { blia. }
      { blia. }
      eexists (_, _, _), w2. split.
      { rewrite (bind_Ok _ _ wk _ w2 Hrb). cbn [fst snd]. reflexivity. }
      exists (r + 1). cbn [fst snd]. fold m.
      assert (Hm : 0 < m <= BLOCK_SIZE /\ m <= lk) by (unfold m; blia).
      assert (Hmin : Z.min ((r + 1) * BLOCK_SIZE) L = r * BLOCK_SIZE + m) by (unfold m; blia).
      split; [lia|]. split; [lia|]. split.
      { rewrite Hmin. replace (len bk - lk) with (373 + r * BLOCK_SIZE) by blia.
        rewrite Hb at 1. rewrite take_app_length' by (rewrite length_take; blia).
        rewrite Hb.
        rewrite <- drop_drop, drop_app_length' by (rewrite length_take; blia).
        rewrite drop_drop_Z by blia.
        replace (373 + (r * BLOCK_SIZE + m)) with (373 + r * BLOCK_SIZE + m) by lia.
        rewrite <- (take_take_drop_Z content (373 + r * BLOCK_SIZE) m) by blia.
        rewrite <- app_assoc. do 2 f_equal.
        unfold blockOf.
        assert (Hdj : len (drop (Z.to_nat (r * BLOCK_SIZE)) (drop (Z.to_nat 373) content)) = lk).
        { rewrite !len_drop_Z by blia. blia. }
        rewrite Hdj. fold m.
        rewrite take_app_length'
          by (rewrite length_take, !length_drop; blia).
        by rewrite drop_drop_Z by blia. }
      split; [blia|]. split; [intros _; split; [done|lia]|]. split; [done|].
      split; [congruence|]. intros key. by rewrite Hlook2.
    + replace (0 <? lk) with false by (symmetry; apply Z.ltb_ge; lia). cbn [andb].
      eexists (_, _, _), wk. split; [reflexivity|].
      exists r. cbn [fst snd]. split; [lia|]. split; [done|]. split; [done|]. split; [done|].
      split; [intros ?; lia|]. done.
  - cbn [fst snd] in *. destruct Hend as [Hf| ->]; [done|].
    change (Z.to_N NUM_DATA_BLOCKS) with 12%N in *.
    assert (Hl0 : l' = 0).
    { destruct (Z.ltb_spec 0 l') as [Hp|Hp]; [|blia].
      destruct (Hpos Hp) as [_ ->]. blia. }
    assert (Hfull : Z.min (r * BLOCK_SIZE) L = L) by lia.
    exists w'. split; [|done].
    unfold readDataBlocks. fold body.
    rewrite (bind_Ok _ _ w _ w' Hrun). rewrite Hl0.
    cbv beta iota. change (0 <? 0) with false. cbn [andb].
    unfold bind, ret. cbn [fst]. do 2 f_equal.
    rewrite Hb, Hfull. replace (Z.to_nat (373 + L)) with (length content) by blia.
    rewrite firstn_all, drop_ge by blia. by rewrite app_nil_r.
Qed.

(** X16: a content that reaches into the direct blocks, written in one
    [writeToData] at offset 0 to an inode that has no block yet, is
    returned by [readFromData]; the write takes one new block number for
    each block of the content past the buffer, and the inode records these
    numbers in order. *)
Theorem writeToData_direct_reads_back (i : Inode) (content : list Z) (n : Z) (w : World) :
  store_inv w ->
  len (DataBuf i) = INODE_BUFFER_SIZE ->
  Data i = replicate 15 0 ->
  lookupBlock w (genDataKey 0) = None ->
  dataStream w = mkIntStream [] n -> 0 <= n -> n + 12 < 2 ^ 64 ->
  INODE_BUFFER_SIZE < len content <= INODE_BUFFER_SIZE + NUM_DATA_BLOCKS * BLOCK_SIZE ->
  exists i' w1 w2 c,
    writeToData i content 0 w = Ok (i', w1)
    /\ readFromData i' 0 (len content) w1 = Ok ((content, None), w2)
    /\ (c - 1) * BLOCK_SIZE < len content - INODE_BUFFER_SIZE <= c * BLOCK_SIZE
    /\ dataStream w1 = mkIntStream [] (n + c)
    /\ Data i' = dataEntries n c.
Proof.
  intros Hinv Hbuf HData Hzero Hds Hn0 Hn12 Hlen.
  change INODE_BUFFER_SIZE with 373 in *. change NUM_DATA_BLOCKS with 12 in *.
  assert (H64 : 2 ^ 64 = 18446744073709551616) by reflexivity.
  remember (len content) as size eqn:Hsize.
  assert (Hsz : size < 2 ^ 64) by blia.
  assert (Hadd : add64 size 0 = size).
  { unfold add64. rewrite Z.add_0_r. apply wrap64_small. lia. }
  assert (Hsub0 : sub64 size 0 = size).
  { unfold sub64. rewrite Z.sub_0_r. apply wrap64_small. lia. }
  assert (H373 : sub64 373 0 = 373) by reflexivity.
  assert (Hleft : sub64 size 373 = size - 373).
  { unfold sub64. apply wrap64_small. lia. }
  set (i1 := setUnixTime (setSize i size) (clock w)).
  assert (Hcopy : goCopy (DataBuf i1) 0 373 content 0 373
                  = Ok (take (Z.to_nat 373) content)).
  { rewrite goCopy_eq by (cbn [i1 DataBuf setUnixTime setSize]; blia).
    cbn [i1 DataBuf setUnixTime setSize]. rewrite Z.sub_0_r, Z.min_id.
    change (Z.to_nat 0) with 0%nat. rewrite take_0, drop_0. cbn [app Nat.add].
    rewrite drop_ge by blia. by rewrite app_nil_r. }
  set (i2 := setDataBuf i1 (take (Z.to_nat 373) content)).
  destruct (writeDataBlocks_direct i2 (drop (Z.to_nat 373) content) n w Hinv HData Hzero Hds
              Hn0 Hn12)
    as (c & w1 & Hwrite & Hinv1 & Hc & Hcl & Hds1 & Hblocks).
  { rewrite len_drop_Z by lia. change NUM_DATA_BLOCKS with 12. blia. }
  rewrite len_drop_Z in Hcl by lia.
  set (i' := mkInode (Size i2) (LinkCount i2) (UnixTime i2) (IsDir i2) (DataBuf i2)
                     (dataEntries n c)) in *.
  assert (Hrcopy : goCopy (makeBytes size) 0 373 (DataBuf i') 0 373
                   = Ok (take (Z.to_nat 373) content
                           ++ drop (Z.to_nat 373) (makeBytes size))).
  { rewrite goCopy_eq;
      [|lia|rewrite makeBytes_len; lia|lia
       |cbn [i' i2 DataBuf setDataBuf]; unfold len; rewrite length_take; blia].
    cbn [i' i2 DataBuf setDataBuf]. rewrite Z.sub_0_r, Z.min_id.
    change (Z.to_nat 0) with 0%nat. rewrite take_0, drop_0. cbn [app Nat.add].
    by rewrite take_idemp. }
  destruct (readDataBlocks_direct i' content (makeBytes size) n c w1 Hinv1)
    as (w2 & Hread & _); [done|lia|blia|rewrite makeBytes_len; blia|blia|done|].
  exists i', w1, w2, c. split; [|split; [|split; [blia|done]]].
  - unfold writeToData. rewrite <- Hsize, Hadd.
    rewrite (bind_Ok _ _ w i1 w) by done.
    change (0 <? INODE_BUFFER_SIZE) with true. cbv beta iota zeta.
    change INODE_BUFFER_SIZE with 373. rewrite Hsub0.
    replace (size <? 373) with false by (symmetry; apply Z.ltb_ge; lia).
    rewrite H373.
    rewrite (bind_Ok _ _ w (i2, drop (Z.to_nat 373) content) w).
    + cbv beta iota.
      replace (0 <? len (drop (Z.to_nat 373) content)) with true
        by (symmetry; apply Z.ltb_lt; rewrite len_drop_Z by lia; blia).
      exact Hwrite.
    + rewrite (bind_Ok _ _ w _ w (lift_Ok _ _ w Hcopy)).
      by rewrite (bind_Ok _ _ w _ w
                    (lift_Ok _ _ w (goSliceFrom_eq content 373 ltac:(blia)))).
  - subst size. unfold readFromData.
    replace (0 >=? Size i') with false
      by (symmetry; rewrite Z.geb_leb; apply Z.leb_gt;
          cbn [i' i2 i1 Size setDataBuf setUnixTime setSize]; lia).
    change (0 <? INODE_BUFFER_SIZE) with true. cbv beta iota zeta.
    change INODE_BUFFER_SIZE with 373. rewrite Hadd.
    replace (len content <? 373) with false by (symmetry; apply Z.ltb_ge; lia).
    rewrite H373, Hleft.
    rewrite (bind_Ok _ _ w1 (take (Z.to_nat 373) content
                               ++ drop (Z.to_nat 373) (makeBytes (len content)),
                             0, len content - 373) w1).
    + cbv beta iota.
      replace (0 <? len content - 373) with true by (symmetry; apply Z.ltb_lt; lia).
      by rewrite (bind_Ok _ _ w1 content w2 Hread).
    + by rewrite (bind_Ok _ _ w1 _ w1 (lift_Ok _ _ w1 Hrcopy)).
Qed.

Lemma writeToData_direct_reads_back_witness :
  exists i' w1 w2 c,
    writeToData zeroInode twoBlockContent 0
                (setCache (newWorld 0 0) (CacheM.initializeCache 1)) = Ok (i', w1)
    /\ readFromData i' 0 (len twoBlockContent) w1 = Ok ((twoBlockContent, None), w2)
    /\ (c - 1) * BLOCK_SIZE < len twoBlockContent - INODE_BUFFER_SIZE <= c * BLOCK_SIZE
    /\ dataStream w1 = mkIntStream [] (1 + c)
    /\ Data i' = dataEntries 1 c.
Proof.
  assert (Hlen : len twoBlockContent = INODE_BUFFER_SIZE + BLOCK_SIZE + 5).
  { unfold twoBlockContent, len. rewrite length_replicate. apply Z2Nat.id. by vm_compute. }
  apply writeToData_direct_reads_back.
  - apply store_inv_initial; [lia|]. intros k v. cbn [bucket newWorld].
    by rewrite lookup_empty.
  - apply makeBytes_len. by vm_compute.
  - reflexivity.
  - reflexivity.
  - reflexivity.
  - lia.
  - reflexivity.
  - rewrite Hlen. change INODE_BUFFER_SIZE with 373. change NUM_DATA_BLOCKS with 12.
    unfold BLOCK_SIZE. lia.
Defined.

(** ** Directories whose table fits the inode buffer *)

Lemma encodeInode_len (i : Inode) :
  len (DataBuf i) = INODE_BUFFER_SIZE -> len (Data i) = 15 ->
  len (encodeInode i) = INODE_SIZE.
Proof.
  intros HB HD. unfold encodeInode, len in *. change INODE_BUFFER_SIZE with 373 in HB.
  rewrite !length_app, !le_bytes_length, concat_le_bytes_length.
  change INODE_SIZE with 512. lia.
Qed.

(** [putInode] returns, whether it finds a block for the inode or not. *)
Lemma putInode_returns (i : Inode) (n : Z) (w : World) :
  store_inv w -> len (encodeInode i) = INODE_SIZE ->
  exists err w',
    putInode i n w = Ok (err, w')
    /\ store_inv w'
    /\ (forall k, k <> genInodeBlockKey n -> lookupBlock w' k = lookupBlock w k)
    /\ (is_Some (lookupBlock w (genInodeBlockKey n)) ->
        exists blk,
          lookupBlock w (genInodeBlockKey n) = Some blk
          /\ lookupBlock w' (genInodeBlockKey n)
             = Some (take (Z.to_nat (n mod 64 * 512)) blk ++ encodeInode i
                       ++ drop (Z.to_nat (n mod 64 * 512) + length (encodeInode i)) blk))
    /\ dataStream w' = dataStream w /\ clock w' = clock w.
Proof.
  intros Hinv Henc.
  destruct (lookupBlock w (genInodeBlockKey n)) as [blk|] eqn:Hblk.
  - destruct (putInode_lookup i n w Hinv Henc)
      as (w' & blk' & Hput & Hinv' & Hb & _ & Hkey & Hother & Hds & _ & Hclk);
      [left; by rewrite Hblk|].
    exists None, w'. split; [done|]. split; [done|]. split; [done|]. split; [|done].
    intros _. exists blk. split; [done|]. rewrite Hblk in Hb. cbn in Hb. by subst blk'.
  - destruct (decide (n mod 64 = 0 \/ n = 1)) as [Hn|Hn].
    + destruct (putInode_lookup i n w Hinv Henc)
        as (w' & blk' & Hput & Hinv' & _ & _ & _ & Hother & Hds & _ & Hclk);
        [by right|].
      exists None, w'. split; [done|]. split; [done|]. split; [done|].
      split; [by intros [? [=]]|done].
    + destruct (putInode_missing i n w Hinv Hblk) as (w' & Hput & Hinv' & Hall & Hds & _ & Hclk);
        [tauto|tauto|].
      exists (Some ErrNoSuchKey), w'. split; [done|]. split; [done|].
      split; [intros k _; apply Hall|]. split; [by intros [? [=]]|done].
Qed.

(** Reading the whole content of a file that fits the buffer. *)
Lemma readFromData_inline (i : Inode) (w : World) :
  len (DataBuf i) = INODE_BUFFER_SIZE -> 0 < Size i <= INODE_BUFFER_SIZE ->
  readFromData i 0 (Size i) w = Ok ((take (Z.to_nat (Size i)) (DataBuf i), None), w).
Proof.
  intros Hbuf Hs. change INODE_BUFFER_SIZE with 373 in *.
  assert (H64 : 2 ^ 64 = 18446744073709551616) by reflexivity.
  assert (Hadd : add64 (Size i) 0 = Size i).
  { unfold add64, wrap64. rewrite Z.add_0_r. apply Z.mod_small. lia. }
  assert (Hsub : sub64 (Size i) 0 = Size i).
  { unfold sub64, wrap64. rewrite Z.sub_0_r. apply Z.mod_small. lia. }
  assert (Hnn : sub64 (Size i) (Size i) = 0) by (unfold sub64, wrap64; by rewrite Z.sub_diag).
  assert (Hend : (if Size i <? 373 then Size i else 373) = Size i).
  { destruct (Z.ltb_spec (Size i) 373); lia. }
  unfold readFromData.
  replace (0 >=? Size i) with false by (symmetry; rewrite Z.geb_leb; apply Z.leb_gt; lia).
  change (0 <? INODE_BUFFER_SIZE) with true. cbv beta iota zeta.
  change INODE_BUFFER_SIZE with 373. rewrite Hadd, Hend, Hsub, Hnn.
  rewrite (bind_Ok _ _ w (take (Z.to_nat (Size i)) (DataBuf i), 0, 0) w).
  - cbv beta iota. change (0 <? 0) with false. cbv beta iota. by unfold bind, ret.
  - rewrite (bind_Ok _ _ w (take (Z.to_nat (Size i)) (DataBuf i)) w); [done|].
    apply lift_Ok. rewrite goCopy_eq; [|lia|rewrite makeBytes_len; lia|lia|lia].
    rewrite Z.sub_0_r, Z.min_id. change (Z.to_nat 0) with 0%nat.
    rewrite take_0, drop_0. cbn [app Nat.add]. f_equal.
    rewrite drop_ge; [by rewrite app_nil_r|].
    pose proof (makeBytes_len (Size i) ltac:(lia)) as Hm. unfold len in Hm. lia.
Qed.

(** Writing a content that fits the buffer in one chunk at offset 0. *)
Lemma writeToData_inline (i : Inode) (data : list Z) (w : World) :
  len (DataBuf i) = INODE_BUFFER_SIZE -> 0 < len data <= INODE_BUFFER_SIZE ->
  writeToData i data 0 w
  = Ok (mkInode (len data) (LinkCount i) (clock w) (IsDir i)
                (data ++ drop (length data) (DataBuf i)) (Data i), w).
Proof.
  intros Hbuf Hd. change INODE_BUFFER_SIZE with 373 in *.
  assert (H64 : 2 ^ 64 = 18446744073709551616) by reflexivity.
  remember (len data) as n eqn:Hn.
  assert (Hadd : add64 n 0 = n).
  { unfold add64, wrap64. rewrite Z.add_0_r. apply Z.mod_small. lia. }
  assert (Hsub : sub64 n 0 = n).
  { unfold sub64, wrap64. rewrite Z.sub_0_r. apply Z.mod_small. lia. }
  assert (Hend : (if n <? 373 then n else 373) = n).
  { destruct (Z.ltb_spec n 373); lia. }
  unfold writeToData, updateSize. rewrite <- Hn, Hadd.
  rewrite (bind_Ok _ _ w (setUnixTime (setSize i n) (clock w)) w) by done.
  change (0 <? INODE_BUFFER_SIZE) with true. cbv beta iota zeta.
  change INODE_BUFFER_SIZE with 373. rewrite Hsub, Hend, Hsub.
  rewrite (bind_Ok _ _ w
             (setDataBuf (setUnixTime (setSize i n) (clock w))
                         (data ++ drop (length data) (DataBuf i)), []) w).
  - cbv beta iota. change (0 <? len []) with false. cbv beta iota. unfold ret.
    by destruct i.
  - cbn [DataBuf setUnixTime setSize].
    rewrite (bind_Ok _ _ w (data ++ drop (length data) (DataBuf i)) w).
    + rewrite (bind_Ok _ _ w [] w); [done|].
      apply lift_Ok. rewrite goSliceFrom_eq by lia. f_equal.
      apply drop_ge. unfold len in Hn. lia.
    + apply lift_Ok. rewrite goCopy_eq by lia.
      rewrite Z.sub_0_r, Z.min_id. change (Z.to_nat 0) with 0%nat.
      rewrite take_0, drop_0. cbn [app Nat.add].
      replace (Z.to_nat n) with (length data) by (unfold len in Hn; lia).
      by rewrite firstn_all.
Qed.

(** The table of a directory whose content fits the buffer. *)
Lemma getTable_inline `{Gob} (i : Inode) (t : gmap string Z) (w : World) :
  len (DataBuf i) = INODE_BUFFER_SIZE -> 0 < Size i <= INODE_BUFFER_SIZE ->
  gobDecodeTable (take (Z.to_nat (Size i)) (DataBuf i)) = Some t ->
  getTable i w = Ok ((t, None), w).
Proof.
  intros Hbuf Hs Hdec. unfold getTable.
  rewrite (bind_Ok _ _ w _ w (readFromData_inline i w Hbuf Hs)).
  cbn [fst snd]. unfold InodeTable.UnmarshalBinary. by rewrite Hdec.
Qed.

(** The inode [writeToData] leaves when a table is written over a
    directory whose content fits the buffer, and the table read from it. *)
Lemma getTable_written `{Gob} (i : Inode) (t : gmap string Z) (w w' : World) :
  len (DataBuf i) = INODE_BUFFER_SIZE ->
  0 < len (gobEncodeTable t) <= INODE_BUFFER_SIZE ->
  gobDecodeTable (gobEncodeTable t) = Some t ->
  exists i',
    writeToData i (InodeTable.MarshalBinary t) 0 w = Ok (i', w)
    /\ getTable i' w' = Ok ((t, None), w')
    /\ len (DataBuf i') = INODE_BUFFER_SIZE /\ Data i' = Data i
    /\ Size i' = len (gobEncodeTable t)
    /\ LinkCount i' = LinkCount i /\ IsDir i' = IsDir i.
Proof.
  intros Hbuf Hlen Hdec. unfold InodeTable.MarshalBinary.
  eexists. split; [by apply writeToData_inline|].
  cbn [DataBuf Data Size LinkCount IsDir].
  assert (Hb : len (gobEncodeTable t ++ drop (length (gobEncodeTable t)) (DataBuf i))
               = INODE_BUFFER_SIZE).
  { unfold len in *. rewrite length_app, length_drop. lia. }
  split; [|done].
  apply getTable_inline; cbn [DataBuf Size]; [done|done|].
  unfold len. rewrite Nat2Z.id, take_app_length. done.
Qed.

Lemma addFile_table `{Gob} (d : Dir) (name : string) (num : Z) (t : gmap string Z)
    (w : World) :
  store_inv w ->
  len (DataBuf (inode d)) = INODE_BUFFER_SIZE -> len (Data (inode d)) = 15 ->
  0 < Size (inode d) <= INODE_BUFFER_SIZE ->
  gobDecodeTable (take (Z.to_nat (Size (inode d))) (DataBuf (inode d))) = Some t ->
  0 < len (gobEncodeTable (<[name := num]> t)) <= INODE_BUFFER_SIZE ->
  gobDecodeTable (gobEncodeTable (<[name := num]> t)) = Some (<[name := num]> t) ->
  exists d' w',
    addFile d name num w = Ok (d', w')
    /\ getTable (inode d') w' = Ok ((<[name := num]> t, None), w')
    /\ inodeNum d' = inodeNum d /\ inodeStream d' = inodeStream d
    /\ store_inv w'
    /\ (forall k, k <> genInodeBlockKey (inodeNum d) -> lookupBlock w' k = lookupBlock w k)
    /\ (is_Some (lookupBlock w (genInodeBlockKey (inodeNum d))) ->
        exists blk,
          lookupBlock w (genInodeBlockKey (inodeNum d)) = Some blk
          /\ lookupBlock w' (genInodeBlockKey (inodeNum d))
             = Some (take (Z.to_nat (inodeNum d mod 64 * 512)) blk ++ encodeInode (inode d')
                       ++ drop (Z.to_nat (inodeNum d mod 64 * 512)
                                + length (encodeInode (inode d'))) blk))
    /\ len (DataBuf (inode d')) = INODE_BUFFER_SIZE /\ len (Data (inode d')) = 15
    /\ 0 < Size (inode d') <= INODE_BUFFER_SIZE.
Proof.
  intros Hinv Hbuf HData Hs Hdec Hlen Hrt.
  destruct (getTable_written (inode d) (<[name := num]> t) w w Hbuf Hlen Hrt)
    as (i' & Hwrite & _ & Hbuf' & HData' & Hsize' & _).
  destruct (putInode_returns i' (inodeNum d) w Hinv)
    as (err & w' & Hput & Hinv' & Hother & Hblk & _);
    [apply encodeInode_len; [done|by rewrite HData']|].
  destruct (getTable_written (inode d) (<[name := num]> t) w w' Hbuf Hlen Hrt)
    as (i'' & Hwrite' & Hget & _).
  assert (i'' = i') by congruence. subst i''.
  exists (mkDir i' (inodeNum d) (inodeStream d)), w'. split.
  - unfold addFile. rewrite (bind_Ok _ _ w _ w (readFromData_inline (inode d) w Hbuf Hs)).
    cbn [fst snd]. unfold InodeTable.UnmarshalBinary at 1. rewrite Hdec. cbn [fst].
    unfold InodeTable.add. rewrite (bind_Ok _ _ w i' w Hwrite).
    by rewrite (bind_Ok _ _ w err w' Hput).
  - cbn [inode inodeNum inodeStream]. split; [done|]. split; [done|]. split; [done|].
    split; [done|]. split; [done|]. split; [done|]. split; [done|].
    split; [by rewrite HData'|]. by rewrite Hsize'.
Qed.

(** X17: after [addFile] the table of the directory maps the name to the
    number and is otherwise as it was, for a directory whose table fits the
    inode buffer before and after, gob decoding what it encoded. *)
Theorem addFile_then_getTable `{Gob} (d : Dir) (name : string) (num : Z)
    (t : gmap string Z) (w : World) :
  store_inv w ->
  len (DataBuf (inode d)) = INODE_BUFFER_SIZE -> len (Data (inode d)) = 15 ->
  0 < Size (inode d) <= INODE_BUFFER_SIZE ->
  gobDecodeTable (take (Z.to_nat (Size (inode d))) (DataBuf (inode d))) = Some t ->
  0 < len (gobEncodeTable (<[name := num]> t)) <= INODE_BUFFER_SIZE ->
  gobDecodeTable (gobEncodeTable (<[name := num]> t)) = Some (<[name := num]> t) ->
  exists d' w',
    addFile d name num w = Ok (d', w')
    /\ getTable (inode d') w' = Ok ((<[name := num]> t, None), w')
    /\ inodeNum d' = inodeNum d /\ inodeStream d' = inodeStream d.
Proof.
  intros Hinv Hbuf HData Hs Hdec Hlen Hrt.
  destruct (addFile_table d name num t w Hinv Hbuf HData Hs Hdec Hlen Hrt)
    as (d' & w' & Hadd & Hget & Hnum & Hstream & _).
  by exists d', w'.
Qed.


(** X19: [removeFile] of a name the table holds returns its number and
    leaves a directory whose table no longer has the name, under the
    conditions of [addFile_then_getTable]. *)
Theorem removeFile_then_getTable `{Gob} (d : Dir) (name : string) (num : Z)
    (t : gmap string Z) (w : World) :
  store_inv w ->
  len (DataBuf (inode d)) = INODE_BUFFER_SIZE -> len (Data (inode d)) = 15 ->
  0 < Size (inode d) <= INODE_BUFFER_SIZE ->
  gobDecodeTable (take (Z.to_nat (Size (inode d))) (DataBuf (inode d))) = Some t ->
  t !! name = Some num -> num <> 0 ->
  0 < len (gobEncodeTable (delete name t)) <= INODE_BUFFER_SIZE ->
  gobDecodeTable (gobEncodeTable (delete name t)) = Some (delete name t) ->
  exists d' w',
    removeFile d name w = Ok ((num, None, d'), w')
    /\ getTable (inode d') w' = Ok ((delete name t, None), w')
    /\ inodeNum d' = inodeNum d /\ inodeStream d' = inodeStream d.
Proof.
  intros Hinv Hbuf HData Hs Hdec Hname Hnum Hlen Hrt.
  destruct (getTable_written (inode d) (delete name t) w w Hbuf Hlen Hrt)
    as (i' & Hwrite & _ & Hbuf' & HData' & _).
  destruct (putInode_returns i' (inodeNum d) w Hinv)
    as (err & w' & Hput & _);
    [apply encodeInode_len; [done|by rewrite HData']|].
  destruct (getTable_written (inode d) (delete name t) w w' Hbuf Hlen Hrt)
    as (i'' & Hwrite' & Hget & _).
  assert (i'' = i') by congruence. subst i''.
  exists (mkDir i' (inodeNum d) (inodeStream d)), w'. split; [|done].
  unfold removeFile. rewrite (bind_Ok _ _ w _ w (readFromData_inline (inode d) w Hbuf Hs)).
  cbn [fst snd]. unfold InodeTable.UnmarshalBinary. rewrite Hdec. cbn [fst].
  unfold InodeTable.at_, InodeTable.delete. rewrite Hname. cbn [default].
  change (id num) with num.
  replace (num =? 0) with false by (symmetry; by apply Z.eqb_neq).
  rewrite (bind_Ok _ _ w i' w Hwrite). by rewrite (bind_Ok _ _ w err w' Hput).
Qed.

(** [getInode] of another number is not affected by an inode put over
    its slot of a stored block. *)
Lemma getInode_other_slot (m n : Z) (enc blk : list Z) (w w' : World) :
  store_inv w -> store_inv w' -> length enc = 512%nat -> m <> n ->
  (forall k, k <> genInodeBlockKey n -> lookupBlock w' k = lookupBlock w k) ->
  lookupBlock w (genInodeBlockKey n) = Some blk ->
  lookupBlock w' (genInodeBlockKey n)
  = Some (take (Z.to_nat (n mod 64 * 512)) blk ++ enc
            ++ drop (Z.to_nat (n mod 64 * 512) + length enc) blk) ->
  value (getInode m w') = value (getInode m w).
Proof.
  intros Hinv Hinv' Henc Hne Hother Hblk Hkey.
  destruct (getInode_lookup m w' Hinv') as (w2 & Hget1 & _).
  destruct (getInode_lookup m w Hinv) as (w3 & Hget & _).
  rewrite Hget1, Hget. cbn [value]. f_equal.
  destruct (decide (genInodeBlockKey m = genInodeBlockKey n)) as [Heq|Hk];
    [|by rewrite Hother].
  rewrite Heq, Hkey, Hblk. do 2 f_equal.
  pose proof (st_sized w Hinv _ _ Hblk) as Hlen.
  destruct (inode_slot n) as (_ & _ & H0 & H1).
  destruct (inode_slot m) as (_ & _ & H0m & H1m).
  unfold len in Hlen. apply splice_other; [lia|].
  assert (Hmod : m mod 64 <> n mod 64).
  { intros Hmod. apply Hne. unfold genInodeBlockKey in Heq.
    change (BLOCK_SIZE / INODE_SIZE) with 64 in Heq. injection Heq as Hdiv.
    rewrite (Z.div_mod m 64), (Z.div_mod n 64) by lia. congruence. }
  lia.
Qed.


Lemma sampleStore_inv : store_inv sampleStore.
Proof.
  apply store_inv_initial; [lia|]. intros k v. cbn [bucket].
  intros [_ <-]%lookup_singleton_Some. apply newDataBlock_len.
Qed.

Lemma sampleDir_table :
  len (DataBuf (inode sampleDir)) = INODE_BUFFER_SIZE
  /\ len (Data (inode sampleDir)) = 15
  /\ 0 < Size (inode sampleDir) <= INODE_BUFFER_SIZE
  /\ gobDecodeTable (take (Z.to_nat (Size (inode sampleDir))) (DataBuf (inode sampleDir)))
     = Some (InodeTable.init 1 1).
Proof. repeat split; vm_compute; (reflexivity || discriminate). Qed.

Lemma addFile_then_getTable_witness :
  exists d' w',
    addFile sampleDir "a" 2 sampleStore = Ok (d', w')
    /\ getTable (inode d') w' = Ok ((<["a" := 2]> (InodeTable.init 1 1), None), w')
    /\ inodeNum d' = inodeNum sampleDir /\ inodeStream d' = inodeStream sampleDir.
Proof.
  destruct sampleDir_table as (Hbuf & HData & Hs & Hdec).
  apply (addFile_then_getTable sampleDir "a" 2 (InodeTable.init 1 1) sampleStore
           sampleStore_inv Hbuf HData Hs Hdec).
  - vm_compute. split; [reflexivity|discriminate].
  - vm_compute. reflexivity.
Defined.


Lemma removeFile_then_getTable_witness :
  exists d' w',
    removeFile sampleDir ".." sampleStore = Ok ((1, None, d'), w')
    /\ getTable (inode d') w' = Ok ((delete ".." (InodeTable.init 1 1), None), w')
    /\ inodeNum d' = inodeNum sampleDir /\ inodeStream d' = inodeStream sampleDir.
Proof.
  destruct sampleDir_table as (Hbuf & HData & Hs & Hdec).
  apply (removeFile_then_getTable sampleDir ".." 1 (InodeTable.init 1 1) sampleStore
           sampleStore_inv Hbuf HData Hs Hdec).
  - vm_compute. reflexivity.
  - lia.
  - vm_compute. split; [reflexivity|discriminate].
  - vm_compute. reflexivity.
Defined.


(** ** Making a directory *)

(** An inode put is the inode got, with what the store holds then. *)
Lemma putInode_stored (i : Inode) (n : Z) (w : World) :
  store_inv w -> inode_wf i ->
  is_Some (lookupBlock w (genInodeBlockKey n)) \/ n mod 64 = 0 \/ n = 1 ->
  exists w1,
    putInode i n w = Ok (None, w1)
    /\ store_inv w1
    /\ value (getInode n w1) = Ok (i, None)
    /\ is_Some (lookupBlock w1 (genInodeBlockKey n))
    /\ (forall k, k <> genInodeBlockKey n -> lookupBlock w1 k = lookupBlock w k)
    /\ dataStream w1 = dataStream w /\ clock w1 = clock w.
Proof.
  intros Hinv Hwf Hblock.
  destruct (inode_codec i Hwf) as [Henc Hdec].
  destruct (putInode_lookup i n w Hinv Henc Hblock)
    as (w1 & blk & Hput & Hinv1 & _ & Hlen & Hkey & Hother & Hds & _ & Hclk).
  destruct (getInode_lookup n w1 Hinv1) as (w2 & Hget & _).
  exists w1. split; [done|]. split; [done|]. split; [|by rewrite Hkey].
  rewrite Hget, Hkey. cbn [value]. do 2 f_equal.
  assert (H512 : length (encodeInode i) = 512%nat)
    by (unfold len in Henc; change INODE_SIZE with 512 in Henc; lia).
  rewrite <- H512 at 1. rewrite splice_same; [done|].
  destruct (inode_slot n) as (_ & _ & H0 & H1).
  unfold len in Hlen. lia.
Qed.

(** X21: [Mkdir] takes the next number of the stream, stores under it a
    directory inode with link count 1 whose table holds ["."] and [".."],
    and records the name in the table of the parent: [getInode] of the
    new number returns the inode of the node [Mkdir] returns. *)
Theorem Mkdir_makes_directory `{Gob} (d : Dir) (name : string) (t : gmap string Z)
    (w : World) :
  store_inv w ->
  len (DataBuf (inode d)) = INODE_BUFFER_SIZE -> len (Data (inode d)) = 15 ->
  0 < Size (inode d) <= INODE_BUFFER_SIZE ->
  gobDecodeTable (take (Z.to_nat (Size (inode d))) (DataBuf (inode d))) = Some t ->
  0 < len (gobEncodeTable (<[name := (next (inodeStream d)).1]> t)) <= INODE_BUFFER_SIZE ->
  gobDecodeTable (gobEncodeTable (<[name := (next (inodeStream d)).1]> t))
  = Some (<[name := (next (inodeStream d)).1]> t) ->
  0 < len (gobEncodeTable (InodeTable.init (inodeNum d) (next (inodeStream d)).1))
    <= INODE_BUFFER_SIZE ->
  gobDecodeTable (gobEncodeTable (InodeTable.init (inodeNum d) (next (inodeStream d)).1))
  = Some (InodeTable.init (inodeNum d) (next (inodeStream d)).1) ->
  - 2 ^ 63 <= clock w < 2 ^ 63 ->
  is_Some (lookupBlock w (genInodeBlockKey (inodeNum d))) ->
  is_Some (lookupBlock w (genInodeBlockKey (next (inodeStream d)).1))
  \/ (next (inodeStream d)).1 mod 64 = 0 \/ (next (inodeStream d)).1 = 1 ->
  (next (inodeStream d)).1 <> inodeNum d ->
  exists d' child w',
    Mkdir d name w = Ok ((d', child, None), w')
    /\ getTable (inode d') w'
       = Ok ((<[name := (next (inodeStream d)).1]> t, None), w')
    /\ inodeStream d' = (next (inodeStream d)).2
    /\ inodeNum child = (next (inodeStream d)).1
    /\ value (getInode (next (inodeStream d)).1 w') = Ok (inode child, None)
    /\ getTable (inode child) w'
       = Ok ((InodeTable.init (inodeNum d) (next (inodeStream d)).1, None), w')
    /\ LinkCount (inode child) = 1 /\ IsDir (inode child) = 1.
Proof.
  intros Hinv Hbuf HData Hs Hdec Hlen Hrt Hlen0 Hrt0 Hclock Hparent Hchild Hfresh.
  set (num := (next (inodeStream d)).1) in *.
  set (d1 := mkDir (inode d) (inodeNum d) (next (inodeStream d)).2).
  set (i0 := mkInode 0 0 (clock w) 1 (makeBytes INODE_BUFFER_SIZE) (replicate 15 0)).
  set (t0 := InodeTable.init (inodeNum d) num) in *.
  assert (Hbuf0 : len (DataBuf i0) = INODE_BUFFER_SIZE) by (by apply makeBytes_len).
  pose proof (writeToData_inline i0 (gobEncodeTable t0) w Hbuf0 Hlen0) as Hw.
  set (i1 := mkInode (len (gobEncodeTable t0)) (LinkCount i0) (clock w) (IsDir i0)
                     (gobEncodeTable t0 ++ drop (length (gobEncodeTable t0)) (DataBuf i0))
                     (Data i0)) in *.
  set (i2 := setLinkCount (setUnixTime (setSize i1 (len (gobEncodeTable t0))) (clock w)) 1).
  assert (Hinit : Inode_init i0 (inodeNum d1) num w = Ok (i2, w)).
  { unfold Inode_init. change (IsDir i0 =? 1) with true. cbv beta iota zeta.
    unfold InodeTable.MarshalBinary. fold t0.
    rewrite (bind_Ok _ _ w (setUnixTime (setSize i1 (len (gobEncodeTable t0))) (clock w)) w);
      [done|].
    by rewrite (bind_Ok _ _ w i1 w Hw). }
  assert (Hb2 : len (DataBuf i2) = INODE_BUFFER_SIZE).
  { cbn [i2 i1 DataBuf setLinkCount setUnixTime setSize]. unfold len in *.
    rewrite length_app, length_drop. lia. }
  assert (Hwf : inode_wf i2).
  { split; cbn [i2 i1 i0 Size LinkCount UnixTime IsDir DataBuf Data
                   setLinkCount setUnixTime setSize].
    - unfold is_u64. change INODE_BUFFER_SIZE with 373 in Hlen0. lia.
    - lia.
    - done.
    - lia.
    - exact Hb2.
    - reflexivity.
    - apply Forall_forall. intros x Hx%elem_of_replicate. unfold is_u64. lia. }
  destruct (putInode_stored i2 num w Hinv Hwf Hchild)
    as (w1 & Hput & Hinv1 & Hgot & Hsome1 & Hother1 & _).
  assert (Hparent1 : is_Some (lookupBlock w1 (genInodeBlockKey (inodeNum d)))).
  { destruct (decide (genInodeBlockKey (inodeNum d) = genInodeBlockKey num)) as [->|Hk];
      [done|by rewrite Hother1]. }
  destruct (addFile_table d1 name num t w1 Hinv1 Hbuf HData Hs Hdec Hlen Hrt)
    as (d' & w' & Hadd & Hget & Hnum & Hstream & Hinv' & Hother & Hblk & Hbuf' & HData' & _).
  destruct (Hblk Hparent1) as (blk & Hb & Hb').
  exists d', (mkDir i2 num (inodeStream d')), w'.
  split; [|split; [done|split; [done|split; [done|split; [|split]]]]].
  - unfold Mkdir. rewrite (bind_Ok _ _ w i0 w) by done. cbv zeta. fold num. fold d1.
    rewrite (bind_Ok _ _ w i2 w Hinit).
    rewrite (bind_Ok _ _ w None w1 Hput).
    by rewrite (bind_Ok _ _ w1 d' w' Hadd).
  - cbn [inode]. rewrite <- Hgot.
    apply (getInode_other_slot num (inodeNum d) (encodeInode (inode d')) blk w1 w');
      try done.
    pose proof (encodeInode_len (inode d') Hbuf' HData') as He.
    unfold len in He. change INODE_SIZE with 512 in He. lia.
  - cbn [inode]. apply getTable_inline; [done| |].
    + cbn [i2 i1 Size setLinkCount setUnixTime setSize]. done.
    + cbn [i2 i1 Size DataBuf setLinkCount setUnixTime setSize].
      unfold len. by rewrite Nat2Z.id, take_app_length.
  - done.
Qed.

Lemma Mkdir_makes_directory_witness :
  exists d' child w',
    Mkdir sampleDir "a" sampleStore = Ok ((d', child, None), w')
    /\ getTable (inode d') w'
       = Ok ((<["a" := (next (inodeStream sampleDir)).1]> (InodeTable.init 1 1), None), w')
    /\ inodeStream d' = (next (inodeStream sampleDir)).2
    /\ inodeNum child = (next (inodeStream sampleDir)).1
    /\ value (getInode (next (inodeStream sampleDir)).1 w') = Ok (inode child, None)
    /\ getTable (inode child) w'
       = Ok ((InodeTable.init (inodeNum sampleDir) (next (inodeStream sampleDir)).1, None),
             w')
    /\ LinkCount (inode child) = 1 /\ IsDir (inode child) = 1.
Proof.
  destruct sampleDir_table as (Hbuf & HData & Hs & Hdec).
  apply (Mkdir_makes_directory sampleDir "a" (InodeTable.init 1 1) sampleStore
           sampleStore_inv Hbuf HData Hs Hdec).
  - vm_compute. split; [reflexivity|discriminate].
  - vm_compute. reflexivity.
  - vm_compute. split; [reflexivity|discriminate].
  - vm_compute. reflexivity.
  - vm_compute. split; [discriminate|reflexivity].
  - exists newDataBlock. reflexivity.
  - left. exists newDataBlock. reflexivity.
  - vm_compute. discriminate.
Defined.

(** ** The first mount *)

(** X22: [getInode] returns from any consistent store: the inode decoded
    from its slot of the block when the store holds the block, a zero
    inode with the error of the lookup when it does not; in both cases
    every key holds what it held. *)
Theorem getInode_returns (n : Z) (w : World) :
  store_inv w ->
  exists w',
    getInode n w
    = Ok (match lookupBlock w (genInodeBlockKey n) with
          | Some blk =>
              (decodeInode (take 512 (drop (Z.to_nat (n mod 64 * 512)) blk)), None)
          | None => (zeroInode, Some ErrNoSuchKey)
          end, w')
    /\ forall k, lookupBlock w' k = lookupBlock w k.
Proof.
  intros Hinv. destruct (getInode_lookup n w Hinv) as (w' & Hget & _ & Hall & _).
  by exists w'.
Qed.

Lemma getInode_returns_witness :
  exists w',
    getInode 70 sampleStore
    = Ok (match lookupBlock sampleStore (genInodeBlockKey 70) with
          | Some blk =>
              (decodeInode (take 512 (drop (Z.to_nat (70 mod 64 * 512)) blk)), None)
          | None => (zeroInode, Some ErrNoSuchKey)
          end, w')
    /\ forall k, lookupBlock w' k = lookupBlock sampleStore k.
Proof. exact (getInode_returns 70 sampleStore sampleStore_inv). Defined.

(** X23: on a store without a superblock, [main], up to the point where
    [mount] has built the filesystem, builds it from a new superblock:
    root inode [ROOT_INODE], both counters at 1, both free-stacks empty.
    The new superblock itself is not stored. *)
Theorem main_without_superblock `{Gob} (cacheSize : Z) (w : World) :
  0 < cacheSize ->
  (forall k v, bucket w !! k = Some v -> len v = BLOCK_SIZE) ->
  bucket w !! SuperKey 0 = None ->
  len (gobEncodeUints []) < BLOCK_SIZE - 32 ->
  exists w',
    main cacheSize w = Ok (mkFS (mkIntStream [] 1) ROOT_INODE, w')
    /\ dataStream w' = mkIntStream [] 1
    /\ (forall k, lookupBlock w' k = bucket w !! k).
Proof.
  intros Hc Hsized Hnone Hshort.
  set (w0 := setCache w (CacheM.initializeCache cacheSize)).
  pose proof (store_inv_initial cacheSize w Hc Hsized) as Hinv. fold w0 in Hinv.
  assert (Hlook : forall k, lookupBlock w0 k = bucket w !! k).
  { intros k. unfold lookupBlock, keyHashAt.
    cbn [w0 cache setCache CacheM.initializeCache keyHash bucket dynamo].
    by rewrite lookup_empty. }
  destruct (getDataByKey_lookup (SuperKey 0) w0 Hinv) as (w1 & Hget & _ & _ & Hall & _).
  rewrite Hlook, Hnone in Hget.
  pose proof newDataBlock_len as Hnl.
  assert (Hz : forall lo hi, (lo <= hi)%nat -> (hi <= 32)%nat ->
                 arraySlice newDataBlock lo hi = replicate (hi - lo) 0).
  { intros lo hi Hlo Hhi. unfold arraySlice, newDataBlock, makeBytes.
    rewrite drop_replicate, take_replicate. f_equal.
    change BLOCK_SIZE with 32768. lia. }
  assert (Hfs0 : makeFs newDataBlock w1
                 = Ok (mkFS (mkIntStream [] 0) 0, setDataStream w1 (mkIntStream [] 0))).
  { rewrite (makeFs_short_list_empty_stack newDataBlock w1 Hnl).
    - by rewrite !Hz by lia.
    - rewrite Hz by lia. change (Uint64 (replicate (32 - 24) 0)) with 0.
      unfold BLOCK_SIZE. lia. }
  set (w2 := setDataStream w1 (mkIntStream [] 1)).
  destruct (makeSuperblocks_short (compressStream (mkIntStream [] 1))
              (compressStream (mkIntStream [] 1)) ROOT_INODE
              (MarshalBinary (mkIntStream [] 1)).1)
    as (super & Hmk & Hlen & H0 & H8 & H16 & H24);
    [apply le_bytes_length|apply le_bytes_length|done|].
  assert (Hsize : Uint64 (arraySlice super 24 32) = len (gobEncodeUints [])).
  { rewrite H24. apply Uint64_PutUint64. unfold is_u64.
    change BLOCK_SIZE with 32768 in Hshort. unfold len in *.
    change (2 ^ 64) with 18446744073709551616. cbn [MarshalBinary] in *.
    unfold MarshalBinary in *. cbn in *. lia. }
  pose proof (makeFs_short_list_empty_stack super w2 Hlen) as Hfs.
  rewrite Hsize in Hfs. specialize (Hfs ltac:(unfold len in *; lia)).
  exists (setDataStream w2 (mkIntStream [] 1)). split; [|split; [done|]].
  - unfold main. rewrite (bind_Ok _ _ w tt w0) by done.
    unfold mount. rewrite (bind_Ok _ _ w0 _ w1 Hget). cbn [fst snd].
    rewrite (bind_Ok _ _ w1 super w2).
    + rewrite Hfs, H0, H8, H16. unfold compressStream. cbn [lastInt].
      rewrite !take_ge by (unfold PutUint64; rewrite le_bytes_length; lia).
      rewrite !Uint64_PutUint64 by (unfold is_u64, ROOT_INODE; lia). reflexivity.
    + unfold makeNewSuperblock. rewrite (bind_Ok _ _ w1 _ _ Hfs0).
      rewrite (bind_Ok _ _ _ tt w2) by done.
      rewrite (bind_Ok _ _ w2 w2 w2) by done.
      by rewrite (bind_Ok _ _ w2 _ w2 (lift_Ok _ _ w2 Hmk)).
  - intros k. rewrite <- Hlook, <- Hall. done.
Qed.

Lemma main_without_superblock_witness :
  exists w',
    main 4 (newWorld 0 0) = Ok (mkFS (mkIntStream [] 1) ROOT_INODE, w')
    /\ dataStream w' = mkIntStream [] 1
    /\ (forall k, lookupBlock w' k = bucket (newWorld 0 0) !! k).
Proof.
  apply main_without_superblock.
  - lia.
  - intros k v. cbn [bucket newWorld]. by rewrite lookup_empty.
  - reflexivity.
  - vm_compute. reflexivity.
Defined.

(** ** Superblocks of a long list *)

(** Filling a whole slice from the start of a longer one. *)
Lemma goCopy_fill (n : Z) (blk data : list Z) :
  len blk = n -> n <= len data ->
  goCopy blk 0 n data 0 n = Ok (take (Z.to_nat n) data).
Proof.
  intros Hb Hd. assert (Hn : 0 <= n) by (unfold len in Hb; lia).
  rewrite goCopy_eq by lia. f_equal.
  rewrite Z.sub_0_r, Z.min_id. change (Z.to_nat 0) with 0%nat.
  rewrite take_0, drop_0. cbn [app Nat.add].
  rewrite drop_ge by (unfold len in Hb; lia). by rewrite app_nil_r.
Qed.

(** One round of the loop of [makeSuperblocks], for a block size [n]. *)
Lemma superblock_round (n : Z) (l : list Z) :
  0 < n -> n <= len l ->
  (if len l >? n then n else len l) = n.
Proof.
  intros Hn Hl. rewrite Z.gtb_ltb. destruct (Z.ltb_spec n (len l)); lia.
Qed.

(** The blocks after the first: one for every whole block of the list. *)
Lemma superblocksAfter_whole (rounds : nat) (l : list Z) :
  Z.of_nat rounds * BLOCK_SIZE <= len l ->
  exists blocks,
    superblocksAfter rounds l = Ok blocks
    /\ length blocks = rounds
    /\ concat blocks = take (Z.to_nat (Z.of_nat rounds * BLOCK_SIZE)) l.
Proof.
  pose proof BLOCK_SIZE_pos as HBS.
  revert l. induction rounds as [|rounds IH]; intros l Hl.
  - exists []. cbn [superblocksAfter]. split; [done|]. split; [done|].
    rewrite Z.mul_0_l. change (Z.to_nat 0) with 0%nat. by rewrite take_0.
  - cbn [superblocksAfter].
    assert (Hge : BLOCK_SIZE <= len l) by nia.
    rewrite (superblock_round BLOCK_SIZE l HBS Hge).
    rewrite (goCopy_fill BLOCK_SIZE newDataBlock l newDataBlock_len Hge).
    cbn [obind].
    rewrite goSliceFrom_eq by lia. cbn [obind].
    destruct (IH (drop (Z.to_nat BLOCK_SIZE) l)) as (blocks & Hrun & Hlen & Hcat).
    { rewrite len_drop_Z by lia. nia. }
    rewrite Hrun. cbn [obind]. eexists. split; [reflexivity|].
    split; [cbn [length]; by rewrite Hlen|].
    cbn [concat]. rewrite Hcat.
    replace (Z.of_nat (S rounds) * BLOCK_SIZE)
      with (BLOCK_SIZE + Z.of_nat rounds * BLOCK_SIZE) by lia.
    apply take_take_drop_Z; nia.
Qed.

(** X24: for a list that does not fit the first superblock,
    [makeSuperblocks] makes one more block for every whole block of what
    is left, not for the rest: the blocks carry the list without its last
    [(len - (BLOCK_SIZE - 32)) mod BLOCK_SIZE] bytes, which are written
    nowhere. *)
Theorem makeSuperblocks_drops_the_rest (inode data : list Z) (root : Z) (l : list Z) :
  length inode = 8%nat -> length data = 8%nat ->
  BLOCK_SIZE - 32 <= len l < 2 ^ 63 ->
  exists blocks,
    makeSuperblocks inode data root l = Ok blocks
    /\ len blocks = 1 + (len l - (BLOCK_SIZE - 32)) / BLOCK_SIZE
    /\ drop 32 (concat blocks)
       = take (Z.to_nat (len l - (len l - (BLOCK_SIZE - 32)) mod BLOCK_SIZE)) l.
Proof.
  intros Hi Hd Hl. unfold makeSuperblocks.
  assert (HBS : BLOCK_SIZE = 32768) by reflexivity.
  assert (H63 : 2 ^ 63 = 9223372036854775808) by reflexivity.
  assert (H64 : 2 ^ 64 = 18446744073709551616) by reflexivity.
  assert (Hadd : add64 (len l) 32 = len l + 32).
  { unfold add64. apply wrap64_small. lia. }
  rewrite Hadd.
  assert (HwE : (if len l + 32 >? BLOCK_SIZE then BLOCK_SIZE else len l + 32) = BLOCK_SIZE).
  { rewrite Z.gtb_ltb. destruct (Z.ltb_spec BLOCK_SIZE (len l + 32)); lia. }
  rewrite HwE.
  assert (Hsub : sub64 BLOCK_SIZE 32 = BLOCK_SIZE - 32) by reflexivity.
  rewrite Hsub.
  set (header := take 8 inode ++ take 8 data ++ PutUint64 root ++ PutUint64 (len l)).
  assert (Hh : length header = 32%nat).
  { unfold header, PutUint64. rewrite !length_app, !length_take, !le_bytes_length. lia. }
  assert (Hnew : length newDataBlock = Z.to_nat BLOCK_SIZE).
  { pose proof newDataBlock_len as Hn. unfold len in Hn. lia. }
  assert (Hs0 : len (header ++ drop 32 newDataBlock) = BLOCK_SIZE).
  { unfold len. rewrite length_app, length_drop, Hh, Hnew. lia. }
  rewrite goCopy_eq by lia. cbn [obind].
  rewrite goSliceFrom_eq by lia. cbn [obind].
  set (rest := drop (Z.to_nat (BLOCK_SIZE - 32)) l).
  assert (Hrest : len rest = len l - (BLOCK_SIZE - 32)).
  { unfold rest. rewrite len_drop_Z by lia. lia. }
  set (q := len rest / BLOCK_SIZE).
  assert (Hq : 0 <= q /\ q * BLOCK_SIZE <= len rest /\ len rest mod BLOCK_SIZE = len rest - q * BLOCK_SIZE).
  { unfold q. rewrite HBS. pose proof (Z.div_mod (len rest) 32768 ltac:(lia)) as Hdm.
    pose proof (Z.mod_pos_bound (len rest) 32768 ltac:(lia)) as Hm.
    assert (0 <= len rest / 32768) by (apply Z.div_pos; lia). lia. }
  assert (Hnb : add64 1 q - 1 = q).
  { unfold add64. rewrite wrap64_small; [lia|]. rewrite HBS in Hq. lia. }
  rewrite Hnb.
  destruct (superblocksAfter_whole (Z.to_nat q) rest) as (blocks & Hrun & Hlen & Hcat);
    [rewrite Z2Nat.id by lia; lia|].
  rewrite Hrun. cbn [obind]. eexists. split; [reflexivity|].
  split.
  { unfold len at 1. cbn [length]. rewrite Hlen. rewrite <- Hrest. fold q. lia. }
  cbn [concat]. rewrite Hcat.
  replace (Z.min (BLOCK_SIZE - 32) (BLOCK_SIZE - 32 - 0)) with (BLOCK_SIZE - 32) by lia.
  change (Z.to_nat 32) with 32%nat. change (Z.to_nat 0) with 0%nat. rewrite drop_0.
  rewrite take_app_length' by done.
  rewrite (drop_ge (header ++ _)) by (unfold len in Hs0; lia).
  rewrite app_nil_r, <- app_assoc, drop_app_length' by done.
  rewrite Z2Nat.id by lia. unfold rest.
  rewrite take_take_drop_Z by lia. f_equal. f_equal.
  rewrite <- Hrest. lia.
Qed.

Lemma makeSuperblocks_drops_the_rest_witness :
  exists blocks,
    makeSuperblocks (PutUint64 9) (PutUint64 12) 1
                    (replicate (Z.to_nat (BLOCK_SIZE + 100)) 7) = Ok blocks
    /\ len blocks
       = 1 + (len (replicate (Z.to_nat (BLOCK_SIZE + 100)) 7) - (BLOCK_SIZE - 32))
             / BLOCK_SIZE
    /\ drop 32 (concat blocks)
       = take (Z.to_nat (len (replicate (Z.to_nat (BLOCK_SIZE + 100)) 7)
                         - (len (replicate (Z.to_nat (BLOCK_SIZE + 100)) 7)
                            - (BLOCK_SIZE - 32)) mod BLOCK_SIZE))
              (replicate (Z.to_nat (BLOCK_SIZE + 100)) 7).
Proof.
  apply makeSuperblocks_drops_the_rest.
  - reflexivity.
  - reflexivity.
  - unfold len. rewrite length_replicate, Z2Nat.id by (unfold BLOCK_SIZE; lia).
    unfold BLOCK_SIZE. lia.
Defined.
